(** * TowerDefense: combat simulation and wave progression

    A shallow embedding of [newProject.cpp] (the single-lane tower defence
    game) and the properties of its simulation core.

    Conventions of the embedding.
    - [int] is [Z].  Signed overflow is undefined in the source; every
      quantity here (health, damage, elixir, counters) stays many orders of
      magnitude below 2^31.
    - [float] is [Q]: timers, coordinates and distances are exact rationals,
      rounding is not modelled.  [sqrt] is [Qsqrt] below, exact on squares of
      rationals (all positions of the program lie on the line y = LANE_Y, so
      every distance the program computes is |dx|).
    - A [Unit*] is a [Ptr] (the identity of the allocation); the
      [std::list<std::unique_ptr<Unit>>] is the list of the live objects in
      list order.  Erasing a list node frees the object: dereferencing a
      pointer to it afterwards is undefined behaviour, which the embedding
      reports as [None].
    - [std::sort] and [std::priority_queue] are library code: they are the
      operations of the class [StdLib]; what the library promises of them
      is the class [StdLibLaws], assumed only where a property needs it.
    - Drawing, colours, audio and key polling are outside the embedding;
      keys arrive as the [Input] of a tick and [GetRandomValue] as a stream,
      and the frame loop of [main] runs over the list of the [Frame]s the
      window delivers. *)

From Stdlib Require Import ZArith QArith Qabs Qround Bool List String Lia Lqa.
From Stdlib Require Import Permutation Sorted Morphisms.
Import ListNotations.

Local Open Scope Z_scope.

(** ** Numbers *)

Definition Qlt_bool (a b : Q) : bool := negb (Qle_bool b a).

(** [std::max(a, b)]: [(a < b) ? b : a]. *)
Definition std_max (a b : Q) : Q := if Qlt_bool a b then b else a.

(** [(int)x]: truncation toward zero. *)
Definition to_int (x : Q) : Z := Z.quot (Qnum x) (Zpos (Qden x)).

(** [sqrt]: the root of the numerator over the denominator, brought to the
    denominator [Qden q]; exact whenever [q] is the square of a rational. *)
Definition Qsqrt (q : Q) : Q :=
  Qmake (Z.sqrt (Qnum q * Zpos (Qden q))) (Qden q).

(** ** Game constants *)

Definition SCREEN_WIDTH : Z := 1200.
Definition SCREEN_HEIGHT : Z := 800.
Definition GROUND_HEIGHT : Z := 100.
Definition LANE_Y : Z := Z.quot SCREEN_HEIGHT 2.

Definition TOWER_HP : Z := 3500.
Definition TOWER_DAMAGE : Z := 50.
Definition TOWER_ATTACK_RATE : Q := 1.
Definition TOWER_RANGE : Q := 300.

Inductive GameState := START_SCREEN | PLAYING | GAME_OVER.

Inductive UnitType := KNIGHT | ARCHER | GIANT | WIZARD.

Definition GameState_eqb (a b : GameState) : bool :=
  match a, b with
  | START_SCREEN, START_SCREEN | PLAYING, PLAYING | GAME_OVER, GAME_OVER => true
  | _, _ => false
  end.

Definition UnitType_eqb (a b : UnitType) : bool :=
  match a, b with
  | KNIGHT, KNIGHT | ARCHER, ARCHER | GIANT, GIANT | WIZARD, WIZARD => true
  | _, _ => false
  end.

Record Vector2 := mkVector2 { vx : Q; vy : Q }.

(** [struct UnitStats] (the colour is a drawing attribute and is left out). *)
Record UnitStats := mkUnitStats {
  st_name : string;
  st_cost : Z;
  st_hp : Z;
  st_damage : Z;
  st_speed : Q;
  st_attackRate : Q;
  st_range : Q;
  st_isRanged : bool;
  st_size : Z
}.

Record WaveUnit := mkWaveUnit { wu_type : UnitType; wu_count : Z }.

Definition Ptr := nat.

(** [class Unit]. [uid] is the address of the object. *)
Record Unit := mkUnit {
  uid : Ptr;
  type : UnitType;
  position : Vector2;
  currentHP : Z;
  maxHP : Z;
  damage : Z;
  speed : Q;
  attackRate : Q;
  attackRange : Q;
  isRanged : bool;
  attackTimer : Q;
  isPlayer : bool;
  size : Z;
  isAlive : bool;
  target : option Ptr;
  isFrozen : bool;
  freezeTimer : Q;
  path : list Vector2;
  currentTargetPos : Vector2
}.

(** Field assignments. *)
Definition set_position (p : Vector2) (u : Unit) : Unit :=
  mkUnit (uid u) (type u) p (currentHP u) (maxHP u) (damage u) (speed u)
    (attackRate u) (attackRange u) (isRanged u) (attackTimer u) (isPlayer u)
    (size u) (isAlive u) (target u) (isFrozen u) (freezeTimer u) (path u)
    (currentTargetPos u).

Definition set_currentHP (h : Z) (u : Unit) : Unit :=
  mkUnit (uid u) (type u) (position u) h (maxHP u) (damage u) (speed u)
    (attackRate u) (attackRange u) (isRanged u) (attackTimer u) (isPlayer u)
    (size u) (isAlive u) (target u) (isFrozen u) (freezeTimer u) (path u)
    (currentTargetPos u).

Definition set_attackTimer (t : Q) (u : Unit) : Unit :=
  mkUnit (uid u) (type u) (position u) (currentHP u) (maxHP u) (damage u)
    (speed u) (attackRate u) (attackRange u) (isRanged u) t (isPlayer u)
    (size u) (isAlive u) (target u) (isFrozen u) (freezeTimer u) (path u)
    (currentTargetPos u).

Definition set_isAlive (b : bool) (u : Unit) : Unit :=
  mkUnit (uid u) (type u) (position u) (currentHP u) (maxHP u) (damage u)
    (speed u) (attackRate u) (attackRange u) (isRanged u) (attackTimer u)
    (isPlayer u) (size u) b (target u) (isFrozen u) (freezeTimer u) (path u)
    (currentTargetPos u).

Definition set_target (t : option Ptr) (u : Unit) : Unit :=
  mkUnit (uid u) (type u) (position u) (currentHP u) (maxHP u) (damage u)
    (speed u) (attackRate u) (attackRange u) (isRanged u) (attackTimer u)
    (isPlayer u) (size u) (isAlive u) t (isFrozen u) (freezeTimer u) (path u)
    (currentTargetPos u).

Definition set_isFrozen (b : bool) (u : Unit) : Unit :=
  mkUnit (uid u) (type u) (position u) (currentHP u) (maxHP u) (damage u)
    (speed u) (attackRate u) (attackRange u) (isRanged u) (attackTimer u)
    (isPlayer u) (size u) (isAlive u) (target u) b (freezeTimer u) (path u)
    (currentTargetPos u).

Definition set_freezeTimer (t : Q) (u : Unit) : Unit :=
  mkUnit (uid u) (type u) (position u) (currentHP u) (maxHP u) (damage u)
    (speed u) (attackRate u) (attackRange u) (isRanged u) (attackTimer u)
    (isPlayer u) (size u) (isAlive u) (target u) (isFrozen u) t (path u)
    (currentTargetPos u).

Definition set_path (p : list Vector2) (u : Unit) : Unit :=
  mkUnit (uid u) (type u) (position u) (currentHP u) (maxHP u) (damage u)
    (speed u) (attackRate u) (attackRange u) (isRanged u) (attackTimer u)
    (isPlayer u) (size u) (isAlive u) (target u) (isFrozen u) (freezeTimer u)
    p (currentTargetPos u).

Definition set_currentTargetPos (p : Vector2) (u : Unit) : Unit :=
  mkUnit (uid u) (type u) (position u) (currentHP u) (maxHP u) (damage u)
    (speed u) (attackRate u) (attackRange u) (isRanged u) (attackTimer u)
    (isPlayer u) (size u) (isAlive u) (target u) (isFrozen u) (freezeTimer u)
    (path u) p.

(** [struct GameWave]; [nextWave] is the position in the chain (see [Game]). *)
Record GameWave := mkGameWave {
  waveNumber : Z;
  waveUnits : list WaveUnit;
  spawnRate : Q;
  waveCooldown : Q
}.

Definition set_spawnRate (r : Q) (w : GameWave) : GameWave :=
  mkGameWave (waveNumber w) (waveUnits w) r (waveCooldown w).

(** ** class Unit *)

(** [Unit::getUnitStats]; every [UnitType] is one of the four cases. *)
Definition Unit_getUnitStats (t : UnitType) : UnitStats :=
  match t with
  | KNIGHT => mkUnitStats "Knight" 3 300 60 80 (12#10) 40 false 25
  | ARCHER => mkUnitStats "Archer" 3 150 40 60 (15#10) 150 true 20
  | GIANT => mkUnitStats "Giant" 5 1000 80 40 2 50 false 35
  | WIZARD => mkUnitStats "Wizard" 4 180 70 50 (25#10) 120 true 22
  end.

(** [Unit::CalculateDistance] (and [Tower::CalculateDistance]). *)
Definition CalculateDistance (a b : Vector2) : Q :=
  Qsqrt ((vx a - vx b) * (vx a - vx b) + (vy a - vy b) * (vy a - vy b))%Q.

Definition lane_point (x : Z) : Vector2 := mkVector2 (inject_Z x) (inject_Z LANE_Y).

(** The two loops of [Unit::generatePath]; [n] bounds the iterations. *)
Fixpoint path_right (n : nat) (x : Z) : list Vector2 :=
  match n with
  | O => []
  | S n' => if x <? SCREEN_WIDTH - 50 then lane_point x :: path_right n' (x + 50) else []
  end.

Fixpoint path_left (n : nat) (x : Z) : list Vector2 :=
  match n with
  | O => []
  | S n' => if x >? 50 then lane_point x :: path_left n' (x - 50) else []
  end.

(** The number of iterations the loops make from [x]: enough fuel for them. *)
Definition steps_right (x : Z) : nat := Z.to_nat ((SCREEN_WIDTH - 50 - x + 49) / 50).
Definition steps_left (x : Z) : nat := Z.to_nat ((x - 50 + 49) / 50).

(** [Unit::generatePath]. *)
Definition generatePath (u : Unit) : Unit :=
  let x := to_int (vx (position u)) in
  let p := if isPlayer u then path_right (steps_right x) x
           else path_left (steps_left x) x in
  let u1 := set_path p u in
  match p with
  | [] => u1
  | w :: _ => set_currentTargetPos w u1
  end.

(** [Unit::Unit(unitType, player)], allocated at address [p]. *)
Definition Unit_new (p : Ptr) (unitType : UnitType) (player : bool) : Unit :=
  let stats := Unit_getUnitStats unitType in
  let pos := if player then lane_point 150 else lane_point (SCREEN_WIDTH - 150) in
  let ctp := if player then lane_point (SCREEN_WIDTH - 50) else lane_point 50 in
  let u := mkUnit p unitType pos (st_hp stats) (st_hp stats) (st_damage stats)
             (st_speed stats) (st_attackRate stats) (st_range stats)
             (st_isRanged stats) 0 player (st_size stats) true None false 0
             [] ctp in
  set_attackTimer 0 (generatePath u).

(** ** The library interface *)

(** What [std::sort] asks of its comparator, on the elements at hand. *)
Definition strict_weak_on {A} (c : A -> A -> bool) (l : list A) : Prop :=
  (forall a, In a l -> c a a = false) /\
  (forall x y z, In x l -> In y l -> In z l ->
     c x y = true -> c y z = true -> c x z = true) /\
  (forall x y z, In x l -> In y l -> In z l ->
     c x y = false -> c y z = false -> c x z = false).

(** The front of a heap vector is not below any other element. *)
Definition is_top {A} (c : A -> A -> bool) (q : list A) : Prop :=
  match q with
  | [] => True
  | t :: r => Forall (fun x => c t x = false) r
  end.

(** [std_sort c l]: the vector after [std::sort(begin, end, c)].
    [push_heap c q x]: the vector of a [std::priority_queue] with comparator
    [c] after [push(x)]; [top()] is its front. *)
Class StdLib := {
  std_sort : forall {A}, (A -> A -> bool) -> list A -> list A;
  push_heap : forall {A}, (A -> A -> bool) -> list A -> A -> list A
}.

(** The contract of the library: both operations rearrange in place, and
    the order they produce is specified when [c] is a strict weak ordering
    on the elements. *)
Class StdLibLaws (L : StdLib) : Prop := {
  std_sort_perm : forall A (c : A -> A -> bool) l, Permutation (std_sort c l) l;
  std_sort_sorted : forall A (c : A -> A -> bool) l,
      strict_weak_on c l -> StronglySorted (fun a b => c b a = false) (std_sort c l);
  push_heap_perm : forall A (c : A -> A -> bool) q x, Permutation (push_heap c q x) (x :: q);
  push_heap_top : forall A (c : A -> A -> bool) q x,
      strict_weak_on c (x :: q) -> is_top c q -> is_top c (push_heap c q x)
}.

(** ** The unit store *)

Definition deref (us : list Unit) (p : Ptr) : option Unit :=
  find (fun u => Nat.eqb (uid u) p) us.

(** Writing the object [u] back at its address. *)
Definition assign (u : Unit) (us : list Unit) : list Unit :=
  map (fun v => if Nat.eqb (uid v) (uid u) then u else v) us.

(** [units.erase(it)] for the node holding the object at [p]. *)
Definition erase (p : Ptr) (us : list Unit) : list Unit :=
  filter (fun v => negb (Nat.eqb (uid v) p)) us.

Definition bind {A B} (o : option A) (f : A -> option B) : option B :=
  match o with
  | Some a => f a
  | None => None
  end.

Notation "x <- o ;; k" := (bind o (fun x => k))
  (at level 61, o at next level, right associativity).

(** ** Targeting *)

(** The comparator of [Unit::FindTargetWithPriority]. *)
Definition target_less (a b : Unit * Q) : bool :=
  if Qlt_bool (Qabs (snd a - snd b)) 10
  then currentHP (fst a) <? currentHP (fst b)
  else Qlt_bool (snd a) (snd b).

(** [TowerTargetPriority::operator()]. *)
Definition TowerTargetPriority (a b : Unit * Q) : bool :=
  if Qlt_bool (Qabs (snd a - snd b)) 10
  then currentHP (fst a) >? currentHP (fst b)
  else Qlt_bool (snd b) (snd a).

(** The collecting loop of [Unit::FindTargetWithPriority]. *)
Definition potentialTargets (self : Unit) (allUnits : list Unit) : list (Unit * Q) :=
  flat_map (fun unit =>
    if isAlive unit && negb (Bool.eqb (isPlayer unit) (isPlayer self)) then
      let distance := CalculateDistance (position self) (position unit) in
      if Qle_bool distance (attackRange self * (15#10)) then [(unit, distance)] else []
    else []) allUnits.

Section WithStdLib.
Context {L : StdLib}.

(** [Unit::FindTargetWithPriority]: the unit with its new [target]. *)
Definition FindTargetWithPriority (self : Unit) (allUnits : list Unit) : Unit :=
  match potentialTargets self allUnits with
  | [] => set_target None self
  | pts => set_target
             (option_map (fun x => uid (fst x)) (hd_error (std_sort target_less pts)))
             self
  end.

(** ** Attack and movement *)

(** The splash loop of [Unit::Attack] for a wizard [me] whose primary
    target [t] sits at address [tp]. *)
Definition splash (me t : Unit) (tp : Ptr) (us : list Unit) : list Unit :=
  map (fun unit =>
    if isAlive unit && negb (Nat.eqb (uid unit) tp)
       && negb (Bool.eqb (isPlayer unit) (isPlayer me)) then
      if Qlt_bool (CalculateDistance (position unit) (position t)) 60
      then set_currentHP (currentHP unit - Z.quot (damage me) 2) unit
      else unit
    else unit) us.

(** [Unit::Attack(targetUnit, allUnits)] called on the unit at [self]. *)
Definition Attack (self : Ptr) (targetUnit : option Ptr) (us : list Unit)
  : option (list Unit) :=
  match targetUnit with
  | None => Some us
  | Some tp =>
      t <- deref us tp ;;
      if negb (isAlive t) then Some us else
      me <- deref us self ;;
      let us1 := assign (set_currentHP (currentHP t - damage me) t) us in
      me1 <- deref us1 self ;;
      t1 <- deref us1 tp ;;
      let us2 := if UnitType_eqb (type me1) WIZARD then splash me1 t1 tp us1 else us1 in
      t2 <- deref us2 tp ;;
      if currentHP t2 <=? 0 then
        let us3 := assign (set_isAlive false t2) us2 in
        me3 <- deref us3 self ;;
        Some (assign (set_target None me3) us3)
      else Some us2
  end.

(** [Unit::FollowPath]. *)
Definition FollowPath (deltaTime : Q) (u : Unit) : Unit :=
  match path u with
  | [] => u
  | _ :: rest =>
      let dx := (vx (currentTargetPos u) - vx (position u))%Q in
      let dy := (vy (currentTargetPos u) - vy (position u))%Q in
      let distance := Qsqrt (dx * dx + dy * dy)%Q in
      if Qlt_bool distance 5 then
        let u1 := set_path rest u in
        match rest with
        | [] => u1
        | w :: _ => set_currentTargetPos w u1
        end
      else
        set_position
          (mkVector2 (vx (position u) + dx / distance * speed u * deltaTime)%Q
                     (vy (position u) + dy / distance * speed u * deltaTime)%Q) u
  end.

(** [!target || !target->isAlive]; reading through a freed pointer is [None]. *)
Definition target_lost (us : list Unit) (u : Unit) : option bool :=
  match target u with
  | None => Some true
  | Some tp => t <- deref us tp ;; Some (negb (isAlive t))
  end.

(** [Unit::Update(deltaTime, allUnits)] called on the unit at [self]. *)
Definition Unit_Update (deltaTime : Q) (self : Ptr) (us : list Unit)
  : option (list Unit) :=
  u <- deref us self ;;
  if negb (isAlive u) then Some us else
  if isFrozen u then
    let u1 := set_freezeTimer (freezeTimer u - deltaTime)%Q u in
    let u2 := if Qle_bool (freezeTimer u1) 0 then set_isFrozen false u1 else u1 in
    Some (assign u2 us)
  else
    lost <- target_lost us u ;;
    let u1 := if lost then FindTargetWithPriority u us else u in
    let us1 := assign u1 us in
    lost1 <- target_lost us1 u1 ;;
    if negb lost1 then
      tp <- target u1 ;;
      t <- deref us1 tp ;;
      let distanceToTarget := CalculateDistance (position u1) (position t) in
      if Qle_bool distanceToTarget (attackRange u1) then
        let u2 := set_attackTimer (attackTimer u1 + deltaTime)%Q u1 in
        let us2 := assign u2 us1 in
        if Qle_bool (attackRate u2) (attackTimer u2) then
          us3 <- Attack self (target u2) us2 ;;
          u3 <- deref us3 self ;;
          Some (assign (set_attackTimer 0 u3) us3)
        else Some us2
      else
        Some (assign (set_attackTimer 0 (FollowPath deltaTime u1)) us1)
    else
      Some (assign (FollowPath deltaTime u1) us1).

End WithStdLib.

(** ** class Projectile (the colour is left out) *)

Record Projectile := mkProjectile {
  startPos : Vector2;
  endPos : Vector2;
  progress : Q;
  active : bool
}.

Definition Projectile_new (s e : Vector2) : Projectile := mkProjectile s e 0 true.

(** [Projectile::Update]. *)
Definition Projectile_Update (deltaTime : Q) (p : Projectile) : Projectile :=
  let pr := (progress p + deltaTime * 3)%Q in
  mkProjectile (startPos p) (endPos p) pr (if Qle_bool 1 pr then false else active p).

(** ** class Tower *)

(** The entries of [targetQueue] are the pairs [(Unit*, float)] of the source;
    the unit is kept as read when the entry was pushed (the comparator reads
    its health then, and only then), and only its address is used later. *)
Record Tower := mkTower {
  t_position : Vector2;
  t_currentHP : Z;
  t_maxHP : Z;
  t_damage : Z;
  t_attackRate : Q;
  t_attackTimer : Q;
  t_isPlayer : bool;
  t_isAlive : bool;
  targetQueue : list (Unit * Q)
}.

Definition set_t_currentHP (v : Z) (r : Tower) : Tower :=
  mkTower (t_position r) v (t_maxHP r) (t_damage r) (t_attackRate r)
    (t_attackTimer r) (t_isPlayer r) (t_isAlive r) (targetQueue r).

Definition set_t_attackTimer (v : Q) (r : Tower) : Tower :=
  mkTower (t_position r) (t_currentHP r) (t_maxHP r) (t_damage r)
    (t_attackRate r) v (t_isPlayer r) (t_isAlive r) (targetQueue r).

Definition set_t_isAlive (v : bool) (r : Tower) : Tower :=
  mkTower (t_position r) (t_currentHP r) (t_maxHP r) (t_damage r)
    (t_attackRate r) (t_attackTimer r) (t_isPlayer r) v (targetQueue r).

Definition set_targetQueue (v : list (Unit * Q)) (r : Tower) : Tower :=
  mkTower (t_position r) (t_currentHP r) (t_maxHP r) (t_damage r)
    (t_attackRate r) (t_attackTimer r) (t_isPlayer r) (t_isAlive r) v.

(** ** class Game *)

(** The wave chain [waveList -> ... -> nullptr] is the list [waveList] of its
    nodes in link order and [currentWave] is the position of the node pointed
    to; a position past the end is [nullptr].  [next_ptr] is the address the
    next allocated [Unit] gets. *)
Record Game := mkGame {
  currentState : GameState;
  playerTower : Tower;
  enemyTower : Tower;
  units : list Unit;
  projectiles : list Projectile;
  freezeAvailable : bool;
  freezeCooldown : Q;
  playerElixir : Z;
  enemyElixir : Z;
  elixirTimer : Q;
  waveList : list GameWave;
  currentWave : nat;
  waveSpawnTimer : Q;
  currentUnitTypeIndex : nat;
  unitsSpawnedForCurrentType : Z;
  isBetweenWaves : bool;
  betweenWavesTimer : Q;
  gameTimer : Q;
  gameOver : bool;
  winner : string;
  next_ptr : Ptr
}.

Definition set_currentState (v : GameState) (r : Game) : Game :=
  mkGame v (playerTower r) (enemyTower r) (units r) (projectiles r)
    (freezeAvailable r) (freezeCooldown r) (playerElixir r) (enemyElixir r)
    (elixirTimer r) (waveList r) (currentWave r) (waveSpawnTimer r)
    (currentUnitTypeIndex r) (unitsSpawnedForCurrentType r) (isBetweenWaves
    r) (betweenWavesTimer r) (gameTimer r) (gameOver r) (winner r) (next_ptr
    r).

Definition set_playerTower (v : Tower) (r : Game) : Game :=
  mkGame (currentState r) v (enemyTower r) (units r) (projectiles r)
    (freezeAvailable r) (freezeCooldown r) (playerElixir r) (enemyElixir r)
    (elixirTimer r) (waveList r) (currentWave r) (waveSpawnTimer r)
    (currentUnitTypeIndex r) (unitsSpawnedForCurrentType r) (isBetweenWaves
    r) (betweenWavesTimer r) (gameTimer r) (gameOver r) (winner r) (next_ptr
    r).

Definition set_enemyTower (v : Tower) (r : Game) : Game :=
  mkGame (currentState r) (playerTower r) v (units r) (projectiles r)
    (freezeAvailable r) (freezeCooldown r) (playerElixir r) (enemyElixir r)
    (elixirTimer r) (waveList r) (currentWave r) (waveSpawnTimer r)
    (currentUnitTypeIndex r) (unitsSpawnedForCurrentType r) (isBetweenWaves
    r) (betweenWavesTimer r) (gameTimer r) (gameOver r) (winner r) (next_ptr
    r).

Definition set_units (v : list Unit) (r : Game) : Game :=
  mkGame (currentState r) (playerTower r) (enemyTower r) v (projectiles r)
    (freezeAvailable r) (freezeCooldown r) (playerElixir r) (enemyElixir r)
    (elixirTimer r) (waveList r) (currentWave r) (waveSpawnTimer r)
    (currentUnitTypeIndex r) (unitsSpawnedForCurrentType r) (isBetweenWaves
    r) (betweenWavesTimer r) (gameTimer r) (gameOver r) (winner r) (next_ptr
    r).

Definition set_projectiles (v : list Projectile) (r : Game) : Game :=
  mkGame (currentState r) (playerTower r) (enemyTower r) (units r) v
    (freezeAvailable r) (freezeCooldown r) (playerElixir r) (enemyElixir r)
    (elixirTimer r) (waveList r) (currentWave r) (waveSpawnTimer r)
    (currentUnitTypeIndex r) (unitsSpawnedForCurrentType r) (isBetweenWaves
    r) (betweenWavesTimer r) (gameTimer r) (gameOver r) (winner r) (next_ptr
    r).

Definition set_freezeAvailable (v : bool) (r : Game) : Game :=
  mkGame (currentState r) (playerTower r) (enemyTower r) (units r)
    (projectiles r) v (freezeCooldown r) (playerElixir r) (enemyElixir r)
    (elixirTimer r) (waveList r) (currentWave r) (waveSpawnTimer r)
    (currentUnitTypeIndex r) (unitsSpawnedForCurrentType r) (isBetweenWaves
    r) (betweenWavesTimer r) (gameTimer r) (gameOver r) (winner r) (next_ptr
    r).

Definition set_freezeCooldown (v : Q) (r : Game) : Game :=
  mkGame (currentState r) (playerTower r) (enemyTower r) (units r)
    (projectiles r) (freezeAvailable r) v (playerElixir r) (enemyElixir r)
    (elixirTimer r) (waveList r) (currentWave r) (waveSpawnTimer r)
    (currentUnitTypeIndex r) (unitsSpawnedForCurrentType r) (isBetweenWaves
    r) (betweenWavesTimer r) (gameTimer r) (gameOver r) (winner r) (next_ptr
    r).

Definition set_playerElixir (v : Z) (r : Game) : Game :=
  mkGame (currentState r) (playerTower r) (enemyTower r) (units r)
    (projectiles r) (freezeAvailable r) (freezeCooldown r) v (enemyElixir r)
    (elixirTimer r) (waveList r) (currentWave r) (waveSpawnTimer r)
    (currentUnitTypeIndex r) (unitsSpawnedForCurrentType r) (isBetweenWaves
    r) (betweenWavesTimer r) (gameTimer r) (gameOver r) (winner r) (next_ptr
    r).

Definition set_enemyElixir (v : Z) (r : Game) : Game :=
  mkGame (currentState r) (playerTower r) (enemyTower r) (units r)
    (projectiles r) (freezeAvailable r) (freezeCooldown r) (playerElixir r)
    v (elixirTimer r) (waveList r) (currentWave r) (waveSpawnTimer r)
    (currentUnitTypeIndex r) (unitsSpawnedForCurrentType r) (isBetweenWaves
    r) (betweenWavesTimer r) (gameTimer r) (gameOver r) (winner r) (next_ptr
    r).

Definition set_elixirTimer (v : Q) (r : Game) : Game :=
  mkGame (currentState r) (playerTower r) (enemyTower r) (units r)
    (projectiles r) (freezeAvailable r) (freezeCooldown r) (playerElixir r)
    (enemyElixir r) v (waveList r) (currentWave r) (waveSpawnTimer r)
    (currentUnitTypeIndex r) (unitsSpawnedForCurrentType r) (isBetweenWaves
    r) (betweenWavesTimer r) (gameTimer r) (gameOver r) (winner r) (next_ptr
    r).

Definition set_waveList (v : list GameWave) (r : Game) : Game :=
  mkGame (currentState r) (playerTower r) (enemyTower r) (units r)
    (projectiles r) (freezeAvailable r) (freezeCooldown r) (playerElixir r)
    (enemyElixir r) (elixirTimer r) v (currentWave r) (waveSpawnTimer r)
    (currentUnitTypeIndex r) (unitsSpawnedForCurrentType r) (isBetweenWaves
    r) (betweenWavesTimer r) (gameTimer r) (gameOver r) (winner r) (next_ptr
    r).

Definition set_currentWave (v : nat) (r : Game) : Game :=
  mkGame (currentState r) (playerTower r) (enemyTower r) (units r)
    (projectiles r) (freezeAvailable r) (freezeCooldown r) (playerElixir r)
    (enemyElixir r) (elixirTimer r) (waveList r) v (waveSpawnTimer r)
    (currentUnitTypeIndex r) (unitsSpawnedForCurrentType r) (isBetweenWaves
    r) (betweenWavesTimer r) (gameTimer r) (gameOver r) (winner r) (next_ptr
    r).

Definition set_waveSpawnTimer (v : Q) (r : Game) : Game :=
  mkGame (currentState r) (playerTower r) (enemyTower r) (units r)
    (projectiles r) (freezeAvailable r) (freezeCooldown r) (playerElixir r)
    (enemyElixir r) (elixirTimer r) (waveList r) (currentWave r) v
    (currentUnitTypeIndex r) (unitsSpawnedForCurrentType r) (isBetweenWaves
    r) (betweenWavesTimer r) (gameTimer r) (gameOver r) (winner r) (next_ptr
    r).

Definition set_currentUnitTypeIndex (v : nat) (r : Game) : Game :=
  mkGame (currentState r) (playerTower r) (enemyTower r) (units r)
    (projectiles r) (freezeAvailable r) (freezeCooldown r) (playerElixir r)
    (enemyElixir r) (elixirTimer r) (waveList r) (currentWave r)
    (waveSpawnTimer r) v (unitsSpawnedForCurrentType r) (isBetweenWaves r)
    (betweenWavesTimer r) (gameTimer r) (gameOver r) (winner r) (next_ptr r).

Definition set_unitsSpawnedForCurrentType (v : Z) (r : Game) : Game :=
  mkGame (currentState r) (playerTower r) (enemyTower r) (units r)
    (projectiles r) (freezeAvailable r) (freezeCooldown r) (playerElixir r)
    (enemyElixir r) (elixirTimer r) (waveList r) (currentWave r)
    (waveSpawnTimer r) (currentUnitTypeIndex r) v (isBetweenWaves r)
    (betweenWavesTimer r) (gameTimer r) (gameOver r) (winner r) (next_ptr r).

Definition set_isBetweenWaves (v : bool) (r : Game) : Game :=
  mkGame (currentState r) (playerTower r) (enemyTower r) (units r)
    (projectiles r) (freezeAvailable r) (freezeCooldown r) (playerElixir r)
    (enemyElixir r) (elixirTimer r) (waveList r) (currentWave r)
    (waveSpawnTimer r) (currentUnitTypeIndex r) (unitsSpawnedForCurrentType
    r) v (betweenWavesTimer r) (gameTimer r) (gameOver r) (winner r)
    (next_ptr r).

Definition set_betweenWavesTimer (v : Q) (r : Game) : Game :=
  mkGame (currentState r) (playerTower r) (enemyTower r) (units r)
    (projectiles r) (freezeAvailable r) (freezeCooldown r) (playerElixir r)
    (enemyElixir r) (elixirTimer r) (waveList r) (currentWave r)
    (waveSpawnTimer r) (currentUnitTypeIndex r) (unitsSpawnedForCurrentType
    r) (isBetweenWaves r) v (gameTimer r) (gameOver r) (winner r) (next_ptr
    r).

Definition set_gameTimer (v : Q) (r : Game) : Game :=
  mkGame (currentState r) (playerTower r) (enemyTower r) (units r)
    (projectiles r) (freezeAvailable r) (freezeCooldown r) (playerElixir r)
    (enemyElixir r) (elixirTimer r) (waveList r) (currentWave r)
    (waveSpawnTimer r) (currentUnitTypeIndex r) (unitsSpawnedForCurrentType
    r) (isBetweenWaves r) (betweenWavesTimer r) v (gameOver r) (winner r)
    (next_ptr r).

Definition set_gameOver (v : bool) (r : Game) : Game :=
  mkGame (currentState r) (playerTower r) (enemyTower r) (units r)
    (projectiles r) (freezeAvailable r) (freezeCooldown r) (playerElixir r)
    (enemyElixir r) (elixirTimer r) (waveList r) (currentWave r)
    (waveSpawnTimer r) (currentUnitTypeIndex r) (unitsSpawnedForCurrentType
    r) (isBetweenWaves r) (betweenWavesTimer r) (gameTimer r) v (winner r)
    (next_ptr r).

Definition set_winner (v : string) (r : Game) : Game :=
  mkGame (currentState r) (playerTower r) (enemyTower r) (units r)
    (projectiles r) (freezeAvailable r) (freezeCooldown r) (playerElixir r)
    (enemyElixir r) (elixirTimer r) (waveList r) (currentWave r)
    (waveSpawnTimer r) (currentUnitTypeIndex r) (unitsSpawnedForCurrentType
    r) (isBetweenWaves r) (betweenWavesTimer r) (gameTimer r) (gameOver r) v
    (next_ptr r).

Definition set_next_ptr (v : Ptr) (r : Game) : Game :=
  mkGame (currentState r) (playerTower r) (enemyTower r) (units r)
    (projectiles r) (freezeAvailable r) (freezeCooldown r) (playerElixir r)
    (enemyElixir r) (elixirTimer r) (waveList r) (currentWave r)
    (waveSpawnTimer r) (currentUnitTypeIndex r) (unitsSpawnedForCurrentType
    r) (isBetweenWaves r) (betweenWavesTimer r) (gameTimer r) (gameOver r)
    (winner r) v.

Definition FREEZE_DURATION : Q := 5.
Definition FREEZE_COOLDOWN : Q := 30.
Definition MAX_ELIXIR : Z := 10.
Definition ELIXIR_RATE : Q := 2.
Definition GAME_TIME_LIMIT : Q := 120.

(** [Tower::Tower(player)]. *)
Definition Tower_new (player : bool) : Tower :=
  mkTower (if player then lane_point 50 else lane_point (SCREEN_WIDTH - 50))
    TOWER_HP TOWER_HP TOWER_DAMAGE TOWER_ATTACK_RATE 0 player true [].

Definition CanAttack (t : Tower) : bool := Qle_bool (t_attackRate t) (t_attackTimer t).

Definition ResetAttackTimer (t : Tower) : Tower := set_t_attackTimer 0 t.

(** [Tower::GetBestTarget]: the pointer at the top of the queue. *)
Definition GetBestTarget (t : Tower) : option Ptr :=
  option_map (fun e => uid (fst e)) (hd_error (targetQueue t)).

(** [Game::GetUnitStats], the controller's copy of the table. *)
Definition Game_GetUnitStats (t : UnitType) : UnitStats :=
  match t with
  | KNIGHT => mkUnitStats "Knight" 3 300 60 80 (12#10) 40 false 25
  | ARCHER => mkUnitStats "Archer" 3 150 40 60 (15#10) 150 true 20
  | GIANT => mkUnitStats "Giant" 5 1000 80 40 2 50 false 35
  | WIZARD => mkUnitStats "Wizard" 4 180 70 50 (25#10) 120 true 22
  end.

(** [Game::InitializeWaves]: the chain it links, head first. *)
Definition InitializeWaves : list GameWave :=
  [ mkGameWave 1 [mkWaveUnit KNIGHT 2; mkWaveUnit WIZARD 1] 4 10;
    mkGameWave 2 [mkWaveUnit GIANT 1; mkWaveUnit KNIGHT 1; mkWaveUnit ARCHER 1] (35#10) 10;
    mkGameWave 3 [mkWaveUnit ARCHER 2; mkWaveUnit WIZARD 1] (35#10) 10;
    mkGameWave 4 [mkWaveUnit GIANT 1; mkWaveUnit WIZARD 2] (35#10) 10;
    mkGameWave 5 [mkWaveUnit KNIGHT 2; mkWaveUnit ARCHER 1; mkWaveUnit GIANT 1] 3 10;
    mkGameWave 6 [mkWaveUnit WIZARD 1; mkWaveUnit ARCHER 2; mkWaveUnit KNIGHT 1] 3 10;
    mkGameWave 7 [mkWaveUnit GIANT 1; mkWaveUnit WIZARD 1; mkWaveUnit ARCHER 2] (25#10) 10;
    mkGameWave 8 [mkWaveUnit KNIGHT 2; mkWaveUnit GIANT 1; mkWaveUnit WIZARD 1] (25#10) 10 ].

(** [Game::Game()]. *)
Definition Game_new : Game :=
  mkGame START_SCREEN (Tower_new true) (Tower_new false) [] [] true 0 5 5 0
    InitializeWaves 0%nat 0 0%nat 0 false 0 GAME_TIME_LIMIT false EmptyString 0%nat.

(** [Game::CreateAttackEffect]. *)
Definition CreateAttackEffect (from to : Vector2) (g : Game) : Game :=
  set_projectiles (projectiles g ++ [Projectile_new from to]) g.

(** [Game::CreateFreezeEffect]; [rnd i] holds the four values
    [GetRandomValue] returns in iteration [i]. *)
Definition CreateFreezeEffect (rnd : nat -> Vector2 * Vector2) (g : Game) : Game :=
  set_projectiles
    (projectiles g ++ map (fun i => Projectile_new (fst (rnd i)) (snd (rnd i))) (seq 0 20)) g.

(** [Game::SpawnUnit]. *)
Definition SpawnUnit (t : UnitType) (g : Game) : Game :=
  if negb (GameState_eqb (currentState g) PLAYING) then g else
  let stats := Game_GetUnitStats t in
  if playerElixir g >=? st_cost stats then
    let g1 := set_next_ptr (S (next_ptr g))
                (set_units (units g ++ [Unit_new (next_ptr g) t true]) g) in
    set_playerElixir (playerElixir g1 - st_cost stats) g1
  else g.

(** [Game::ActivateFreeze]. *)
Definition ActivateFreeze (rnd : nat -> Vector2 * Vector2) (g : Game) : Game :=
  if negb (GameState_eqb (currentState g) PLAYING) then g else
  if negb (freezeAvailable g) then g else
  let us := map (fun unit =>
              if negb (isPlayer unit) && isAlive unit
              then set_freezeTimer FREEZE_DURATION (set_isFrozen true unit)
              else unit) (units g) in
  CreateFreezeEffect rnd
    (set_freezeCooldown FREEZE_COOLDOWN (set_freezeAvailable false (set_units us g))).

(** [Game::Reset]. *)
Definition Reset (g : Game) : Game :=
  mkGame (currentState g) (Tower_new true) (Tower_new false) [] [] true 0 5 5 0
    (waveList g) 0%nat 0 0%nat 0 false 0 GAME_TIME_LIMIT false EmptyString (next_ptr g).

(** The difficulty loop of [Game::HandleWaveProgression] over the chain. *)
Definition speed_up (ws : list GameWave) : list GameWave :=
  map (fun wave => set_spawnRate (std_max 2 (spawnRate wave * (9#10))) wave) ws.

(** [Game::HandleWaveProgression]. *)
Definition HandleWaveProgression (deltaTime : Q) (g : Game) : Game :=
  match nth_error (waveList g) (currentWave g) with
  | None => g
  | Some cw =>
    if gameOver g then g else
    if isBetweenWaves g then
      let g1 := set_betweenWavesTimer (betweenWavesTimer g - deltaTime)%Q g in
      if Qle_bool (betweenWavesTimer g1) 0 then
        set_unitsSpawnedForCurrentType 0
          (set_currentUnitTypeIndex 0%nat
             (set_waveSpawnTimer 0 (set_isBetweenWaves false g1)))
      else g1
    else
      let g1 := set_waveSpawnTimer (waveSpawnTimer g + deltaTime)%Q g in
      match nth_error (waveUnits cw) (currentUnitTypeIndex g1) with
      | Some currentUnitType =>
        if Qle_bool (spawnRate cw) (waveSpawnTimer g1)
           && (unitsSpawnedForCurrentType g1 <? wu_count currentUnitType) then
          let g2 := set_next_ptr (S (next_ptr g1))
                      (set_units (units g1 ++ [Unit_new (next_ptr g1) (wu_type currentUnitType) false]) g1) in
          let g3 := set_unitsSpawnedForCurrentType (unitsSpawnedForCurrentType g2 + 1) g2 in
          let g4 := set_waveSpawnTimer 0 g3 in
          if unitsSpawnedForCurrentType g4 >=? wu_count currentUnitType then
            set_waveSpawnTimer 0
              (set_unitsSpawnedForCurrentType 0
                 (set_currentUnitTypeIndex (S (currentUnitTypeIndex g4)) g4))
          else g4
        else g1
      | None =>
        let g2 := set_betweenWavesTimer (waveCooldown cw) (set_isBetweenWaves true g1) in
        if Nat.ltb (S (currentWave g2)) (List.length (waveList g2)) then
          set_currentWave (S (currentWave g2)) g2
        else
          set_waveList (speed_up (waveList g2)) (set_currentWave 0%nat g2)
      end
  end.

(** The keys [IsKeyPressed] reports during one call of [Game::Update]. *)
Record Input := mkInput { KEY_ENTER : bool; KEY_R : bool }.

Section Controller.
Context {L : StdLib}.

(** [Tower::UpdateTargetQueue]: the queue is emptied, then every living
    opposing unit closer than [TOWER_RANGE] is pushed, in list order. *)
Definition UpdateTargetQueue (units : list Unit) (t : Tower) : Tower :=
  set_targetQueue
    (fold_left (fun q unit =>
       if isAlive unit && negb (Bool.eqb (isPlayer unit) (t_isPlayer t)) then
         let distance := CalculateDistance (t_position t) (position unit) in
         if Qlt_bool distance TOWER_RANGE
         then push_heap TowerTargetPriority q (unit, distance)
         else q
       else q) units []) t.

(** [Tower::Update]. *)
Definition Tower_Update (deltaTime : Q) (units : list Unit) (t : Tower) : Tower :=
  if negb (t_isAlive t) then t else
  UpdateTargetQueue units (set_t_attackTimer (t_attackTimer t + deltaTime)%Q t).

(** The lane-end checks of the unit loop for the unit at [p]. *)
Definition lane_end (p : Ptr) (g : Game) : option Game :=
  u <- deref (units g) p ;;
  if isPlayer u && Qle_bool (vx (t_position (enemyTower g)) - 60) (vx (position u)) then
    let g1 := set_enemyTower
                (set_t_currentHP (t_currentHP (enemyTower g) - damage u) (enemyTower g)) g in
    let g2 := CreateAttackEffect (position u) (t_position (enemyTower g1)) g1 in
    if t_currentHP (enemyTower g2) <=? 0 then
      Some (set_winner "Player Wins!"
              (set_gameOver true
                 (set_enemyTower
                    (set_t_isAlive false (set_t_currentHP 0 (enemyTower g2))) g2)))
    else Some g2
  else if negb (isPlayer u) && Qle_bool (vx (position u)) (vx (t_position (playerTower g)) + 60) then
    let g1 := set_playerTower
                (set_t_currentHP (t_currentHP (playerTower g) - damage u) (playerTower g)) g in
    let g2 := CreateAttackEffect (position u) (t_position (playerTower g1)) g1 in
    if t_currentHP (playerTower g2) <=? 0 then
      Some (set_winner "Enemy Wins!"
              (set_gameOver true
                 (set_playerTower
                    (set_t_isAlive false (set_t_currentHP 0 (playerTower g2))) g2)))
    else Some g2
  else Some g.

(** One turn of the unit loop of [Game::Update], the iterator at the node
    that holds the object at [p]. *)
Definition visit_unit (deltaTime : Q) (p : Ptr) (g : Game) : option Game :=
  u <- deref (units g) p ;;
  if isAlive u then
    us <- Unit_Update deltaTime p (units g) ;;
    lane_end p (set_units us g)
  else Some (set_units (erase p (units g)) g).

(** The unit loop over the nodes [its], from the iterator's position on. *)
Fixpoint units_loop (deltaTime : Q) (its : list Ptr) (g : Game) : option Game :=
  match its with
  | [] => Some g
  | p :: rest => g1 <- visit_unit deltaTime p g ;; units_loop deltaTime rest g1
  end.

(** One half of [Game::HandleTowerAttacks]: the tower [t] strikes its best
    target; the result is the tower and the game's units and projectiles. *)
Definition tower_strike (t : Tower) (g : Game) : option (Tower * Game) :=
  if CanAttack t then
    match GetBestTarget t with
    | Some p =>
        bestTarget <- deref (units g) p ;;
        let g1 := set_units
                    (assign (set_currentHP (currentHP bestTarget - t_damage t) bestTarget)
                       (units g)) g in
        let g2 := CreateAttackEffect (t_position t) (position bestTarget) g1 in
        Some (ResetAttackTimer t, g2)
    | None => Some (t, g)
    end
  else Some (t, g).

(** [Game::HandleTowerAttacks]. *)
Definition HandleTowerAttacks (g : Game) : option Game :=
  r1 <- tower_strike (playerTower g) g ;;
  let g1 := set_playerTower (fst r1) (snd r1) in
  r2 <- tower_strike (enemyTower g1) g1 ;;
  Some (set_enemyTower (fst r2) (snd r2)).

(** [Game::Update]. *)
Definition Game_Update (deltaTime : Q) (keys : Input) (g : Game) : option Game :=
  match currentState g with
  | START_SCREEN =>
      Some (if KEY_ENTER keys then set_currentState PLAYING g else g)
  | GAME_OVER =>
      Some (if KEY_R keys then set_currentState PLAYING (Reset g) else g)
  | PLAYING =>
    if gameOver g then Some (set_currentState GAME_OVER g) else
    let g1 :=
      if negb (freezeAvailable g) then
        let g' := set_freezeCooldown (freezeCooldown g - deltaTime)%Q g in
        if Qle_bool (freezeCooldown g') 0
        then set_freezeCooldown 0 (set_freezeAvailable true g')
        else g'
      else g in
    let g2 := set_gameTimer (gameTimer g1 - deltaTime)%Q g1 in
    let g3 :=
      if Qle_bool (gameTimer g2) 0
      then set_winner "Draw" (set_gameOver true (set_gameTimer 0 g2))
      else g2 in
    let g4 := set_elixirTimer (elixirTimer g3 + deltaTime)%Q g3 in
    let g5 :=
      if Qle_bool ELIXIR_RATE (elixirTimer g4) then
        let a := if playerElixir g4 <? MAX_ELIXIR
                 then set_playerElixir (playerElixir g4 + 1) g4 else g4 in
        let b := if enemyElixir a <? MAX_ELIXIR
                 then set_enemyElixir (enemyElixir a + 1) a else a in
        set_elixirTimer 0 b
      else g4 in
    let g6 := set_playerTower (Tower_Update deltaTime (units g5) (playerTower g5)) g5 in
    let g7 := set_enemyTower (Tower_Update deltaTime (units g6) (enemyTower g6)) g6 in
    g8 <- units_loop deltaTime (map uid (units g7)) g7 ;;
    let g9 := set_projectiles
                (filter active (map (Projectile_Update deltaTime) (projectiles g8))) g8 in
    g10 <- HandleTowerAttacks g9 ;;
    Some (HandleWaveProgression deltaTime g10)
  end.

End Controller.

(** ** main *)

(** What one pass of the frame loop of [main] reads from the window: the
    keys [IsKeyPressed] reports, the frame time, and the random values a
    freeze effect draws. *)
Record Frame := mkFrame {
  KEY_ONE : bool;
  KEY_TWO : bool;
  KEY_THREE : bool;
  KEY_FOUR : bool;
  KEY_F : bool;
  KEY_ESCAPE : bool;
  pressed : Input;
  GetFrameTime : Q;
  GetRandomValue : nat -> Vector2 * Vector2
}.

(** The input block of the frame loop. *)
Definition handle_input (f : Frame) (g : Game) : Game :=
  if GameState_eqb (currentState g) PLAYING then
    let g1 := if KEY_ONE f then SpawnUnit KNIGHT g else g in
    let g2 := if KEY_TWO f then SpawnUnit ARCHER g1 else g1 in
    let g3 := if KEY_THREE f then SpawnUnit GIANT g2 else g2 in
    let g4 := if KEY_FOUR f then SpawnUnit WIZARD g3 else g3 in
    if KEY_F f then ActivateFreeze (GetRandomValue f) g4 else g4
  else g.

Section Main.
Context {L : StdLib}.

(** The frame loop of [main] over the frames the window delivers before it
    is closed: input, then [Game::Update], unless Escape leaves the loop
    (drawing and music do not touch the game). *)
Fixpoint main_loop (frames : list Frame) (game : Game) : option Game :=
  match frames with
  | [] => Some game
  | f :: rest =>
      let game1 := handle_input f game in
      if KEY_ESCAPE f then Some game1 else
      game2 <- Game_Update (GetFrameTime f) (pressed f) game1 ;;
      main_loop rest game2
  end.

(** [main]: the loop from a fresh [Game]. *)
Definition main (frames : list Frame) : option Game := main_loop frames Game_new.

End Main.

(** ** A reference library

    An implementation of the interface to run the embedding on concrete
    states: insertion sort the way the library runs it on short ranges (a
    new element below the first goes to the front, otherwise it moves left
    past every element it is below), and a queue whose front is replaced by
    a pushed entry exactly when the front is below it, as in a binary heap. *)

(** [x] enters the reversed prefix [rp] from its right end. *)
Fixpoint linear_insert {A} (c : A -> A -> bool) (x : A) (rp : list A) : list A :=
  match rp with
  | [] => [x]
  | y :: rp' => if c x y then y :: linear_insert c x rp' else x :: rp
  end.

Definition insertion_step {A} (c : A -> A -> bool) (p : list A) (x : A) : list A :=
  match p with
  | [] => [x]
  | first :: _ => if c x first then x :: p else rev (linear_insert c x (rev p))
  end.

Definition insertion_sort {A} (c : A -> A -> bool) (l : list A) : list A :=
  fold_left (insertion_step c) l [].

Definition front_push {A} (c : A -> A -> bool) (q : list A) (x : A) : list A :=
  match q with
  | [] => [x]
  | t :: r => if c t x then x :: t :: r else t :: r ++ [x]
  end.

(** The reference library as an instance of the interface. *)
#[export] Instance reference_lib : StdLib :=
  {| std_sort := @insertion_sort; push_heap := @front_push |}.

(** * Vocabulary of the properties *)

(** The band of the comparators: the two distances differ by less than 10. *)
Definition in_band (d1 d2 : Q) : Prop := (Qabs (d1 - d2) < 10)%Q.

(** [(t, dt)] is a candidate no other candidate is ranked before: inside the
    band a candidate's health is not lower, outside it lies no nearer. *)
Definition best_of (pts : list (Unit * Q)) (t : Unit) (dt : Q) : Prop :=
  In (t, dt) pts /\
  forall c dc, In (c, dc) pts ->
    (in_band dc dt -> currentHP t <= currentHP c) /\
    (~ in_band dc dt -> (dt <= dc)%Q).

(** The entries [Tower::UpdateTargetQueue] pushes, in push order. *)
Definition towerCandidates (t : Tower) (units : list Unit) : list (Unit * Q) :=
  flat_map (fun unit =>
    if isAlive unit && negb (Bool.eqb (isPlayer unit) (t_isPlayer t)) then
      let distance := CalculateDistance (t_position t) (position unit) in
      if Qlt_bool distance TOWER_RANGE then [(unit, distance)] else []
    else []) units.

(** The claim for a unit: its new target is a best candidate. *)
Definition unit_choice_is_best {L : StdLib} (self : Unit) (us : list Unit) : Prop :=
  exists t dt,
    target (FindTargetWithPriority self us) = Some (uid t) /\
    best_of (potentialTargets self us) t dt.

(** The claim for a tower: the top of its queue is a best candidate. *)
Definition tower_choice_is_best {L : StdLib} (tw : Tower) (us : list Unit) : Prop :=
  exists t dt,
    hd_error (targetQueue (UpdateTargetQueue us tw)) = Some (t, dt) /\
    best_of (towerCandidates tw us) t dt.

(** A decision procedure for [strict_weak_on], for concrete candidates. *)
Definition strict_weak_onb {A} (c : A -> A -> bool) (l : list A) : bool :=
  forallb (fun a => negb (c a a)) l &&
  forallb (fun x => forallb (fun y => forallb (fun z =>
    implb (c x y && c y z) (c x z) &&
    implb (negb (c x y) && negb (c y z)) (negb (c x z))) l) l) l.

(** What [ActivateFreeze] does to one unit. *)
Definition frozen_from (u u' : Unit) : Prop :=
  (isPlayer u = false -> isAlive u = true ->
     isFrozen u' = true /\ freezeTimer u' = FREEZE_DURATION /\
     u' = set_freezeTimer FREEZE_DURATION (set_isFrozen true u)) /\
  (isPlayer u = true -> u' = u) /\
  (isAlive u = false -> u' = u).

(** The frozen branch of [Unit::Update] on the unit itself. *)
Definition frozen_tick (dt : Q) (u : Unit) : Unit :=
  let u1 := set_freezeTimer (freezeTimer u - dt)%Q u in
  if Qle_bool (freezeTimer u1) 0 then set_isFrozen false u1 else u1.

(** The waypoints of a fresh player unit: 150, 200, ..., 1100 on the lane. *)
Definition default_player_path : list Vector2 :=
  map (fun k => lane_point (150 + 50 * Z.of_nat k)) (seq 0 20).

(** The new interval of one wave when the chain wraps. *)
Definition decay (r : Q) : Q := std_max 2 (r * (9#10)).

(** The successor of a position in the chain: the next node, or the head
    after the last one. *)
Definition successor (ws : list GameWave) (i : nat) : nat :=
  if Nat.ltb (S i) (List.length ws) then S i else 0%nat.

(** C8 as stated: the tick on which the countdown reaches zero resets the
    counters and moves the current-wave pointer to its successor. *)
Definition pointer_advances_at_expiry (dt : Q) (g : Game) : Prop :=
  gameOver g = false -> isBetweenWaves g = true ->
  (betweenWavesTimer g - dt <= 0)%Q ->
  isBetweenWaves (HandleWaveProgression dt g) = false /\
  currentWave (HandleWaveProgression dt g) = successor (waveList g) (currentWave g).

(** The state a fresh match starts in: the constructed game, being played. *)
Definition initial_playing : Game := set_currentState PLAYING Game_new.

(** C9 as stated: pressing R on the game-over screen yields the initial
    state (up to the address the next unit will get). *)
Definition restart_restores {L : StdLib} (g : Game) : Prop :=
  forall (dt : Q) (keys : Input),
    currentState g = GAME_OVER -> KEY_R keys = true ->
    exists g', Game_Update dt keys g = Some g' /\
               set_next_ptr 0%nat g' = initial_playing.

(** The tower [tw'] is [tw] after a lane-end hit of [dmg]. *)
Definition hit_by (dmg : Z) (tw tw' : Tower) : Prop :=
  t_currentHP tw' = Z.max 0 (t_currentHP tw - dmg) /\
  t_isAlive tw' = (if t_currentHP tw - dmg <=? 0 then false else t_isAlive tw) /\
  t_attackTimer tw' = t_attackTimer tw /\ targetQueue tw' = targetQueue tw.

Definition hp_of (g : Game) (p : Ptr) : option Z :=
  option_map currentHP (deref (units g) p).

Definition alive_of (g : Game) (p : Ptr) : option bool :=
  option_map isAlive (deref (units g) p).

(** The part of the state that only the clocks, the commands and the wave
    sequencer write. *)
Definition fixed (g : Game) :=
  (currentState g, freezeAvailable g, freezeCooldown g, playerElixir g,
   enemyElixir g, elixirTimer g, gameTimer g, next_ptr g,
   (waveList g, currentWave g, waveSpawnTimer g, currentUnitTypeIndex g,
    unitsSpawnedForCurrentType g, isBetweenWaves g, betweenWavesTimer g),
   (targetQueue (playerTower g), t_position (playerTower g), t_isPlayer (playerTower g),
    t_damage (playerTower g), t_maxHP (playerTower g)),
   (targetQueue (enemyTower g), t_position (enemyTower g), t_isPlayer (enemyTower g),
    t_damage (enemyTower g), t_maxHP (enemyTower g))).

(** The clocks at the head of [Game::Update]: freeze cooldown, match
    countdown and elixir. *)
Definition clocks (deltaTime : Q) (g : Game) : Game :=
  let g1 :=
    if negb (freezeAvailable g) then
      let g' := set_freezeCooldown (freezeCooldown g - deltaTime)%Q g in
      if Qle_bool (freezeCooldown g') 0
      then set_freezeCooldown 0 (set_freezeAvailable true g')
      else g'
    else g in
  let g2 := set_gameTimer (gameTimer g1 - deltaTime)%Q g1 in
  let g3 :=
    if Qle_bool (gameTimer g2) 0
    then set_winner "Draw" (set_gameOver true (set_gameTimer 0 g2))
    else g2 in
  let g4 := set_elixirTimer (elixirTimer g3 + deltaTime)%Q g3 in
  if Qle_bool ELIXIR_RATE (elixirTimer g4) then
    let a := if playerElixir g4 <? MAX_ELIXIR
             then set_playerElixir (playerElixir g4 + 1) g4 else g4 in
    let b := if enemyElixir a <? MAX_ELIXIR
             then set_enemyElixir (enemyElixir a + 1) a else a in
    set_elixirTimer 0 b
  else g4.

(** [u'] is a later state of the unit [u]: same object, same maximum and
    damage, health not higher, not revived, and marked dead only at
    non-positive health. *)
Definition ages (u u' : Unit) : Prop :=
  uid u' = uid u /\ maxHP u' = maxHP u /\ damage u' = damage u /\
  currentHP u' <= currentHP u /\
  (isAlive u = false -> isAlive u' = false) /\
  (isAlive u' = false -> isAlive u = false \/ currentHP u' <= 0).

(** Every unit of [us'] is a later state of a unit of [us]. *)
Definition aged (us us' : list Unit) : Prop :=
  forall u', In u' us' -> exists u, In u us /\ ages u u'.

Definition nonneg_damage (us : list Unit) : Prop :=
  forall u, In u us -> 0 <= damage u.


(** A unit within its maximum health, dead only at non-positive health. *)
Definition healthy (u : Unit) : Prop :=
  currentHP u <= maxHP u /\ (isAlive u = false -> currentHP u <= 0).

(** What the wave sequencer leaves alone. *)
Definition unsequenced (g : Game) :=
  (currentState g, playerTower g, enemyTower g, projectiles g,
   freezeAvailable g, freezeCooldown g, playerElixir g, enemyElixir g,
   elixirTimer g, gameTimer g, gameOver g, winner g).

(** A tower is alive with positive health within its maximum, or fallen
    with health 0. *)
Definition tower_ok (tw : Tower) : Prop :=
  (t_isAlive tw = true /\ 0 < t_currentHP tw <= t_maxHP tw) \/
  (t_isAlive tw = false /\ t_currentHP tw = 0).

(** The outcome agrees with the towers: while the match is on no winner is
    named and both towers stand; a named winner has felled the other tower. *)
Definition outcome_ok (g : Game) : Prop :=
  tower_ok (playerTower g) /\ tower_ok (enemyTower g) /\
  (gameOver g = false ->
     winner g = EmptyString /\
     t_isAlive (playerTower g) = true /\ t_isAlive (enemyTower g) = true) /\
  (gameOver g = true ->
     winner g = "Draw"%string \/
     (winner g = "Player Wins!"%string /\ t_isAlive (enemyTower g) = false) \/
     (winner g = "Enemy Wins!"%string /\ t_isAlive (playerTower g) = false)).

(** Elixir of both sides within the bar. *)
Definition elixir_ok (g : Game) : Prop :=
  0 <= playerElixir g <= MAX_ELIXIR /\ 0 <= enemyElixir g <= MAX_ELIXIR.

(** A projectile in flight. *)
Definition in_flight (p : Projectile) : Prop :=
  active p = true /\ (progress p < 1)%Q.

(** The fields that only the clocks, the commands and the wave sequencer
    write, the targeting queues apart. *)
Definition fixed_scalars_of (g : Game) :=
  (currentState g, freezeAvailable g, freezeCooldown g, playerElixir g,
   enemyElixir g, elixirTimer g, gameTimer g, next_ptr g,
   (waveList g, currentWave g, waveSpawnTimer g, currentUnitTypeIndex g,
    unitsSpawnedForCurrentType g, isBetweenWaves g, betweenWavesTimer g)).

(** The game after the clocks and the two tower updates of a tick. *)
Definition retargeted {L : StdLib} (dt : Q) (g : Game) : Game :=
  set_enemyTower (Tower_Update dt (units g) (enemyTower g))
    (set_playerTower (Tower_Update dt (units g) (playerTower g)) (clocks dt g)).

(** The units of a wave entry list. *)
Definition entry_units (es : list WaveUnit) : Z :=
  fold_right (fun e a => wu_count e + a) 0 es.

(** The least time the sequencer spends on a wave: one spawn interval per
    unit, then the cooldown. *)
Definition wave_time (w : GameWave) : Q :=
  (inject_Z (entry_units (waveUnits w)) * spawnRate w + waveCooldown w)%Q.

(** The least time before the sequencer starts on the wave at position [i]. *)
Definition time_before (ws : list GameWave) (i : nat) : Q :=
  fold_right (fun w a => (wave_time w + a)%Q) 0%Q (firstn i ws).

(** The least time the sequencer has run to be in the state it is in:
    in a cooldown it has finished the waves before the current one but for
    the rest of the countdown; while spawning it has finished the waves
    before, waited one interval for each unit of the wave so far, and its
    timer. *)
Definition time_needed (g : Game) : Q :=
  if isBetweenWaves g then
    (time_before (waveList g) (currentWave g) - betweenWavesTimer g)%Q
  else
    match nth_error (waveList g) (currentWave g) with
    | Some cw =>
        (time_before (waveList g) (currentWave g)
         + (inject_Z (entry_units (firstn (currentUnitTypeIndex g) (waveUnits cw)))
            + inject_Z (unitsSpawnedForCurrentType g)) * spawnRate cw
         + waveSpawnTimer g)%Q
    | None => 0%Q
    end.

(** The sequencer has not outrun the match clock, and the chain is the one
    the program starts with. *)
Definition paced (g : Game) : Prop :=
  waveList g = InitializeWaves /\ (currentWave g < 8)%nat /\
  (0 <= waveSpawnTimer g)%Q /\ 0 <= unitsSpawnedForCurrentType g /\
  (0 <= gameTimer g)%Q /\
  (time_needed g <= GAME_TIME_LIMIT - gameTimer g)%Q.

(** What the player's commands leave alone. *)
Definition uncommanded (g : Game) :=
  (currentState g, playerTower g, enemyTower g, enemyElixir g, elixirTimer g,
   (waveList g, currentWave g, waveSpawnTimer g, currentUnitTypeIndex g,
    unitsSpawnedForCurrentType g, isBetweenWaves g, betweenWavesTimer g),
   gameTimer g, gameOver g, winner g).

(** The towers deal non-negative damage. *)
Definition towers_armed (g : Game) : Prop :=
  0 <= t_damage (playerTower g) /\ 0 <= t_damage (enemyTower g).

(** The frames carry non-negative frame times. *)
Definition forward (frames : list Frame) : Prop :=
  Forall (fun f => (0 <= GetFrameTime f)%Q) frames.

(** Every unit of [us'] is a later state of a unit of [us] or of a unit
    fresh from its constructor. *)
Definition grown (us us' : list Unit) : Prop :=
  forall u', In u' us' ->
    (exists u, In u us /\ ages u u') \/
    (exists p t player, ages (Unit_new p t player) u').

(** The units are within their health, deal non-negative damage, and so do
    the towers. *)
Definition units_sound (g : Game) : Prop :=
  Forall healthy (units g) /\ nonneg_damage (units g) /\ towers_armed g.

(** C10 as stated, for the player's tower: on a tick of a match being
    played every living enemy unit within 60 of the tower takes its damage
    off the tower's health. *)
Definition damage_on_every_tick {L : StdLib} (dt : Q) (keys : Input) (g : Game) : Prop :=
  currentState g = PLAYING -> gameOver g = false ->
  forall u, In u (units g) -> isAlive u = true -> isPlayer u = false ->
    (vx (position u) <= vx (t_position (playerTower g)) + 60)%Q ->
    exists g', Game_Update dt keys g = Some g' /\
      t_currentHP (playerTower g') <= Z.max 0 (t_currentHP (playerTower g) - damage u).

(** A unit on the lane: its position, its current waypoint and the
    waypoints of its path have the height of the lane. *)
Definition on_lane (u : Unit) : Prop :=
  (vy (position u) == inject_Z LANE_Y)%Q /\
  (vy (currentTargetPos u) == inject_Z LANE_Y)%Q /\
  Forall (fun w => (vy w == inject_Z LANE_Y)%Q) (path u).

(** A unit whose figures are those of its type in the table of
    [Unit::getUnitStats]. *)
Definition by_the_table (u : Unit) : Prop :=
  let stats := Unit_getUnitStats (type u) in
  maxHP u = st_hp stats /\ damage u = st_damage stats /\ speed u = st_speed stats /\
  attackRate u = st_attackRate stats /\ attackRange u = st_range stats /\
  isRanged u = st_isRanged stats /\ size u = st_size stats.

(** * Scenarios *)

(** Test pieces: a unit moved to lane coordinate [x] with health [hp]. *)
Definition at_x (x hp : Z) (u : Unit) : Unit :=
  set_currentHP hp (set_position (lane_point x) u).

(** A match in progress holding the units [us]. *)
Definition playing (us : list Unit) : Game :=
  set_next_ptr (List.length us) (set_units us (set_currentState PLAYING Game_new)).

Definition no_keys : Input := mkInput false false.

(** No random effect positions are needed to follow the units. *)
Definition no_rnd : nat -> Vector2 * Vector2 :=
  fun _ => (lane_point 0, lane_point 0).

(** A player archer at 200 facing two knights at distances 20 and 28
    (170 and 178 from the player tower). *)
Definition duel_me : Unit := at_x 200 150 (Unit_new 0%nat ARCHER true).
Definition duel_units : list Unit :=
  [duel_me; at_x 220 300 (Unit_new 1%nat KNIGHT false); at_x 228 200 (Unit_new 2%nat KNIGHT false)].

(** Three knights at distances 20, 28 and 36 from a player archer, with
    health 300, 200 and 100: each is ranked before another one. *)
Definition cyc_me : Unit := at_x 500 150 (Unit_new 0%nat ARCHER true).
Definition cyc_A : Unit := at_x 520 300 (Unit_new 1%nat KNIGHT false).
Definition cyc_B : Unit := at_x 528 200 (Unit_new 2%nat KNIGHT false).
Definition cyc_C : Unit := at_x 536 100 (Unit_new 3%nat KNIGHT false).
Definition cyc_units : list Unit := [cyc_me; cyc_A; cyc_B; cyc_C].

(** A player wizard about to strike the knight at 520; an archer with 30
    health stands 20 units behind the knight. *)
Definition splash_game : Game :=
  playing [ set_attackTimer (249#100)
              (set_target (Some 1%nat) (at_x 500 180 (Unit_new 0%nat WIZARD true)));
            at_x 520 300 (Unit_new 1%nat KNIGHT false);
            at_x 540 30 (Unit_new 2%nat ARCHER false) ].

(** An enemy knight with 40 health inside the player tower's range, the
    tower one tick from its next shot. *)
Definition shot_game : Game :=
  set_playerTower (set_t_attackTimer (99#100) (Tower_new true))
    (playing [ at_x 300 40 (Unit_new 0%nat KNIGHT false) ]).

(** An enemy knight [0] with 50 health in the player tower's range, ahead
    in the list of the player knight [1] that is about to kill it; the tower
    is one tick from its next shot. *)
Definition siege_game : Game :=
  set_playerTower (set_t_attackTimer (99#100) (Tower_new true))
    (playing [ at_x 300 50 (Unit_new 0%nat KNIGHT false);
               set_attackTimer (119#100)
                 (set_target (Some 0%nat) (at_x 270 300 (Unit_new 1%nat KNIGHT true))) ]).

(** The state of that tick when the unit loop is over. *)
Definition siege_after_units : option Game :=
  let g := set_playerTower
             (@Tower_Update reference_lib (1#60) (units siege_game) (playerTower siege_game))
             siege_game in
  @units_loop reference_lib (1#60) (map uid (units g)) g.

(** A player knight at 500 holds the enemy knight at 530 as its target; a
    weaker enemy archer has come up to 510. *)
Definition sticky_units : list Unit :=
  [ set_target (Some 1%nat) (at_x 500 300 (Unit_new 0%nat KNIGHT true));
    at_x 530 300 (Unit_new 1%nat KNIGHT false);
    at_x 510 20 (Unit_new 2%nat ARCHER false) ].

(** A match with a player knight, an enemy knight in striking distance of
    it, and an enemy archer at the player's end of the lane. *)
Definition freeze_game : Game :=
  playing [ at_x 500 300 (Unit_new 0%nat KNIGHT true);
            at_x 530 300 (Unit_new 1%nat KNIGHT false);
            at_x 100 150 (Unit_new 2%nat ARCHER false) ].

(** The match of [freeze_game] just after the freeze: the frozen archer at
    100 is within 60 units of the player tower at 50. *)
Definition frozen_game : Game := ActivateFreeze no_rnd freeze_game.

Definition frozen_archer : Unit :=
  set_freezeTimer FREEZE_DURATION (set_isFrozen true (at_x 100 150 (Unit_new 2%nat ARCHER false))).

(** Wave 8 has spawned its four units; the tick wraps the chain. *)
Definition wave8_done : Game :=
  set_currentUnitTypeIndex 3%nat (set_currentWave 7%nat (playing [])).

(** Wave 1 has spawned its three units. *)
Definition wave1_done : Game := set_currentUnitTypeIndex 2%nat (playing []).

(** The cooldown that follows, as the sequencer enters it. *)
Definition wave1_cooldown : Game := HandleWaveProgression (1#60) wave1_done.

(** A match that ended after the chain had wrapped once. *)
Definition over_after_wrap : Game :=
  set_currentState GAME_OVER
    (set_gameOver true (HandleWaveProgression (1#60) wave8_done)).

(** A frame with no key pressed. *)
Definition idle (dt : Q) : Frame :=
  mkFrame false false false false false false no_keys dt no_rnd.

(** Enter on the start screen; then a knight and the freeze; then a frame of
    four seconds, in which wave 1 sends its first knight, and one of half a
    second. *)
Definition demo_frames : list Frame :=
  [ mkFrame false false false false false false (mkInput true false) (1#60) no_rnd;
    mkFrame true false false false true false no_keys (1#60) no_rnd;
    idle 4; idle (1#2) ].

(** Enter; a knight, and a frame that runs the countdown out; the frame
    that shows the game-over screen. *)
Definition over_frames : list Frame :=
  [ mkFrame false false false false false false (mkInput true false) (1#60) no_rnd;
    mkFrame true false false false false false no_keys 120 no_rnd;
    idle (1#60) ].

(** A player archer about to shoot its target, a frozen enemy knight with
    30 health that stands 55 from the player tower; the archer comes first
    in the list. *)
Definition ambush_archer : Unit :=
  set_attackTimer (149#100) (set_target (Some 1%nat) (at_x 200 150 (Unit_new 0%nat ARCHER true))).

Definition ambush_knight : Unit :=
  set_freezeTimer FREEZE_DURATION (set_isFrozen true (at_x 105 30 (Unit_new 1%nat KNIGHT false))).

Definition ambush_game : Game := playing [ambush_archer; ambush_knight].

(** The same two units, the knight first in the list. *)
Definition ambush_game_knight_first : Game := playing [ambush_knight; ambush_archer].

(** * Properties *)

(** ** The reference library meets the interface *)

Section ReferenceLibrary.
Context {A : Type} (c : A -> A -> bool).

Lemma linear_insert_perm (x : A) (rp : list A) :
  Permutation (linear_insert c x rp) (x :: rp).
Proof.
  induction rp as [|y rp IH]; simpl; [reflexivity|].
  destruct (c x y); [|reflexivity].
  rewrite IH. apply perm_swap.
Qed.

Lemma insertion_step_perm (p : list A) (x : A) :
  Permutation (insertion_step c p x) (x :: p).
Proof.
  destruct p as [|f p]; simpl; [reflexivity|].
  destruct (c x f); [reflexivity|].
  rewrite <- Permutation_rev, linear_insert_perm.
  constructor. change (Permutation (rev (f :: p)) (f :: p)).
  symmetry. apply Permutation_rev.
Qed.

Lemma insertion_sort_perm_from (l p : list A) :
  Permutation (fold_left (insertion_step c) l p) (p ++ l).
Proof.
  revert p. induction l as [|x l IH]; intros p; simpl.
  - now rewrite app_nil_r.
  - rewrite IH, insertion_step_perm. apply Permutation_middle.
Qed.

Lemma strict_weak_on_incl (l l' : list A) :
  incl l' l -> strict_weak_on c l -> strict_weak_on c l'.
Proof.
  intros Hi (Hirr & Htr & Hneg). repeat split; intros.
  - apply Hirr; auto.
  - eapply (Htr x y z); eauto.
  - eapply (Hneg x y z); eauto.
Qed.

Lemma strict_weak_on_asym (l : list A) (x y : A) :
  strict_weak_on c l -> In x l -> In y l -> c x y = true -> c y x = false.
Proof.
  intros (Hirr & Htr & _) Hx Hy Hxy.
  destruct (c y x) eqn:Hyx; [|reflexivity].
  rewrite <- (Hirr x Hx). symmetry. eapply (Htr x y x); eauto.
Qed.

Lemma linear_insert_sorted (x : A) (rp : list A) :
  strict_weak_on c (x :: rp) ->
  StronglySorted (fun a b => c a b = false) rp ->
  StronglySorted (fun a b => c a b = false) (linear_insert c x rp).
Proof.
  induction rp as [|y rp IH]; intros Hsw Hs; simpl.
  - repeat constructor.
  - inversion Hs as [|? ? Hs' Hall]; subst.
    destruct (c x y) eqn:Hxy.
    + constructor.
      * apply IH; [|assumption].
        eapply strict_weak_on_incl; [|exact Hsw].
        intros z [Hz|Hz]; [left; exact Hz | right; right; exact Hz].
      * assert (Hp : Permutation (linear_insert c x rp) (x :: rp))
          by apply linear_insert_perm.
        rewrite Forall_forall in *. intros z Hz.
        apply (Permutation_in _ Hp) in Hz. destruct Hz as [<-|Hz]; [|auto].
        eapply strict_weak_on_asym; eauto; simpl; auto.
    + constructor; [exact Hs|].
      constructor; [exact Hxy|].
      rewrite Forall_forall in *. intros z Hz.
      destruct Hsw as (_ & _ & Hneg).
      apply (Hneg x y z); simpl; auto.
Qed.

Lemma sorted_snoc (R : A -> A -> Prop) (l : list A) (a : A) :
  StronglySorted R l -> Forall (fun b => R b a) l -> StronglySorted R (l ++ [a]).
Proof.
  induction 1 as [|b l Hs IH Hall]; intros Hf; simpl.
  - repeat constructor.
  - inversion Hf; subst. constructor; [auto|].
    apply Forall_app. split; [exact Hall|]. constructor; [assumption|constructor].
Qed.

Lemma sorted_rev (R : A -> A -> Prop) (l : list A) :
  StronglySorted R l -> StronglySorted (fun a b => R b a) (rev l).
Proof.
  induction 1 as [|a l Hs IH Hall]; simpl; [constructor|].
  apply sorted_snoc; [exact IH|].
  rewrite Forall_forall in *. intros b Hb. apply Hall. now apply in_rev.
Qed.

Lemma insertion_step_sorted (p : list A) (x : A) :
  strict_weak_on c (x :: p) ->
  StronglySorted (fun a b => c b a = false) p ->
  StronglySorted (fun a b => c b a = false) (insertion_step c p x).
Proof.
  intros Hsw Hs. destruct p as [|f p]; cbn [insertion_step]; [repeat constructor|].
  destruct (c x f) eqn:Hxf.
  - constructor; [exact Hs|].
    inversion Hs as [|? ? _ Hall]; subst.
    constructor.
    + eapply strict_weak_on_asym; eauto; simpl; auto.
    + rewrite Forall_forall in *. intros z Hz.
      destruct (c z x) eqn:Hzx; [|reflexivity].
      destruct Hsw as (_ & Htr & _).
      rewrite <- (Hall z Hz). symmetry.
      apply (Htr z x f); simpl; auto.
  - apply (sorted_rev (fun a b => c a b = false)).
    apply linear_insert_sorted.
    + eapply strict_weak_on_incl; [|exact Hsw].
      intros z [Hz|Hz]; [left; exact Hz|right]. now apply (in_rev (f :: p)).
    + apply (sorted_rev (fun a b => c b a = false)). exact Hs.
Qed.

Lemma insertion_sort_sorted_from (l p : list A) :
  strict_weak_on c (p ++ l) ->
  StronglySorted (fun a b => c b a = false) p ->
  StronglySorted (fun a b => c b a = false) (fold_left (insertion_step c) l p).
Proof.
  revert p. induction l as [|x l IH]; intros p Hsw Hs; simpl; [exact Hs|].
  apply IH.
  - eapply strict_weak_on_incl; [|exact Hsw].
    intros z Hz. apply in_app_or in Hz. destruct Hz as [Hz|Hz].
    + apply (Permutation_in _ (insertion_step_perm p x)) in Hz.
      apply in_or_app. destruct Hz as [<-|Hz]; [right; left; reflexivity|left; exact Hz].
    + apply in_or_app. right. right. exact Hz.
  - apply insertion_step_sorted; [|exact Hs].
    eapply strict_weak_on_incl; [|exact Hsw].
    intros z [<-|Hz]; apply in_or_app; [right; left; reflexivity|left; exact Hz].
Qed.

Lemma front_push_perm (q : list A) (x : A) : Permutation (front_push c q x) (x :: q).
Proof.
  destruct q as [|t r]; simpl; [reflexivity|].
  destruct (c t x); [reflexivity|].
  rewrite perm_swap. constructor. symmetry. apply Permutation_cons_append.
Qed.

Lemma front_push_top (q : list A) (x : A) :
  strict_weak_on c (x :: q) -> is_top c q -> is_top c (front_push c q x).
Proof.
  intros Hsw Ht. destruct q as [|t r]; simpl in *; [constructor|].
  destruct (c t x) eqn:Htx; simpl.
  - constructor.
    + eapply strict_weak_on_asym; eauto; simpl; auto.
    + rewrite Forall_forall in *. intros z Hz.
      destruct (c x z) eqn:Hxz; [|reflexivity].
      destruct Hsw as (_ & Htr & _).
      rewrite <- (Ht z Hz). symmetry. apply (Htr t x z); simpl; auto.
  - apply Forall_app. split; [exact Ht|]. constructor; [exact Htx|constructor].
Qed.

End ReferenceLibrary.

#[export] Instance reference_laws : StdLibLaws reference_lib.
Proof.
  split.
  - intros A c l. apply (insertion_sort_perm_from c l []).
  - intros A c l Hsw. apply insertion_sort_sorted_from; [exact Hsw|constructor].
  - intros A c q x. apply front_push_perm.
  - intros A c q x. apply front_push_top.
Qed.

(** ** Comparisons on [Q] *)

Lemma Qlt_bool_iff (a b : Q) : Qlt_bool a b = true <-> (a < b)%Q.
Proof.
  unfold Qlt_bool. rewrite negb_true_iff.
  split; intros H.
  - apply Qnot_le_lt. intros Hle. apply Qle_bool_iff in Hle. congruence.
  - destruct (Qle_bool b a) eqn:E; [|reflexivity].
    apply Qle_bool_iff in E. exfalso. exact (Qlt_not_le _ _ H E).
Qed.

Lemma Qlt_bool_false_iff (a b : Q) : Qlt_bool a b = false <-> (b <= a)%Q.
Proof.
  unfold Qlt_bool. rewrite negb_false_iff. apply Qle_bool_iff.
Qed.

Lemma Qle_bool_false_iff (a b : Q) : Qle_bool a b = false <-> (b < a)%Q.
Proof.
  rewrite <- Qlt_bool_iff. unfold Qlt_bool.
  destruct (Qle_bool a b); simpl; split; congruence.
Qed.

Lemma Qabs_minus_swap (a b : Q) : (Qabs (a - b) == Qabs (b - a))%Q.
Proof.
  rewrite <- (Qabs_opp (a - b)). apply Qabs_wd. ring.
Qed.

(** ** The unit store *)

Lemma deref_uid (us : list Unit) (p : Ptr) (u : Unit) :
  deref us p = Some u -> uid u = p.
Proof.
  unfold deref. intros H. apply find_some in H. destruct H as [_ H].
  now apply Nat.eqb_eq.
Qed.

Lemma deref_In (us : list Unit) (p : Ptr) (u : Unit) :
  deref us p = Some u -> In u us.
Proof.
  unfold deref. intros H. now apply find_some in H.
Qed.

(** Reading after a write that keeps every address in place. *)
Lemma deref_map (f : Unit -> Unit) (us : list Unit) (p : Ptr) :
  (forall v, uid (f v) = uid v) ->
  deref (map f us) p = option_map f (deref us p).
Proof.
  intros Hf. unfold deref. induction us as [|v us IH]; simpl; [reflexivity|].
  rewrite Hf. destruct (Nat.eqb (uid v) p); [reflexivity|exact IH].
Qed.

Lemma deref_assign (u : Unit) (us : list Unit) (p : Ptr) :
  deref (assign u us) p =
  option_map (fun v => if Nat.eqb (uid v) (uid u) then u else v) (deref us p).
Proof.
  unfold assign. apply deref_map.
  intros v. destruct (Nat.eqb (uid v) (uid u)) eqn:E; [|reflexivity].
  symmetry. now apply Nat.eqb_eq.
Qed.

Lemma deref_assign_same (u v : Unit) (us : list Unit) :
  deref us (uid u) = Some v -> deref (assign u us) (uid u) = Some u.
Proof.
  intros H. rewrite deref_assign, H. simpl.
  apply deref_uid in H. rewrite H, Nat.eqb_refl. reflexivity.
Qed.

Lemma deref_assign_other (u : Unit) (us : list Unit) (p : Ptr) :
  p <> uid u -> deref (assign u us) p = deref us p.
Proof.
  intros Hp. rewrite deref_assign.
  destruct (deref us p) as [v|] eqn:E; [|reflexivity]. simpl.
  apply deref_uid in E. subst p.
  apply Nat.eqb_neq in Hp. rewrite Hp. reflexivity.
Qed.

Lemma deref_splash (me t : Unit) (tp : Ptr) (us : list Unit) (p : Ptr) :
  deref (splash me t tp us) p =
  option_map (fun unit =>
    if isAlive unit && negb (Nat.eqb (uid unit) tp)
       && negb (Bool.eqb (isPlayer unit) (isPlayer me)) then
      if Qlt_bool (CalculateDistance (position unit) (position t)) 60
      then set_currentHP (currentHP unit - Z.quot (damage me) 2) unit
      else unit
    else unit) (deref us p).
Proof.
  unfold splash. apply deref_map. intros v.
  destruct (_ && _); [|reflexivity]. destruct (Qlt_bool _ _); reflexivity.
Qed.

(** ** Targeting (C2) *)

Lemma potentialTargets_In (self : Unit) (us : list Unit) (c : Unit) (d : Q) :
  In (c, d) (potentialTargets self us) <->
  In c us /\ isAlive c = true /\ isPlayer c <> isPlayer self /\
  d = CalculateDistance (position self) (position c) /\
  (d <= attackRange self * (15#10))%Q.
Proof.
  unfold potentialTargets. rewrite in_flat_map. split.
  - intros (u & Hu & Hin).
    destruct (isAlive u) eqn:Ha; simpl in Hin; [|contradiction].
    destruct (Bool.eqb (isPlayer u) (isPlayer self)) eqn:Hs; simpl in Hin; [contradiction|].
    destruct (Qle_bool _ _) eqn:Hd in Hin; simpl in Hin; [|contradiction].
    destruct Hin as [Hin|[]]. inversion Hin; subst.
    repeat split; auto.
    + intros E. apply eqb_false_iff in Hs. contradiction.
    + now apply Qle_bool_iff.
  - intros (Hu & Ha & Hs & -> & Hd). exists c. split; [exact Hu|].
    rewrite Ha. apply eqb_false_iff in Hs. rewrite Hs. simpl.
    apply Qle_bool_iff in Hd. rewrite Hd. left. reflexivity.
Qed.

Lemma towerCandidates_In (tw : Tower) (us : list Unit) (c : Unit) (d : Q) :
  In (c, d) (towerCandidates tw us) <->
  In c us /\ isAlive c = true /\ isPlayer c <> t_isPlayer tw /\
  d = CalculateDistance (t_position tw) (position c) /\
  (d < TOWER_RANGE)%Q.
Proof.
  unfold towerCandidates. rewrite in_flat_map. split.
  - intros (u & Hu & Hin).
    destruct (isAlive u) eqn:Ha; simpl in Hin; [|contradiction].
    destruct (Bool.eqb (isPlayer u) (t_isPlayer tw)) eqn:Hs; simpl in Hin; [contradiction|].
    destruct (Qlt_bool _ _) eqn:Hd in Hin; simpl in Hin; [|contradiction].
    destruct Hin as [Hin|[]]. inversion Hin; subst.
    repeat split; auto.
    + intros E. apply eqb_false_iff in Hs. contradiction.
    + now apply Qlt_bool_iff.
  - intros (Hu & Ha & Hs & -> & Hd). exists c. split; [exact Hu|].
    rewrite Ha. apply eqb_false_iff in Hs. rewrite Hs. simpl.
    apply Qlt_bool_iff in Hd. rewrite Hd. left. reflexivity.
Qed.

Lemma target_less_false (c t : Unit) (dc dt : Q) :
  target_less (c, dc) (t, dt) = false ->
  (in_band dc dt -> currentHP t <= currentHP c) /\
  (~ in_band dc dt -> (dt <= dc)%Q).
Proof.
  unfold target_less, in_band. cbn [fst snd]. intros H. split; intros Hb.
  - apply Qlt_bool_iff in Hb. rewrite Hb in H. apply Z.ltb_ge in H. exact H.
  - destruct (Qlt_bool (Qabs (dc - dt)) 10) eqn:E.
    + apply Qlt_bool_iff in E. contradiction.
    + now apply Qlt_bool_false_iff.
Qed.

Lemma TowerTargetPriority_false (c t : Unit) (dc dt : Q) :
  TowerTargetPriority (t, dt) (c, dc) = false ->
  (in_band dc dt -> currentHP t <= currentHP c) /\
  (~ in_band dc dt -> (dt <= dc)%Q).
Proof.
  unfold TowerTargetPriority, in_band. cbn [fst snd]. intros H.
  assert (Hsw : Qlt_bool (Qabs (dt - dc)) 10 = Qlt_bool (Qabs (dc - dt)) 10).
  { unfold Qlt_bool. f_equal.
    destruct (Qle_bool 10 (Qabs (dt - dc))) eqn:E1, (Qle_bool 10 (Qabs (dc - dt))) eqn:E2;
      try reflexivity.
    - apply Qle_bool_iff in E1. rewrite Qabs_minus_swap in E1.
      apply Qle_bool_iff in E1. congruence.
    - apply Qle_bool_iff in E2. rewrite Qabs_minus_swap in E2.
      apply Qle_bool_iff in E2. congruence. }
  rewrite Hsw in H. split; intros Hb.
  - apply Qlt_bool_iff in Hb. rewrite Hb in H.
    rewrite Z.gtb_ltb in H. apply Z.ltb_ge in H. exact H.
  - destruct (Qlt_bool (Qabs (dc - dt)) 10) eqn:E.
    + apply Qlt_bool_iff in E. contradiction.
    + now apply Qlt_bool_false_iff.
Qed.

Section Targeting.
Context {L : StdLib} {LL : StdLibLaws L}.

Lemma sorted_head_first {A} (c : A -> A -> bool) (x : A) (l : list A) :
  c x x = false ->
  StronglySorted (fun a b => c b a = false) (x :: l) ->
  forall y, In y (x :: l) -> c y x = false.
Proof.
  intros Hirr Hs y [<-|Hy]; [exact Hirr|].
  inversion Hs as [|? ? _ Hall]; subst.
  rewrite Forall_forall in Hall. now apply Hall.
Qed.

Lemma std_sort_head {A} (c : A -> A -> bool) (l : list A) :
  l <> [] -> strict_weak_on c l ->
  exists x, hd_error (std_sort c l) = Some x /\ In x l /\
            forall y, In y l -> c y x = false.
Proof.
  intros Hne Hsw.
  pose proof (std_sort_perm A c l) as Hp.
  pose proof (std_sort_sorted A c l Hsw) as Hs.
  destruct (std_sort c l) as [|x s] eqn:E.
  - apply Permutation_nil in Hp. contradiction.
  - exists x. split; [reflexivity|].
    assert (Hx : In x l) by (apply (Permutation_in _ Hp); left; reflexivity).
    split; [exact Hx|]. intros y Hy.
    apply (sorted_head_first c x s); [now apply Hsw|exact Hs|].
    apply (Permutation_in _ (Permutation_sym Hp)). exact Hy.
Qed.

(** The pushes of [UpdateTargetQueue] are those of [towerCandidates]. *)
Lemma tower_pushes_from (tw : Tower) (us : list Unit) (q : list (Unit * Q)) :
  fold_left (fun q unit =>
       if isAlive unit && negb (Bool.eqb (isPlayer unit) (t_isPlayer tw)) then
         let distance := CalculateDistance (t_position tw) (position unit) in
         if Qlt_bool distance TOWER_RANGE
         then push_heap TowerTargetPriority q (unit, distance)
         else q
       else q) us q =
  fold_left (push_heap TowerTargetPriority) (towerCandidates tw us) q.
Proof.
  unfold towerCandidates.
  revert q. induction us as [|u us IH]; intros q; simpl; [reflexivity|].
  rewrite fold_left_app. rewrite IH.
  destruct (isAlive u && negb (Bool.eqb (isPlayer u) (t_isPlayer tw))); [|reflexivity].
  destruct (Qlt_bool _ _); reflexivity.
Qed.

Lemma UpdateTargetQueue_pushes (tw : Tower) (us : list Unit) :
  targetQueue (UpdateTargetQueue us tw) =
  fold_left (push_heap TowerTargetPriority) (towerCandidates tw us) [].
Proof.
  unfold UpdateTargetQueue. simpl. apply tower_pushes_from.
Qed.

Lemma pushes_perm {A} (c : A -> A -> bool) (l q : list A) :
  Permutation (fold_left (push_heap c) l q) (q ++ l).
Proof.
  revert q. induction l as [|x l IH]; intros q; simpl.
  - now rewrite app_nil_r.
  - rewrite IH, push_heap_perm. apply Permutation_middle.
Qed.

Lemma pushes_top {A} (c : A -> A -> bool) (l q : list A) :
  strict_weak_on c (q ++ l) -> is_top c q -> is_top c (fold_left (push_heap c) l q).
Proof.
  revert q. induction l as [|x l IH]; intros q Hsw Ht; simpl; [exact Ht|].
  apply IH.
  - eapply strict_weak_on_incl; [|exact Hsw].
    intros z Hz. apply in_app_or in Hz. destruct Hz as [Hz|Hz].
    + apply (Permutation_in _ (push_heap_perm A c q x)) in Hz.
      apply in_or_app. destruct Hz as [<-|Hz]; [right; left; reflexivity|left; exact Hz].
    + apply in_or_app. right. right. exact Hz.
  - apply push_heap_top; [|exact Ht].
    eapply strict_weak_on_incl; [|exact Hsw].
    intros z [<-|Hz]; apply in_or_app; [right; left; reflexivity|left; exact Hz].
Qed.

Lemma unit_choice_best (self : Unit) (us : list Unit) :
  potentialTargets self us <> [] ->
  strict_weak_on target_less (potentialTargets self us) ->
  unit_choice_is_best self us.
Proof.
  intros Hne Hsw.
  destruct (std_sort_head target_less _ Hne Hsw) as ([t dt] & Hhd & Hin & Hbest).
  exists t, dt. split.
  - unfold FindTargetWithPriority.
    destruct (potentialTargets self us) as [|p pts] eqn:E; [contradiction|].
    rewrite Hhd. reflexivity.
  - split; [exact Hin|]. intros c dc Hc.
    apply target_less_false. now apply Hbest.
Qed.

Lemma tower_choice_best (tw : Tower) (us : list Unit) :
  towerCandidates tw us <> [] ->
  strict_weak_on TowerTargetPriority (towerCandidates tw us) ->
  tower_choice_is_best tw us.
Proof.
  intros Hne Hsw. unfold tower_choice_is_best.
  rewrite UpdateTargetQueue_pushes.
  pose proof (pushes_perm TowerTargetPriority (towerCandidates tw us) []) as Hp.
  pose proof (pushes_top TowerTargetPriority (towerCandidates tw us) [] Hsw I) as Ht.
  simpl in Hp.
  destruct (fold_left _ _ _) as [|[t dt] q] eqn:E.
  - apply Permutation_nil in Hp. contradiction.
  - exists t, dt. split; [reflexivity|].
    assert (Hin : In (t, dt) (towerCandidates tw us))
      by (apply (Permutation_in _ Hp); left; reflexivity).
    split; [exact Hin|]. intros c dc Hc.
    apply TowerTargetPriority_false.
    apply (Permutation_in _ (Permutation_sym Hp)) in Hc.
    destruct Hc as [Hc|Hc].
    + inversion Hc; subst. now apply Hsw.
    + simpl in Ht. rewrite Forall_forall in Ht. now apply Ht.
Qed.

End Targeting.

(** C2 (as amended). Whenever the priority comparator is a strict weak
    ordering on the candidates of a requesting unit or tower, the target
    chosen is a candidate that no candidate is ranked before: a candidate
    whose distance is within 10 units of the chosen one's has at least the
    chosen one's health, and any other candidate is at least as far away. *)
Theorem target_choice_under_consistent_priority (L : StdLib) (LL : StdLibLaws L)
        (us : list Unit) :
  (forall self : Unit,
     potentialTargets self us <> [] ->
     strict_weak_on target_less (potentialTargets self us) ->
     unit_choice_is_best self us) /\
  (forall tw : Tower,
     towerCandidates tw us <> [] ->
     strict_weak_on TowerTargetPriority (towerCandidates tw us) ->
     tower_choice_is_best tw us).
Proof.
  split; intros x Hne Hsw.
  - now apply unit_choice_best.
  - now apply tower_choice_best.
Qed.

Lemma strict_weak_onb_sound {A} (c : A -> A -> bool) (l : list A) :
  strict_weak_onb c l = true -> strict_weak_on c l.
Proof.
  unfold strict_weak_onb. rewrite andb_true_iff, !forallb_forall.
  intros [Hirr H3].
  assert (H : forall x y z, In x l -> In y l -> In z l ->
            implb (c x y && c y z) (c x z) &&
            implb (negb (c x y) && negb (c y z)) (negb (c x z)) = true).
  { intros x y z Hx Hy Hz. specialize (H3 x Hx).
    rewrite forallb_forall in H3. specialize (H3 y Hy).
    rewrite forallb_forall in H3. exact (H3 z Hz). }
  repeat split.
  - intros a Ha. apply negb_true_iff. now apply Hirr.
  - intros x y z Hx Hy Hz Hxy Hyz. specialize (H x y z Hx Hy Hz).
    rewrite Hxy, Hyz in H. simpl in H. destruct (c x z); [reflexivity|discriminate].
  - intros x y z Hx Hy Hz Hxy Hyz. specialize (H x y z Hx Hy Hz).
    rewrite Hxy, Hyz in H. simpl in H. destruct (c x z); [|reflexivity].
    simpl in H. discriminate.
Qed.

Lemma target_choice_witness :
  @unit_choice_is_best reference_lib duel_me duel_units /\
  @tower_choice_is_best reference_lib (Tower_new true) duel_units.
Proof.
  destruct (target_choice_under_consistent_priority reference_lib reference_laws duel_units)
    as [Hu Ht].
  split; [apply Hu|apply Ht];
    try (apply strict_weak_onb_sound; vm_compute; reflexivity);
    vm_compute; discriminate.
Defined.

Lemma cyc_candidates :
  potentialTargets cyc_me cyc_units = [(cyc_A, 20%Q); (cyc_B, 28%Q); (cyc_C, 36%Q)].
Proof. vm_compute. reflexivity. Qed.

(** No candidate of the cycle meets the rule, whatever the library does. *)
Lemma cyc_no_best (t : Unit) (dt : Q) :
  ~ best_of (potentialTargets cyc_me cyc_units) t dt.
Proof.
  rewrite cyc_candidates. intros [Hin Hbest].
  destruct Hin as [E|[E|[E|[]]]]; inversion E; subst t dt; clear E.
  - destruct (Hbest cyc_B 28%Q) as [H _]; [simpl; auto|].
    assert (Hb : in_band 28 20) by reflexivity.
    apply H in Hb. vm_compute in Hb. congruence.
  - destruct (Hbest cyc_C 36%Q) as [H _]; [simpl; auto|].
    assert (Hb : in_band 36 28) by reflexivity.
    apply H in Hb. vm_compute in Hb. congruence.
  - destruct (Hbest cyc_A 20%Q) as [_ H]; [simpl; auto|].
    assert (Hb : ~ in_band 20 36) by (intros Hb; vm_compute in Hb; discriminate).
    apply H in Hb. vm_compute in Hb. congruence.
Qed.

(** With the reference library the archer picks the knight at distance 36,
    although the knight at distance 20 is 16 units nearer. *)
Example cyc_choice :
  target (@FindTargetWithPriority reference_lib cyc_me cyc_units) = Some (uid cyc_C).
Proof. vm_compute. reflexivity. Qed.

(** C2 as stated fails on the cycle. *)
Lemma nearest_or_weakest_refuted :
  ~ @unit_choice_is_best reference_lib cyc_me cyc_units.
Proof.
  intros (t & dt & _ & Hbest). exact (cyc_no_best t dt Hbest).
Qed.

(** ** Health and liveness (C1), dead targets (C5) *)

(** The guard of [Unit::Attack]: a missing or dead target changes nothing. *)
Lemma Attack_dead_target (self : Ptr) (tp : Ptr) (t : Unit) (us : list Unit) :
  deref us tp = Some t -> isAlive t = false -> Attack self (Some tp) us = Some us.
Proof.
  intros Hd Ha. unfold Attack. rewrite Hd. simpl. rewrite Ha. reflexivity.
Qed.

Lemma Attack_no_target (self : Ptr) (us : list Unit) : Attack self None us = Some us.
Proof. reflexivity. Qed.

(** C1 (the code departs from it). After one tick the splashed archer has
    health -5 and the knight shot by the tower has health -10, yet both are
    still alive: only the primary target of a unit's attack is ever marked
    dead. *)
Theorem nonpositive_health_stays_alive :
  (exists g', @Game_Update reference_lib (1#60) no_keys splash_game = Some g' /\
              hp_of g' 1%nat = Some 230 /\
              hp_of g' 2%nat = Some (-5) /\ alive_of g' 2%nat = Some true) /\
  (exists g', @Game_Update reference_lib (1#60) no_keys shot_game = Some g' /\
              hp_of g' 0%nat = Some (-10) /\ alive_of g' 0%nat = Some true).
Proof.
  split; eexists; (split; [vm_compute; reflexivity|]); vm_compute; auto.
Qed.

(** C5 (the code departs from it). The knight dies in the unit loop of the
    tick (health -10, not alive) and stays at the top of the tower's queue;
    the tower attack of the same tick still takes 50 health from it, adds a
    projectile and resets the tower's timer. *)
Theorem tower_strikes_dead_target :
  (exists g, siege_after_units = Some g /\
             alive_of g 0%nat = Some false /\ hp_of g 0%nat = Some (-10) /\
             GetBestTarget (playerTower g) = Some 0%nat /\
             projectiles g = [] /\
             exists g', HandleTowerAttacks g = Some g' /\
                        hp_of g' 0%nat = Some (-60) /\
                        List.length (projectiles g') = 1%nat /\
                        t_attackTimer (playerTower g') = 0%Q) /\
  (exists g', @Game_Update reference_lib (1#60) no_keys siege_game = Some g' /\
              alive_of g' 0%nat = Some false /\ hp_of g' 0%nat = Some (-60)).
Proof.
  split.
  - eexists. split; [vm_compute; reflexivity|].
    repeat (split; [vm_compute; reflexivity|]).
    eexists. split; [vm_compute; reflexivity|].
    repeat split; vm_compute; reflexivity.
  - eexists. split; [vm_compute; reflexivity|]. split; vm_compute; reflexivity.
Qed.

(** ** Re-ranking towers, sticky units (C3) *)

(** What [Unit::Attack] on a living target leaves at the attacker [self]:
    its target is kept unless the primary target died. *)
Lemma Attack_living_target (self tp : Ptr) (me t : Unit) (us : list Unit) :
  deref us self = Some me -> deref us tp = Some t -> isAlive t = true ->
  exists us' me',
    Attack self (Some tp) us = Some us' /\ deref us' self = Some me' /\
    (target me' = target me \/
     (target me' = None /\ exists t', deref us' tp = Some t' /\ isAlive t' = false)).
Proof.
  intros Hme Ht Ha. unfold Attack. rewrite Ht. simpl. rewrite Ha. simpl.
  rewrite Hme. simpl.
  pose proof (deref_uid _ _ _ Hme) as Eme. pose proof (deref_uid _ _ _ Ht) as Et.
  set (t0 := set_currentHP (currentHP t - damage me) t).
  rewrite !deref_assign, Hme, Ht. simpl.
  rewrite Nat.eqb_refl.
  set (me1 := if Nat.eqb (uid me) (uid t) then t0 else me).
  set (us2 := if UnitType_eqb (type me1) WIZARD then splash me1 t0 tp (assign t0 us) else assign t0 us).
  assert (Hus2 : forall p, exists f, (forall v, uid (f v) = uid v /\ target (f v) = target v /\ isAlive (f v) = isAlive v) /\
                   deref us2 p = option_map f (deref (assign t0 us) p)).
  { intros p. subst us2. destruct (UnitType_eqb (type me1) WIZARD).
    - eexists. split; [|apply deref_splash].
      intros v. cbv beta. destruct (_ && _); [|auto]. destruct (Qlt_bool _ _); auto.
    - exists (fun v => v). split; [auto|]. now destruct (deref _ p). }
  destruct (Hus2 tp) as (ft & Hft & Etp). destruct (Hus2 self) as (fs & Hfs & Eself).
  rewrite deref_assign, Ht in Etp. simpl in Etp. rewrite Nat.eqb_refl in Etp.
  rewrite deref_assign, Hme in Eself. simpl in Eself. fold me1 in Eself.
  rewrite Etp. simpl.
  assert (Emt : target me1 = target me).
  { subst me1. destruct (Nat.eqb (uid me) (uid t)) eqn:E; [|reflexivity].
    apply Nat.eqb_eq in E.
    assert (me = t) by congruence. subst. reflexivity. }
  assert (Euft : uid (ft t0) = tp) by (destruct (Hft t0) as (-> & _); exact Et).
  assert (Eufs : uid (fs me1) = self).
  { destruct (Hfs me1) as (-> & _). subst me1.
    destruct (Nat.eqb (uid me) (uid t)) eqn:E; [|exact Eme].
    apply Nat.eqb_eq in E. simpl. congruence. }
  destruct (currentHP (ft t0) <=? 0) eqn:Hhp.
  - rewrite !deref_assign, Eself. simpl.
    eexists _, _. split; [reflexivity|].
    rewrite deref_assign.
    rewrite deref_assign, Eself. simpl. rewrite Nat.eqb_refl.
    split; [reflexivity|]. right. split; [reflexivity|].
    rewrite !deref_assign, Etp. simpl. rewrite Nat.eqb_refl.
    eexists. split; [reflexivity|].
    simpl. rewrite Euft, Eufs.
    destruct (Nat.eq_dec self tp) as [E|E].
    + rewrite E, !Nat.eqb_refl. simpl. rewrite Euft, Nat.eqb_refl. reflexivity.
    + pose proof E as E'. apply Nat.eqb_neq in E. rewrite E. simpl.
      rewrite Eufs. apply not_eq_sym, Nat.eqb_neq in E'. rewrite E'. reflexivity.
  - eexists _, _. split; [reflexivity|]. split; [exact Eself|].
    left. destruct (Hfs me1) as (_ & -> & _). exact Emt.
Qed.

Lemma FollowPath_keeps (dt : Q) (u : Unit) :
  uid (FollowPath dt u) = uid u /\ target (FollowPath dt u) = target u /\
  isAlive (FollowPath dt u) = isAlive u.
Proof.
  unfold FollowPath. destruct (path u) as [|w rest]; [auto|].
  destruct (Qlt_bool _ _); [|auto]. destruct rest; auto.
Qed.

Section StickyTarget.
Context {L : StdLib}.

(** A unit that holds a living target does not look for another one: after
    its update the target is the same, or it is dead and the reference is
    cleared. *)
Lemma Unit_Update_keeps_living_target (dt : Q) (self tp : Ptr) (u t : Unit)
      (us : list Unit) :
  deref us self = Some u -> isAlive u = true -> isFrozen u = false ->
  target u = Some tp -> deref us tp = Some t -> isAlive t = true ->
  exists us' u',
    Unit_Update dt self us = Some us' /\ deref us' self = Some u' /\
    (target u' = Some tp \/
     (target u' = None /\ exists t', deref us' tp = Some t' /\ isAlive t' = false)).
Proof.
  intros Hu Hau Hfu Htg Ht Hat.
  pose proof (deref_uid _ _ _ Hu) as Eu. pose proof (deref_uid _ _ _ Ht) as Et.
  unfold Unit_Update. rewrite Hu. simpl. rewrite Hau, Hfu. simpl.
  unfold target_lost at 1. rewrite Htg, Ht. simpl. rewrite Hat. simpl.
  assert (Hu1 : deref (assign u us) self = Some u).
  { rewrite <- Eu. eapply deref_assign_same. rewrite Eu. exact Hu. }
  assert (Ht1 : exists t1, deref (assign u us) tp = Some t1 /\ isAlive t1 = true).
  { rewrite deref_assign, Ht. simpl. destruct (Nat.eqb _ _); eauto. }
  destruct Ht1 as (t1 & Ht1 & Hat1).
  unfold target_lost. rewrite Htg, Ht1. cbn [bind]. rewrite Hat1. cbn [bind negb].
  rewrite Ht1. cbn [bind].
  destruct (Qle_bool (CalculateDistance (position u) (position t1)) (attackRange u)).
  - set (u2 := set_attackTimer (attackTimer u + dt)%Q u).
    assert (Hu2 : deref (assign u2 (assign u us)) self = Some u2).
    { rewrite <- Eu. change (uid u) with (uid u2).
      eapply deref_assign_same. simpl. rewrite Eu. exact Hu1. }
    assert (Ht2 : exists t2, deref (assign u2 (assign u us)) tp = Some t2 /\ isAlive t2 = true).
    { rewrite deref_assign, Ht1. simpl. destruct (Nat.eqb _ _); eauto. }
    destruct Ht2 as (t2 & Ht2 & Hat2).
    destruct (Qle_bool (attackRate u) (attackTimer u + dt)).
    + destruct (Attack_living_target self tp u2 t2 _ Hu2 Ht2 Hat2)
        as (us3 & me' & HA & Hme' & Hcase).
      fold u2. rewrite HA. cbn [bind]. rewrite Hme'. cbn [bind].
      pose proof (deref_uid _ _ _ Hme') as Eme'.
      eexists _, _. split; [reflexivity|]. split.
      * rewrite <- Eme'. change (uid me') with (uid (set_attackTimer 0 me')).
        eapply deref_assign_same. simpl. rewrite Eme'. exact Hme'.
      * simpl. destruct Hcase as [Hc|(Hc & t' & Ht' & Hat')].
        -- left. rewrite Hc. exact Htg.
        -- right. split; [exact Hc|].
           rewrite deref_assign, Ht'. simpl. eexists. split; [reflexivity|].
           destruct (Nat.eqb (uid t') (uid me')) eqn:E; [|exact Hat'].
           simpl. apply Nat.eqb_eq in E.
           pose proof (deref_uid _ _ _ Ht') as Et'.
           assert (t' = me') by congruence. subst t'. exact Hat'.
    + eexists _, _. split; [reflexivity|]. split; [exact Hu2|]. left. exact Htg.
  - destruct (FollowPath_keeps dt u) as (Ef & Etf & _).
    eexists _, _. split; [reflexivity|]. split.
    + replace self with (uid (set_attackTimer 0 (FollowPath dt u)))
        by (simpl; congruence).
      eapply deref_assign_same. simpl. rewrite Ef, Eu. exact Hu1.
    + left. simpl. rewrite Etf. exact Htg.
Qed.

(** In that case the update does not call the library at all. *)
Lemma Unit_Update_living_target_no_sort (L' : StdLib) (dt : Q) (self tp : Ptr)
      (u t : Unit) (us : list Unit) :
  deref us self = Some u -> isAlive u = true -> isFrozen u = false ->
  target u = Some tp -> deref us tp = Some t -> isAlive t = true ->
  @Unit_Update L dt self us = @Unit_Update L' dt self us.
Proof.
  intros Hu Hau Hfu Htg Ht Hat.
  unfold Unit_Update. rewrite Hu. simpl. rewrite Hau, Hfu. simpl.
  unfold target_lost at 1 3. rewrite Htg, Ht. simpl. rewrite Hat. reflexivity.
Qed.

End StickyTarget.

(** C3. A living tower's queue after its update is rebuilt from the units
    alone, whatever it held before.  A living, unfrozen unit whose target is
    alive does not search: its update is the same under every library, and
    afterwards its target is the one it held, unless that target is now dead
    and the reference cleared; other opposing units, nearer or not, play no
    part. *)
Theorem towers_rerank_units_keep_target (L : StdLib) (dt : Q) (us : list Unit) :
  (forall (tw : Tower) (q : list (Unit * Q)),
     t_isAlive tw = true ->
     targetQueue (Tower_Update dt us (set_targetQueue q tw)) =
     fold_left (push_heap TowerTargetPriority) (towerCandidates tw us) []) /\
  (forall (self tp : Ptr) (u t : Unit),
     deref us self = Some u -> isAlive u = true -> isFrozen u = false ->
     target u = Some tp -> deref us tp = Some t -> isAlive t = true ->
     exists us' u',
       (forall L' : StdLib, @Unit_Update L' dt self us = Some us') /\
       deref us' self = Some u' /\
       (target u' = Some tp \/
        (target u' = None /\ exists t', deref us' tp = Some t' /\ isAlive t' = false))).
Proof.
  split.
  - intros tw q Ha. unfold Tower_Update.
    change (t_isAlive (set_targetQueue q tw)) with (t_isAlive tw).
    rewrite Ha. cbn [negb]. rewrite UpdateTargetQueue_pushes. reflexivity.
  - intros self tp u t Hu Hau Hfu Htg Ht Hat.
    destruct (Unit_Update_keeps_living_target dt self tp u t us Hu Hau Hfu Htg Ht Hat)
      as (us' & u' & HU & Hd & Hc).
    exists us', u'. split; [|split; assumption].
    intros L'. rewrite <- HU. symmetry.
    eapply Unit_Update_living_target_no_sort; eauto.
Qed.

Lemma sticky_target_witness :
  targetQueue (@Tower_Update reference_lib (1#60) sticky_units
                 (set_targetQueue [(duel_me, 7%Q)] (Tower_new false))) =
  [] /\
  exists us' u',
    @Unit_Update reference_lib (1#60) 0%nat sticky_units = Some us' /\
    deref us' 0%nat = Some u' /\ target u' = Some 1%nat.
Proof.
  destruct (towers_rerank_units_keep_target reference_lib (1#60) sticky_units)
    as [Htw Hun].
  split.
  - rewrite (Htw (Tower_new false) _ eq_refl). vm_compute. reflexivity.
  - destruct (Hun 0%nat 1%nat (nth 0 sticky_units duel_me) (nth 1 sticky_units duel_me))
      as (us' & u' & HU & Hd & Hc); try (vm_compute; reflexivity).
    exists us', u'. split; [apply HU|]. split; [exact Hd|].
    destruct Hc as [Hc|(_ & t' & Ht' & Hat')]; [exact Hc|].
    exfalso. specialize (HU reference_lib).
    vm_compute in HU. inversion HU; subst us'.
    vm_compute in Ht'. inversion Ht'; subst t'. discriminate.
Defined.

(** ** Freeze (C4) *)

Lemma ActivateFreeze_units (rnd : nat -> Vector2 * Vector2) (g : Game) :
  currentState g = PLAYING -> freezeAvailable g = true ->
  Forall2 frozen_from (units g) (units (ActivateFreeze rnd g)).
Proof.
  intros Hs Hf. unfold ActivateFreeze. rewrite Hs, Hf. simpl.
  induction (units g) as [|u us IH]; simpl; constructor; [|exact IH].
  unfold frozen_from.
  destruct (isPlayer u), (isAlive u); simpl; repeat split; intros; try discriminate; auto.
Qed.

Section FrozenTick.
Context {L : StdLib}.

Lemma Unit_Update_frozen (dt : Q) (self : Ptr) (u : Unit) (us : list Unit) :
  deref us self = Some u -> isAlive u = true -> isFrozen u = true ->
  exists us' u',
    Unit_Update dt self us = Some us' /\ deref us' self = Some u' /\
    position u' = position u /\ attackTimer u' = attackTimer u /\
    path u' = path u /\ target u' = target u /\ currentHP u' = currentHP u /\
    freezeTimer u' = (freezeTimer u - dt)%Q /\
    isFrozen u' = negb (Qle_bool (freezeTimer u - dt) 0) /\
    (forall p, p <> self -> deref us' p = deref us p).
Proof.
  intros Hu Ha Hf. pose proof (deref_uid _ _ _ Hu) as Eu.
  unfold Unit_Update. rewrite Hu. cbn [bind]. rewrite Ha, Hf. cbn [negb].
  set (u1 := set_freezeTimer (freezeTimer u - dt)%Q u).
  set (u2 := if Qle_bool (freezeTimer u1) 0 then set_isFrozen false u1 else u1).
  assert (E2 : uid u2 = self)
    by (subst u2; destruct (Qle_bool (freezeTimer u1) 0); exact Eu).
  exists (assign u2 us), u2. split; [reflexivity|]. split.
  - rewrite <- E2. eapply deref_assign_same. rewrite E2. exact Hu.
  - subst u2. change (freezeTimer u1) with (freezeTimer u - dt)%Q.
    destruct (Qle_bool (freezeTimer u - dt) 0) eqn:E; simpl;
      (repeat split; try reflexivity; try exact Hf;
       intros p Hp; apply deref_assign_other; simpl; congruence).
Qed.

End FrozenTick.

(** C4. Activating freeze while it is available in a match being played
    freezes every living enemy unit for the full duration, leaves every
    player unit (and every dead unit) as it was, and starts the cooldown.  A
    living frozen unit's update only runs its freeze timer down, clearing the
    flag when the timer reaches zero: position, attack timer, path, target
    and every other unit stay as they were, also on that last tick. *)
Theorem freeze_stops_enemy_units (L : StdLib) :
  (forall (rnd : nat -> Vector2 * Vector2) (g : Game),
     currentState g = PLAYING -> freezeAvailable g = true ->
     Forall2 frozen_from (units g) (units (ActivateFreeze rnd g)) /\
     freezeAvailable (ActivateFreeze rnd g) = false /\
     freezeCooldown (ActivateFreeze rnd g) = FREEZE_COOLDOWN) /\
  (forall (dt : Q) (self : Ptr) (u : Unit) (us : list Unit),
     deref us self = Some u -> isAlive u = true -> isFrozen u = true ->
     exists us' u',
       Unit_Update dt self us = Some us' /\ deref us' self = Some u' /\
       position u' = position u /\ attackTimer u' = attackTimer u /\
       path u' = path u /\ target u' = target u /\ currentHP u' = currentHP u /\
       freezeTimer u' = (freezeTimer u - dt)%Q /\
       isFrozen u' = negb (Qle_bool (freezeTimer u - dt) 0) /\
       (forall p, p <> self -> deref us' p = deref us p)).
Proof.
  split.
  - intros rnd g Hs Hf. split; [now apply ActivateFreeze_units|].
    unfold ActivateFreeze. rewrite Hs, Hf. split; reflexivity.
  - intros. now apply Unit_Update_frozen.
Qed.

Lemma freeze_witness :
  map isFrozen (units (ActivateFreeze no_rnd freeze_game)) = [false; true; true] /\
  map freezeTimer (units (ActivateFreeze no_rnd freeze_game)) = [0%Q; 5%Q; 5%Q] /\
  exists us' u',
    @Unit_Update reference_lib 5 1%nat (units (ActivateFreeze no_rnd freeze_game)) = Some us' /\
    deref us' 1%nat = Some u' /\
    position u' = lane_point 530 /\ attackTimer u' = 0%Q /\ isFrozen u' = false.
Proof.
  destruct (freeze_stops_enemy_units reference_lib) as [HA HU].
  destruct (HA no_rnd freeze_game eq_refl eq_refl) as (HF & _ & _).
  split; [|split].
  - vm_compute. reflexivity.
  - vm_compute. reflexivity.
  - destruct (HU 5%Q 1%nat (set_freezeTimer FREEZE_DURATION (set_isFrozen true (at_x 530 300 (Unit_new 1%nat KNIGHT false))))
                (units (ActivateFreeze no_rnd freeze_game)))
      as (us' & u' & H1 & H2 & H3 & H4 & _ & _ & _ & _ & H5 & _);
      try (vm_compute; reflexivity).
    exists us', u'. repeat split; try assumption.
Defined.

(** ** Spawning (C6) *)

Lemma Unit_new_player (p : Ptr) (t : UnitType) :
  let u := Unit_new p t true in
  uid u = p /\ type u = t /\ isPlayer u = true /\ isAlive u = true /\
  currentHP u = st_hp (Unit_getUnitStats t) /\
  maxHP u = st_hp (Unit_getUnitStats t) /\
  damage u = st_damage (Unit_getUnitStats t) /\
  target u = None /\ isFrozen u = false /\ attackTimer u = 0%Q /\
  position u = lane_point 150 /\
  path u = default_player_path /\
  currentTargetPos u = lane_point 150.
Proof.
  destruct t; repeat split; reflexivity.
Qed.

(** C6. In a match being played, with elixir for the type's cost,
    [SpawnUnit] takes exactly the cost and appends exactly one unit: a
    living player unit of that type at full health, at the player's spawn
    point with the default path of waypoints towards the enemy tower;
    nothing else changes.  Outside a match being played, or short of
    elixir, the state is returned as it was.  A knight costs 3 and has 300
    health. *)
Theorem SpawnUnit_spec (t : UnitType) (g : Game) :
  (currentState g = PLAYING -> st_cost (Game_GetUnitStats t) <= playerElixir g ->
   let u := Unit_new (next_ptr g) t true in
   SpawnUnit t g =
     mkGame (currentState g) (playerTower g) (enemyTower g) (units g ++ [u])
       (projectiles g) (freezeAvailable g) (freezeCooldown g)
       (playerElixir g - st_cost (Game_GetUnitStats t)) (enemyElixir g)
       (elixirTimer g) (waveList g) (currentWave g) (waveSpawnTimer g)
       (currentUnitTypeIndex g) (unitsSpawnedForCurrentType g)
       (isBetweenWaves g) (betweenWavesTimer g) (gameTimer g) (gameOver g)
       (winner g) (S (next_ptr g)) /\
   type u = t /\ isPlayer u = true /\ isAlive u = true /\
   currentHP u = st_hp (Unit_getUnitStats t) /\
   maxHP u = st_hp (Unit_getUnitStats t) /\
   position u = lane_point 150 /\ path u = default_player_path) /\
  (currentState g <> PLAYING \/ playerElixir g < st_cost (Game_GetUnitStats t) ->
   SpawnUnit t g = g) /\
  st_cost (Game_GetUnitStats KNIGHT) = 3 /\ st_hp (Unit_getUnitStats KNIGHT) = 300.
Proof.
  split; [|split; [|split; reflexivity]].
  - intros Hs Hc u. unfold SpawnUnit.
    replace (GameState_eqb (currentState g) PLAYING) with true
      by (rewrite Hs; reflexivity).
    cbn [negb].
    apply Z.geb_le in Hc. rewrite Hc.
    split; [reflexivity|].
    destruct (Unit_new_player (next_ptr g) t) as (_ & ? & ? & ? & ? & ? & _ & _ & _ & _ & ? & ? & _).
    repeat split; assumption.
  - intros [Hs|Hc]; unfold SpawnUnit.
    + destruct (currentState g); try reflexivity. congruence.
    + destruct (negb _); [reflexivity|].
      destruct (playerElixir g >=? st_cost (Game_GetUnitStats t)) eqn:E; [|reflexivity].
      apply Z.geb_le in E. lia.
Qed.

(** The scenario of the specification: a knight bought with 5 elixir. *)
Lemma SpawnUnit_knight_witness :
  playerElixir (SpawnUnit KNIGHT (playing [])) = 2 /\
  map currentHP (units (SpawnUnit KNIGHT (playing []))) = [300] /\
  map isPlayer (units (SpawnUnit KNIGHT (playing []))) = [true] /\
  SpawnUnit KNIGHT Game_new = Game_new /\
  SpawnUnit GIANT (set_playerElixir 4 (playing [])) = set_playerElixir 4 (playing []).
Proof.
  destruct (SpawnUnit_spec KNIGHT (playing [])) as (Hok & _ & _).
  destruct (SpawnUnit_spec KNIGHT Game_new) as (_ & Hno & _).
  destruct (SpawnUnit_spec GIANT (set_playerElixir 4 (playing []))) as (_ & Hno' & _).
  destruct Hok as (E & _); [reflexivity|vm_compute; discriminate|].
  rewrite E. do 3 (split; [reflexivity|]). split.
  - apply Hno. left. discriminate.
  - apply Hno'. right. reflexivity.
Defined.

(** ** The difficulty ratchet (C7) *)

Lemma speed_up_decay (ws : list GameWave) :
  map spawnRate (speed_up ws) = map decay (map spawnRate ws) /\
  map waveNumber (speed_up ws) = map waveNumber ws /\
  map waveUnits (speed_up ws) = map waveUnits ws /\
  map waveCooldown (speed_up ws) = map waveCooldown ws.
Proof.
  unfold speed_up. rewrite !map_map. repeat split.
Qed.

Lemma iter_speed_up (k : nat) (ws : list GameWave) :
  map spawnRate (Nat.iter k speed_up ws) = map (Nat.iter k decay) (map spawnRate ws).
Proof.
  induction k as [|k IH]; simpl.
  - now rewrite map_id.
  - destruct (speed_up_decay (Nat.iter k speed_up ws)) as (-> & _).
    rewrite IH, !map_map. reflexivity.
Qed.

(** [decay] is the larger of 2 and nine tenths of the interval. *)
Lemma decay_is_max (r : Q) :
  (2 <= decay r)%Q /\ (r * (9#10) <= decay r)%Q /\
  (decay r = 2%Q \/ decay r = (r * (9#10))%Q).
Proof.
  unfold decay, std_max. destruct (Qlt_bool 2 (r * (9#10))) eqn:E.
  - apply Qlt_bool_iff in E. repeat split; [now apply Qlt_le_weak|apply Qle_refl|now right].
  - apply Qlt_bool_false_iff in E. repeat split; [apply Qle_refl|exact E|now left].
Qed.

Lemma decay_le (r : Q) : (2 <= r)%Q -> (decay r <= r)%Q.
Proof.
  intros Hr. destruct (decay_is_max r) as (_ & _ & [-> | ->]); [exact Hr|lra].
Qed.

Lemma decay_2 : decay 2 = 2%Q.
Proof. reflexivity. Qed.

Lemma iter_decay_2 (n : nat) : Nat.iter n decay 2%Q = 2%Q.
Proof.
  induction n as [|n IH]; simpl; [reflexivity|]. rewrite IH. apply decay_2.
Qed.

Lemma decay_floor (r : Q) : (r * (9#10) <= 2)%Q -> decay r = 2%Q.
Proof.
  intros H. unfold decay, std_max.
  apply Qlt_bool_false_iff in H. rewrite H. reflexivity.
Qed.

(** An interval within [n] fifths of the floor is at the floor after [n + 1]
    wraps, and stays there. *)
Lemma decay_reaches_floor (n : nat) :
  forall r, (r <= 2 + inject_Z (Z.of_nat n) * (2#10))%Q ->
  forall m, (n < m)%nat -> Nat.iter m decay r = 2%Q.
Proof.
  induction n as [|n IH]; intros r Hr m Hm.
  - destruct m as [|m]; [lia|].
    rewrite Nat.iter_succ_r, decay_floor; [apply iter_decay_2|].
    change (inject_Z (Z.of_nat 0)) with 0%Q in Hr. lra.
  - destruct m as [|m]; [lia|]. rewrite Nat.iter_succ_r.
    destruct (Qlt_le_dec 2 (r * (9#10))) as [Hgt|Hle].
    + assert (E : decay r = (r * (9#10))%Q).
      { unfold decay, std_max. apply Qlt_bool_iff in Hgt. now rewrite Hgt. }
      rewrite E. apply IH; [|lia].
      rewrite Nat2Z.inj_succ in Hr. unfold Z.succ in Hr.
      rewrite inject_Z_plus in Hr. change (inject_Z 1) with 1%Q in Hr. lra.
    + rewrite decay_floor by exact Hle. apply iter_decay_2.
Qed.

Lemma decay_converges (r : Q) :
  exists N, forall m, (N <= m)%nat -> Nat.iter m decay r = 2%Q.
Proof.
  set (n := Z.to_nat (Qceiling ((r - 2) * 5))).
  exists (S n). intros m Hm. apply (decay_reaches_floor n); [|lia].
  pose proof (Qle_ceiling ((r - 2) * 5)) as Hc.
  assert (Hn : (inject_Z (Qceiling ((r - 2) * 5)) <= inject_Z (Z.of_nat n))%Q).
  { rewrite <- Zle_Qle. subst n. lia. }
  lra.
Qed.

Lemma decay_iter_bounds (r : Q) (k : nat) :
  (2 <= r)%Q ->
  (2 <= Nat.iter k decay r)%Q /\ (Nat.iter (S k) decay r <= Nat.iter k decay r)%Q.
Proof.
  intros Hr.
  assert (H2 : (2 <= Nat.iter k decay r)%Q).
  { destruct k as [|k]; [exact Hr|]. simpl. apply decay_is_max. }
  split; [exact H2|]. simpl. now apply decay_le.
Qed.

(** The sequencer enters the cooldown: the tick that finds the entries of
    the current wave exhausted. *)
Lemma HandleWaveProgression_enter_cooldown (dt : Q) (g : Game) (cw : GameWave) :
  gameOver g = false -> isBetweenWaves g = false ->
  nth_error (waveList g) (currentWave g) = Some cw ->
  (List.length (waveUnits cw) <= currentUnitTypeIndex g)%nat ->
  HandleWaveProgression dt g =
    mkGame (currentState g) (playerTower g) (enemyTower g) (units g)
      (projectiles g) (freezeAvailable g) (freezeCooldown g) (playerElixir g)
      (enemyElixir g) (elixirTimer g)
      (if Nat.ltb (S (currentWave g)) (List.length (waveList g))
       then waveList g else speed_up (waveList g))
      (successor (waveList g) (currentWave g))
      (waveSpawnTimer g + dt)%Q (currentUnitTypeIndex g)
      (unitsSpawnedForCurrentType g) true (waveCooldown cw) (gameTimer g)
      (gameOver g) (winner g) (next_ptr g).
Proof.
  intros Hgo Hb Hcw Hidx. apply nth_error_None in Hidx.
  destruct g. simpl in Hgo, Hb, Hcw, Hidx.
  subst. unfold HandleWaveProgression, successor.
  cbn -[Nat.ltb speed_up nth_error]. rewrite Hcw.
  cbn -[Nat.ltb speed_up nth_error]. rewrite Hidx.
  destruct (Nat.ltb _ _); reflexivity.
Qed.

(** A tick of the cooldown. *)
Lemma HandleWaveProgression_cooldown (dt : Q) (g : Game) (cw : GameWave) :
  gameOver g = false -> isBetweenWaves g = true ->
  nth_error (waveList g) (currentWave g) = Some cw ->
  HandleWaveProgression dt g =
    if Qle_bool (betweenWavesTimer g - dt) 0 then
      mkGame (currentState g) (playerTower g) (enemyTower g) (units g)
        (projectiles g) (freezeAvailable g) (freezeCooldown g) (playerElixir g)
        (enemyElixir g) (elixirTimer g) (waveList g) (currentWave g)
        0 0%nat 0 false (betweenWavesTimer g - dt)%Q (gameTimer g)
        (gameOver g) (winner g) (next_ptr g)
    else
      mkGame (currentState g) (playerTower g) (enemyTower g) (units g)
        (projectiles g) (freezeAvailable g) (freezeCooldown g) (playerElixir g)
        (enemyElixir g) (elixirTimer g) (waveList g) (currentWave g)
        (waveSpawnTimer g) (currentUnitTypeIndex g)
        (unitsSpawnedForCurrentType g) true (betweenWavesTimer g - dt)%Q
        (gameTimer g) (gameOver g) (winner g) (next_ptr g).
Proof.
  intros Hgo Hb Hcw.
  destruct g. simpl in Hgo, Hb, Hcw.
  subst. unfold HandleWaveProgression.
  cbn -[nth_error Qle_bool Qminus]. rewrite Hcw.
  cbn -[nth_error Qle_bool Qminus].
  destruct (Qle_bool _ _); reflexivity.
Qed.

(** Only the wrap changes the chain. *)
Lemma HandleWaveProgression_waveList (dt : Q) (g : Game) :
  waveList (HandleWaveProgression dt g) = waveList g \/
  (waveList (HandleWaveProgression dt g) = speed_up (waveList g) /\
   currentWave (HandleWaveProgression dt g) = 0%nat /\
   S (currentWave g) = List.length (waveList g) /\
   isBetweenWaves g = false /\ isBetweenWaves (HandleWaveProgression dt g) = true).
Proof.
  unfold HandleWaveProgression.
  destruct (nth_error (waveList g) (currentWave g)) as [cw|] eqn:Hcw; [|now left].
  destruct (gameOver g); [now left|].
  destruct (isBetweenWaves g) eqn:Hb.
  - left. cbn. destruct (Qle_bool _ _); reflexivity.
  - cbn [currentUnitTypeIndex set_waveSpawnTimer].
    destruct (nth_error (waveUnits cw) (currentUnitTypeIndex g)) as [wu|].
    + left. destruct (_ && _); [|reflexivity]. cbn.
      destruct (_ >=? _); reflexivity.
    + cbn -[Nat.ltb speed_up].
      destruct (Nat.ltb (S (currentWave g)) (List.length (waveList g))) eqn:E.
      * now left.
      * right. apply Nat.ltb_ge in E.
        assert (currentWave g < List.length (waveList g))%nat
          by (apply nth_error_Some; congruence).
        repeat split; try reflexivity. lia.
Qed.

(** C7. When the sequencer leaves the last wave of the chain it returns to
    the head and every wave's spawn interval becomes the larger of 2 and
    nine tenths of what it was; no other step of the sequencer changes an
    interval.  The new interval is never below 2; an interval of at least
    2 does not grow, so after the first wrap the intervals are
    non-increasing; and every interval is exactly 2 after finitely many
    wraps and then stays 2.  The intervals of the program's chain start
    at 2.5 or more. *)
Theorem wave_intervals_decay :
  (forall (dt : Q) (g : Game) (cw : GameWave),
     gameOver g = false -> isBetweenWaves g = false ->
     nth_error (waveList g) (currentWave g) = Some cw ->
     (List.length (waveUnits cw) <= currentUnitTypeIndex g)%nat ->
     S (currentWave g) = List.length (waveList g) ->
     currentWave (HandleWaveProgression dt g) = 0%nat /\
     map spawnRate (waveList (HandleWaveProgression dt g)) =
       map decay (map spawnRate (waveList g))) /\
  (forall (dt : Q) (g : Game),
     waveList (HandleWaveProgression dt g) = waveList g \/
     (waveList (HandleWaveProgression dt g) = speed_up (waveList g) /\
      S (currentWave g) = List.length (waveList g))) /\
  (forall r : Q,
     (2 <= decay r)%Q /\ (r * (9#10) <= decay r)%Q /\
     (decay r = 2%Q \/ decay r = (r * (9#10))%Q)) /\
  (forall (r : Q) (k : nat),
     (2 <= r)%Q ->
     (2 <= Nat.iter k decay r)%Q /\ (Nat.iter (S k) decay r <= Nat.iter k decay r)%Q) /\
  (forall r : Q, exists N, forall m, (N <= m)%nat -> Nat.iter m decay r = 2%Q) /\
  (forall (k : nat) (ws : list GameWave),
     map spawnRate (Nat.iter k speed_up ws) = map (Nat.iter k decay) (map spawnRate ws)) /\
  Forall (fun r => (25#10 <= r)%Q) (map spawnRate InitializeWaves).
Proof.
  split; [|split; [|split; [|split; [|split; [|split]]]]].
  - intros dt g cw Hgo Hb Hcw Hidx Hlast.
    rewrite (HandleWaveProgression_enter_cooldown dt g cw Hgo Hb Hcw Hidx).
    unfold successor. cbn [currentWave waveList].
    rewrite Hlast, Nat.ltb_irrefl. split; [reflexivity|].
    apply speed_up_decay.
  - intros dt g. destruct (HandleWaveProgression_waveList dt g) as [H|(H & _ & H' & _)];
      [left|right]; auto.
  - apply decay_is_max.
  - intros r k Hr. now apply decay_iter_bounds.
  - apply decay_converges.
  - intros k ws. apply iter_speed_up.
  - unfold InitializeWaves. simpl.
    repeat (constructor; [vm_compute; discriminate|]). constructor.
Qed.

Lemma wave_intervals_witness :
  currentWave (HandleWaveProgression (1#60) wave8_done) = 0%nat /\
  map spawnRate (waveList (HandleWaveProgression (1#60) wave8_done)) =
    map decay (map spawnRate InitializeWaves) /\
  (Nat.iter 1 decay 4 <= Nat.iter 0 decay 4)%Q /\
  map spawnRate (Nat.iter 7 speed_up InitializeWaves) =
    map (Nat.iter 7 decay) (map spawnRate InitializeWaves).
Proof.
  destruct wave_intervals_decay as (Hwrap & _ & _ & Hmono & _ & Hiter & _).
  destruct (Hwrap (1#60) wave8_done (nth 7 InitializeWaves (mkGameWave 0 [] 0 0)))
    as [H1 H2]; try reflexivity.
  split; [exact H1|]. split; [exact H2|]. split.
  - apply (Hmono 4%Q 0%nat). vm_compute. discriminate.
  - apply Hiter.
Defined.

(** After seven wraps every interval of the program's chain is 2. *)
Example seven_wraps :
  map spawnRate (Nat.iter 7 speed_up InitializeWaves) = repeat 2%Q 8.
Proof. vm_compute. reflexivity. Qed.

(** ** The cooldown between waves (C8) *)

(** The pointer is at wave 2 from the first tick of the cooldown and is
    not moved when the cooldown runs out. *)
Lemma pointer_not_advanced_at_expiry :
  ~ pointer_advances_at_expiry 10 wave1_cooldown.
Proof.
  intros H. destruct H as [_ H]; try reflexivity.
  - vm_compute. discriminate.
  - vm_compute in H. discriminate.
Qed.

(** C8 (as amended). In a match that is not over, a tick of the cooldown
    takes the elapsed time off the countdown and leaves the current wave and
    the chain as they are; while the countdown stays positive nothing else
    changes, and when it reaches zero or less the sequencer is back in
    Spawning with the spawn timer, the entry index and the spawned count at
    zero.  The current-wave pointer moves to its successor on the tick that
    enters the cooldown, the one that finds the wave's entries exhausted;
    leaving wave 8 it becomes wave 1. *)
Theorem cooldown_then_next_wave :
  (forall (dt : Q) (g : Game) (cw : GameWave),
     gameOver g = false -> isBetweenWaves g = true ->
     nth_error (waveList g) (currentWave g) = Some cw ->
     betweenWavesTimer (HandleWaveProgression dt g) = (betweenWavesTimer g - dt)%Q /\
     currentWave (HandleWaveProgression dt g) = currentWave g /\
     waveList (HandleWaveProgression dt g) = waveList g /\
     units (HandleWaveProgression dt g) = units g /\
     ((0 < betweenWavesTimer g - dt)%Q ->
        HandleWaveProgression dt g = set_betweenWavesTimer (betweenWavesTimer g - dt)%Q g) /\
     ((betweenWavesTimer g - dt <= 0)%Q ->
        isBetweenWaves (HandleWaveProgression dt g) = false /\
        waveSpawnTimer (HandleWaveProgression dt g) = 0%Q /\
        currentUnitTypeIndex (HandleWaveProgression dt g) = 0%nat /\
        unitsSpawnedForCurrentType (HandleWaveProgression dt g) = 0)) /\
  (forall (dt : Q) (g : Game) (cw : GameWave),
     gameOver g = false -> isBetweenWaves g = false ->
     nth_error (waveList g) (currentWave g) = Some cw ->
     (List.length (waveUnits cw) <= currentUnitTypeIndex g)%nat ->
     isBetweenWaves (HandleWaveProgression dt g) = true /\
     betweenWavesTimer (HandleWaveProgression dt g) = waveCooldown cw /\
     units (HandleWaveProgression dt g) = units g /\
     currentWave (HandleWaveProgression dt g) = successor (waveList g) (currentWave g)) /\
  successor InitializeWaves 7 = 0%nat /\
  option_map waveNumber (nth_error InitializeWaves 7) = Some 8 /\
  option_map waveNumber (nth_error InitializeWaves 0) = Some 1.
Proof.
  split; [|split; [|repeat split]].
  - intros dt g cw Hgo Hb Hcw.
    rewrite (HandleWaveProgression_cooldown dt g cw Hgo Hb Hcw).
    destruct (Qle_bool (betweenWavesTimer g - dt) 0) eqn:E.
    + apply Qle_bool_iff in E. repeat split; try reflexivity.
      intros Hpos. exfalso. exact (Qlt_not_le _ _ Hpos E).
    + apply Qle_bool_false_iff in E.
      repeat split; try reflexivity;
        try (intros; exfalso; eapply Qlt_not_le; eassumption).
      intros _. destruct g. simpl in Hb. subst. reflexivity.
  - intros dt g cw Hgo Hb Hcw Hidx.
    rewrite (HandleWaveProgression_enter_cooldown dt g cw Hgo Hb Hcw Hidx).
    repeat split.
Qed.

Lemma cooldown_witness :
  currentWave wave1_cooldown = 1%nat /\
  isBetweenWaves wave1_cooldown = true /\
  betweenWavesTimer wave1_cooldown = 10%Q /\
  currentWave (HandleWaveProgression 4 wave1_cooldown) = 1%nat /\
  HandleWaveProgression 4 wave1_cooldown = set_betweenWavesTimer (10 - 4)%Q wave1_cooldown /\
  isBetweenWaves (HandleWaveProgression 10 wave1_cooldown) = false /\
  currentWave (HandleWaveProgression 10 wave1_cooldown) = 1%nat /\
  currentUnitTypeIndex (HandleWaveProgression 10 wave1_cooldown) = 0%nat.
Proof.
  destruct cooldown_then_next_wave as (Hcool & Henter & _).
  destruct (Henter (1#60) wave1_done (nth 0 InitializeWaves (mkGameWave 0 [] 0 0)))
    as (H1 & H2 & _ & H3); try reflexivity.
  destruct (Hcool 4%Q wave1_cooldown (nth 1 InitializeWaves (mkGameWave 0 [] 0 0)))
    as (_ & H4 & _ & _ & H5 & _); try reflexivity.
  destruct (Hcool 10%Q wave1_cooldown (nth 1 InitializeWaves (mkGameWave 0 [] 0 0)))
    as (_ & H6 & _ & _ & _ & H7); try reflexivity.
  destruct H7 as (H7 & _ & H8 & _); [vm_compute; discriminate|].
  split; [exact H3|]. split; [exact H1|]. split; [exact H2|].
  split; [exact H4|]. split; [apply H5; reflexivity|].
  split; [exact H7|]. split; [exact H6|exact H8].
Defined.

(** ** Reset as a function *)

(** On a game value whose chain has wrapped - a value no run of the
    program produces - wave 1 still spawns every 3.6 seconds after the
    restart, not every 4. *)
Lemma restart_keeps_decayed_intervals :
  ~ @restart_restores reference_lib over_after_wrap.
Proof.
  intros H.
  destruct (H 0%Q (mkInput false true) eq_refl eq_refl) as (g' & Hup & Heq).
  vm_compute in Hup. inversion Hup; subst g'; clear Hup.
  apply (f_equal (fun g => map spawnRate (waveList g))) in Heq.
  vm_compute in Heq. discriminate.
Qed.

(** X11. On any game value [Reset], and so the restart from the game-over
    screen, empties the units and effects, rebuilds both towers at full
    health, and puts elixir, timers, freeze and the position in the wave
    chain back to their starting values, the match being played again; the
    chain itself, with each wave's spawn interval, is left as it was.  The
    state is the initial one exactly when the chain is the initial chain. *)
Theorem restart_restores_all_but_chain (L : StdLib) (dt : Q) (keys : Input) (g : Game) :
  set_currentState PLAYING (Reset g) =
    set_next_ptr (next_ptr g) (set_waveList (waveList g) initial_playing) /\
  (currentState g = GAME_OVER -> KEY_R keys = true ->
   Game_Update dt keys g =
     Some (set_next_ptr (next_ptr g) (set_waveList (waveList g) initial_playing))) /\
  (currentState g = GAME_OVER -> KEY_R keys = false -> Game_Update dt keys g = Some g) /\
  (set_next_ptr 0%nat (set_currentState PLAYING (Reset g)) = initial_playing <->
   waveList g = InitializeWaves) /\
  t_currentHP (playerTower (Reset g)) = TOWER_HP /\
  t_currentHP (enemyTower (Reset g)) = TOWER_HP /\
  t_isAlive (playerTower (Reset g)) = true /\
  t_isAlive (enemyTower (Reset g)) = true /\
  units (Reset g) = [] /\ projectiles (Reset g) = [] /\
  playerElixir (Reset g) = 5 /\ gameTimer (Reset g) = GAME_TIME_LIMIT /\
  freezeAvailable (Reset g) = true /\ gameOver (Reset g) = false /\
  currentWave (Reset g) = 0%nat /\ isBetweenWaves (Reset g) = false /\
  waveList (Reset g) = waveList g.
Proof.
  split; [reflexivity|]. split; [|split; [|split]].
  - intros Hs Hk. unfold Game_Update. rewrite Hs, Hk. reflexivity.
  - intros Hs Hk. unfold Game_Update. rewrite Hs, Hk. reflexivity.
  - split.
    + intros H. apply (f_equal waveList) in H. exact H.
    + intros H. unfold Reset. rewrite H. reflexivity.
  - repeat split.
Qed.

Lemma restart_witness :
  @Game_Update reference_lib 0 (mkInput false true) over_after_wrap =
    Some (set_waveList (speed_up InitializeWaves) initial_playing) /\
  @Game_Update reference_lib 0 (mkInput false true)
     (set_currentState GAME_OVER (set_gameOver true (playing []))) =
    Some initial_playing.
Proof.
  destruct (restart_restores_all_but_chain reference_lib 0 (mkInput false true) over_after_wrap)
    as (_ & H1 & _).
  destruct (restart_restores_all_but_chain reference_lib 0 (mkInput false true)
              (set_currentState GAME_OVER (set_gameOver true (playing []))))
    as (_ & H2 & _).
  split; [rewrite H1|rewrite H2]; reflexivity.
Defined.

(** ** The visit of a unit at the lane end *)

Lemma lane_end_player (p : Ptr) (u : Unit) (g : Game) :
  deref (units g) p = Some u -> isPlayer u = true ->
  (vx (t_position (enemyTower g)) - 60 <= vx (position u))%Q ->
  exists g', lane_end p g = Some g' /\
    hit_by (damage u) (enemyTower g) (enemyTower g') /\
    playerTower g' = playerTower g /\ units g' = units g /\
    projectiles g' =
      projectiles g ++ [Projectile_new (position u) (t_position (enemyTower g))].
Proof.
  intros Hu Hp Hx. unfold lane_end. rewrite Hu. cbn [bind]. rewrite Hp.
  apply Qle_bool_iff in Hx. rewrite Hx. cbn [andb].
  unfold hit_by. cbn -[Z.sub Z.leb Z.max].
  destruct (t_currentHP (enemyTower g) - damage u <=? 0) eqn:E;
    eexists; (split; [reflexivity|]); cbn -[Z.sub Z.leb Z.max];
    repeat split; try reflexivity.
  - apply Z.leb_le in E. lia.
  - apply Z.leb_gt in E. lia.
Qed.

Lemma lane_end_enemy (p : Ptr) (u : Unit) (g : Game) :
  deref (units g) p = Some u -> isPlayer u = false ->
  (vx (position u) <= vx (t_position (playerTower g)) + 60)%Q ->
  exists g', lane_end p g = Some g' /\
    hit_by (damage u) (playerTower g) (playerTower g') /\
    enemyTower g' = enemyTower g /\ units g' = units g /\
    projectiles g' =
      projectiles g ++ [Projectile_new (position u) (t_position (playerTower g))].
Proof.
  intros Hu Hp Hx. unfold lane_end. rewrite Hu. cbn [bind]. rewrite Hp.
  apply Qle_bool_iff in Hx. rewrite Hx. cbn [andb negb].
  unfold hit_by. cbn -[Z.sub Z.leb Z.max].
  destruct (t_currentHP (playerTower g) - damage u <=? 0) eqn:E;
    eexists; (split; [reflexivity|]); cbn -[Z.sub Z.leb Z.max];
    repeat split; try reflexivity.
  - apply Z.leb_le in E. lia.
  - apply Z.leb_gt in E. lia.
Qed.

Lemma frozen_tick_keeps (dt : Q) (u : Unit) :
  uid (frozen_tick dt u) = uid u /\ position (frozen_tick dt u) = position u /\
  attackTimer (frozen_tick dt u) = attackTimer u /\
  target (frozen_tick dt u) = target u /\ path (frozen_tick dt u) = path u /\
  isPlayer (frozen_tick dt u) = isPlayer u /\ damage (frozen_tick dt u) = damage u /\
  currentHP (frozen_tick dt u) = currentHP u /\ isAlive (frozen_tick dt u) = isAlive u.
Proof.
  unfold frozen_tick. cbn [freezeTimer set_freezeTimer].
  destruct (Qle_bool _ _); repeat split.
Qed.

Section LaneEnd.
Context {L : StdLib}.

Lemma Unit_Update_frozen_eq (dt : Q) (self : Ptr) (u : Unit) (us : list Unit) :
  deref us self = Some u -> isAlive u = true -> isFrozen u = true ->
  Unit_Update dt self us = Some (assign (frozen_tick dt u) us).
Proof.
  intros Hu Ha Hf. unfold Unit_Update. rewrite Hu. cbn [bind].
  rewrite Ha, Hf. reflexivity.
Qed.

(** The visit of a living unit: its update, then the lane-end check on the
    unit as the update left it. *)
Lemma visit_unit_lane_end (dt : Q) (p : Ptr) (u u' : Unit) (us' : list Unit) (g : Game) :
  deref (units g) p = Some u -> isAlive u = true ->
  Unit_Update dt p (units g) = Some us' -> deref us' p = Some u' ->
  (isPlayer u' = true ->
   (vx (t_position (enemyTower g)) - 60 <= vx (position u'))%Q ->
   exists g', visit_unit dt p g = Some g' /\
     hit_by (damage u') (enemyTower g) (enemyTower g') /\
     playerTower g' = playerTower g /\ units g' = us') /\
  (isPlayer u' = false ->
   (vx (position u') <= vx (t_position (playerTower g)) + 60)%Q ->
   exists g', visit_unit dt p g = Some g' /\
     hit_by (damage u') (playerTower g) (playerTower g') /\
     enemyTower g' = enemyTower g /\ units g' = us').
Proof.
  intros Hu Ha HU Hu'. unfold visit_unit. rewrite Hu. cbn [bind].
  rewrite Ha, HU. cbn [bind]. split; intros Hp Hx.
  - destruct (lane_end_player p u' (set_units us' g)) as (g' & E & Hh & Ht & Hus & _);
      try assumption.
    exists g'. repeat split; try assumption; apply Hh.
  - destruct (lane_end_enemy p u' (set_units us' g)) as (g' & E & Hh & Ht & Hus & _);
      try assumption.
    exists g'. repeat split; try assumption; apply Hh.
Qed.

End LaneEnd.

(** The visit of a unit on any game value.  In the unit loop of a tick,
    the visit of a living unit that is
    frozen runs only its freeze timer (position, attack timer and target
    stay) and then applies the lane-end check all the same: a player unit
    at or beyond 60 units before the enemy tower takes its damage off that
    tower's health, an enemy unit at or within 60 units of the player tower
    off that one's, the health being clamped at 0 and the tower marked not
    alive when the hit is lethal.  The same check follows the update of an
    unfrozen living unit, on the position the update left it at. *)
Theorem lane_end_damage_ignores_freeze (L : StdLib) (dt : Q) (p : Ptr) (u : Unit) (g : Game) :
  deref (units g) p = Some u -> isAlive u = true ->
  (isFrozen u = true ->
   (isPlayer u = true ->
    (vx (t_position (enemyTower g)) - 60 <= vx (position u))%Q ->
    exists g' u', visit_unit dt p g = Some g' /\
      hit_by (damage u) (enemyTower g) (enemyTower g') /\
      playerTower g' = playerTower g /\
      deref (units g') p = Some u' /\ position u' = position u /\
      attackTimer u' = attackTimer u /\ target u' = target u) /\
   (isPlayer u = false ->
    (vx (position u) <= vx (t_position (playerTower g)) + 60)%Q ->
    exists g' u', visit_unit dt p g = Some g' /\
      hit_by (damage u) (playerTower g) (playerTower g') /\
      enemyTower g' = enemyTower g /\
      deref (units g') p = Some u' /\ position u' = position u /\
      attackTimer u' = attackTimer u /\ target u' = target u)) /\
  (forall us' u',
     Unit_Update dt p (units g) = Some us' -> deref us' p = Some u' ->
     (isPlayer u' = true ->
      (vx (t_position (enemyTower g)) - 60 <= vx (position u'))%Q ->
      exists g', visit_unit dt p g = Some g' /\
        hit_by (damage u') (enemyTower g) (enemyTower g') /\
        playerTower g' = playerTower g /\ units g' = us') /\
     (isPlayer u' = false ->
      (vx (position u') <= vx (t_position (playerTower g)) + 60)%Q ->
      exists g', visit_unit dt p g = Some g' /\
        hit_by (damage u') (playerTower g) (playerTower g') /\
        enemyTower g' = enemyTower g /\ units g' = us')).
Proof.
  intros Hu Ha. split.
  - intros Hf.
    pose proof (Unit_Update_frozen_eq dt p u (units g) Hu Ha Hf) as HU.
    destruct (frozen_tick_keeps dt u) as (Eid & Epos & Eat & Etg & _ & Epl & Edmg & _).
    assert (Hd : deref (assign (frozen_tick dt u) (units g)) p = Some (frozen_tick dt u)).
    { pose proof (deref_uid _ _ _ Hu) as Eu. rewrite <- Eu, <- Eid.
      eapply deref_assign_same. rewrite Eid, Eu. exact Hu. }
    destruct (visit_unit_lane_end dt p u _ _ g Hu Ha HU Hd) as [Hpl Hen].
    rewrite Epl, Epos, Edmg in Hpl, Hen.
    split; intros Hp Hx.
    + destruct (Hpl Hp Hx) as (g' & Hv & Hh & Ht & Hus).
      exists g', (frozen_tick dt u). rewrite Hus.
      split; [exact Hv|]. split; [exact Hh|]. split; [exact Ht|].
      split; [exact Hd|]. split; [exact Epos|]. split; [exact Eat|exact Etg].
    + destruct (Hen Hp Hx) as (g' & Hv & Hh & Ht & Hus).
      exists g', (frozen_tick dt u). rewrite Hus.
      split; [exact Hv|]. split; [exact Hh|]. split; [exact Ht|].
      split; [exact Hd|]. split; [exact Epos|]. split; [exact Eat|exact Etg].
  - intros us' u' HU Hd. exact (visit_unit_lane_end dt p u u' us' g Hu Ha HU Hd).
Qed.

Lemma lane_end_witness :
  (exists g' u', @visit_unit reference_lib (1#60) 2%nat frozen_game = Some g' /\
     t_currentHP (playerTower g') = 3460 /\
     deref (units g') 2%nat = Some u' /\ position u' = lane_point 100 /\
     attackTimer u' = 0%Q) /\
  (exists g', @Game_Update reference_lib (1#60) no_keys frozen_game = Some g' /\
     t_currentHP (playerTower g') = 3460 /\
     map (fun v => vx (position v)) (units g') = [500#1; 530#1; 100#1]%Q /\
     map isFrozen (units g') = [false; true; true]).
Proof.
  split.
  - assert (Hu : deref (units frozen_game) 2%nat = Some frozen_archer)
      by (vm_compute; reflexivity).
    destruct (lane_end_damage_ignores_freeze reference_lib (1#60) 2%nat
                frozen_archer frozen_game Hu eq_refl) as [Hfz _].
    destruct (Hfz eq_refl) as [_ Hen].
    destruct Hen as (g' & u' & Hv & Hh & _ & Hd & Hpos & Hat & _);
      [reflexivity|vm_compute; discriminate|].
    exists g', u'. destruct Hh as (Hhp & _).
    split; [exact Hv|]. split; [rewrite Hhp; vm_compute; reflexivity|].
    split; [exact Hd|]. split; [rewrite Hpos; reflexivity|rewrite Hat; reflexivity].
  - eexists. split; [vm_compute; reflexivity|].
    split; [vm_compute; reflexivity|]. split; vm_compute; reflexivity.
Defined.

(** ** What the unit loop and the tower attacks leave alone *)

Lemma lane_end_fixed (p : Ptr) (g g' : Game) :
  lane_end p g = Some g' -> fixed g' = fixed g.
Proof.
  unfold lane_end. destruct (deref (units g) p) as [u|]; [|discriminate].
  cbn [bind].
  destruct (isPlayer u && Qle_bool _ _).
  - cbn -[Z.sub Z.leb]. destruct (_ <=? 0); intros E; inversion E; reflexivity.
  - destruct (negb (isPlayer u) && Qle_bool _ _); [|intros E; inversion E; reflexivity].
    cbn -[Z.sub Z.leb]. destruct (_ <=? 0); intros E; inversion E; reflexivity.
Qed.

Lemma lane_end_units (p : Ptr) (g g' : Game) :
  lane_end p g = Some g' -> units g' = units g.
Proof.
  unfold lane_end. destruct (deref (units g) p) as [u|]; [|discriminate].
  cbn [bind].
  destruct (isPlayer u && Qle_bool _ _).
  - cbn -[Z.sub Z.leb]. destruct (_ <=? 0); intros E; inversion E; reflexivity.
  - destruct (negb (isPlayer u) && Qle_bool _ _); [|intros E; inversion E; reflexivity].
    cbn -[Z.sub Z.leb]. destruct (_ <=? 0); intros E; inversion E; reflexivity.
Qed.

Lemma tower_strike_fixed (t t' : Tower) (g g' : Game) :
  tower_strike t g = Some (t', g') ->
  fixed g' = fixed g /\
  targetQueue t' = targetQueue t /\ t_position t' = t_position t /\
  t_isPlayer t' = t_isPlayer t /\ t_damage t' = t_damage t /\
  t_maxHP t' = t_maxHP t /\ t_currentHP t' = t_currentHP t /\
  t_isAlive t' = t_isAlive t.
Proof.
  unfold tower_strike. destruct (CanAttack t); [|intros E; inversion E; repeat split].
  destruct (GetBestTarget t) as [p|]; [|intros E; inversion E; repeat split].
  destruct (deref (units g) p) as [b|]; [|discriminate].
  cbn [bind]. intros E; inversion E; repeat split.
Qed.

Lemma HandleTowerAttacks_fixed (g g' : Game) :
  HandleTowerAttacks g = Some g' -> fixed g' = fixed g.
Proof.
  unfold HandleTowerAttacks.
  destruct (tower_strike (playerTower g) g) as [[t1 g1]|] eqn:E1; [|discriminate].
  cbn [bind fst snd].
  destruct (tower_strike (enemyTower (set_playerTower t1 g1)) (set_playerTower t1 g1))
    as [[t2 g2]|] eqn:E2; [|discriminate].
  cbn [bind fst snd]. intros E; inversion E; subst g'; clear E.
  apply tower_strike_fixed in E1. apply tower_strike_fixed in E2.
  destruct E1 as (F1 & Q1 & P1 & I1 & D1 & M1 & _), E2 as (F2 & Q2 & P2 & I2 & D2 & M2 & _).
  unfold fixed in *. cbn in *.
  injection F1 as ?. injection F2 as ?. congruence.
Qed.

Section LoopFrame.
Context {L : StdLib}.

Lemma visit_unit_fixed (dt : Q) (p : Ptr) (g g' : Game) :
  visit_unit dt p g = Some g' -> fixed g' = fixed g.
Proof.
  unfold visit_unit. destruct (deref (units g) p) as [u|]; [|discriminate].
  cbn [bind]. destruct (isAlive u).
  - destruct (Unit_Update dt p (units g)) as [us|]; [|discriminate].
    cbn [bind]. intros E. apply lane_end_fixed in E. exact E.
  - intros E; inversion E; reflexivity.
Qed.

Lemma units_loop_fixed (dt : Q) (its : list Ptr) (g g' : Game) :
  units_loop dt its g = Some g' -> fixed g' = fixed g.
Proof.
  revert g. induction its as [|p its IH]; intros g; simpl.
  - intros E; inversion E; reflexivity.
  - destruct (visit_unit dt p g) as [g1|] eqn:E1; [|discriminate].
    cbn [bind]. intros E. rewrite (IH _ E). now apply visit_unit_fixed in E1.
Qed.

End LoopFrame.

(** ** The tick of a match being played *)

Section Tick.
Context {L : StdLib}.

(** [Game::Update] in a match being played, step by step. *)
Lemma Game_Update_playing (dt : Q) (keys : Input) (g : Game) :
  currentState g = PLAYING -> gameOver g = false ->
  Game_Update dt keys g =
    (let g5 := clocks dt g in
     let g6 := set_playerTower (Tower_Update dt (units g5) (playerTower g5)) g5 in
     let g7 := set_enemyTower (Tower_Update dt (units g6) (enemyTower g6)) g6 in
     g8 <- units_loop dt (map uid (units g7)) g7 ;;
     let g9 := set_projectiles
                 (filter active (map (Projectile_Update dt) (projectiles g8))) g8 in
     g10 <- HandleTowerAttacks g9 ;;
     Some (HandleWaveProgression dt g10)).
Proof.
  intros Hs Hg. unfold Game_Update, clocks. rewrite Hs, Hg. cbv zeta. reflexivity.
Qed.

Lemma Game_Update_over (dt : Q) (keys : Input) (g : Game) :
  currentState g = PLAYING -> gameOver g = true ->
  Game_Update dt keys g = Some (set_currentState GAME_OVER g).
Proof.
  intros Hs Hg. unfold Game_Update. rewrite Hs, Hg. reflexivity.
Qed.

End Tick.

(** The clocks leave the units, the towers and the wave sequencer alone. *)
Lemma clocks_keeps (dt : Q) (g : Game) :
  units (clocks dt g) = units g /\ playerTower (clocks dt g) = playerTower g /\
  enemyTower (clocks dt g) = enemyTower g /\
  currentState (clocks dt g) = currentState g /\
  next_ptr (clocks dt g) = next_ptr g /\
  (waveList (clocks dt g), currentWave (clocks dt g), waveSpawnTimer (clocks dt g),
   currentUnitTypeIndex (clocks dt g), unitsSpawnedForCurrentType (clocks dt g),
   isBetweenWaves (clocks dt g), betweenWavesTimer (clocks dt g)) =
  (waveList g, currentWave g, waveSpawnTimer g, currentUnitTypeIndex g,
   unitsSpawnedForCurrentType g, isBetweenWaves g, betweenWavesTimer g).
Proof.
  unfold clocks.
  destruct (negb (freezeAvailable g)); cbn -[Qminus Qplus Qle_bool Z.ltb];
    repeat match goal with |- context [if ?b then _ else _] => destruct b; cbn -[Qminus Qplus Qle_bool Z.ltb] end;
    repeat split.
Qed.

Lemma HandleWaveProgression_towers (dt : Q) (g : Game) :
  playerTower (HandleWaveProgression dt g) = playerTower g /\
  enemyTower (HandleWaveProgression dt g) = enemyTower g.
Proof.
  unfold HandleWaveProgression.
  destruct (nth_error (waveList g) (currentWave g)) as [cw|]; [|now split].
  destruct (gameOver g); [now split|].
  destruct (isBetweenWaves g).
  - cbn -[Qminus Qle_bool]. destruct (Qle_bool _ _); now split.
  - cbn -[Qplus Qle_bool nth_error Nat.ltb speed_up].
    destruct (nth_error (waveUnits cw) (currentUnitTypeIndex g)) as [wu|].
    + destruct (_ && _); [|now split].
      cbn -[Qplus Qle_bool Z.geb Z.add]. destruct (_ >=? _); now split.
    + cbn -[Qplus Nat.ltb speed_up]. destruct (Nat.ltb _ _); now split.
Qed.

Lemma fixed_damage (a b : Game) :
  fixed a = fixed b ->
  t_damage (playerTower a) = t_damage (playerTower b) /\
  t_damage (enemyTower a) = t_damage (enemyTower b).
Proof.
  unfold fixed. intros E. injection E as ?. now split.
Qed.

Lemma fixed_queues (a b : Game) :
  fixed a = fixed b ->
  targetQueue (playerTower a) = targetQueue (playerTower b) /\
  targetQueue (enemyTower a) = targetQueue (enemyTower b).
Proof.
  unfold fixed. intros E. injection E as ?. now split.
Qed.

Section Requeue.
Context {L : StdLib}.

Lemma Tower_Update_queue (dt : Q) (us : list Unit) (tw : Tower) :
  t_isAlive tw = true ->
  targetQueue (Tower_Update dt us tw) =
  fold_left (push_heap TowerTargetPriority) (towerCandidates tw us) [].
Proof.
  intros Ha. unfold Tower_Update. rewrite Ha. cbn [negb].
  rewrite UpdateTargetQueue_pushes. reflexivity.
Qed.

(** After a tick of a match being played the queue of a living tower holds
    the candidates among the units the tick started with, and nothing of
    the queue before. *)
Lemma tick_requeues (dt : Q) (keys : Input) (g g' : Game) :
  currentState g = PLAYING -> gameOver g = false ->
  Game_Update dt keys g = Some g' ->
  (t_isAlive (playerTower g) = true ->
   targetQueue (playerTower g') =
   fold_left (push_heap TowerTargetPriority) (towerCandidates (playerTower g) (units g)) []) /\
  (t_isAlive (enemyTower g) = true ->
   targetQueue (enemyTower g') =
   fold_left (push_heap TowerTargetPriority) (towerCandidates (enemyTower g) (units g)) []).
Proof.
  intros Hs Hg HU. rewrite (Game_Update_playing dt keys g Hs Hg) in HU.
  cbv zeta in HU.
  destruct (clocks_keeps dt g) as (Eu & Ep & Ee & _).
  set (g5 := clocks dt g) in *.
  set (g6 := set_playerTower (Tower_Update dt (units g5) (playerTower g5)) g5) in *.
  set (g7 := set_enemyTower (Tower_Update dt (units g6) (enemyTower g6)) g6) in *.
  destruct (units_loop dt (map uid (units g7)) g7) as [g8|] eqn:E8; [|discriminate].
  cbn [bind] in HU.
  destruct (HandleTowerAttacks _) as [g10|] eqn:E10; [|discriminate].
  cbn [bind] in HU. inversion HU; subst g'; clear HU.
  apply units_loop_fixed, fixed_queues in E8.
  apply HandleTowerAttacks_fixed, fixed_queues in E10. cbn in E10.
  destruct (HandleWaveProgression_towers dt g10) as [-> ->].
  destruct E8 as [E8p E8e], E10 as [E10p E10e].
  rewrite E10p, E10e, E8p, E8e. subst g7 g6. cbn [playerTower enemyTower set_enemyTower set_playerTower units].
  rewrite Ep, Ee, Eu. split; intros Ha; now apply Tower_Update_queue.
Qed.

End Requeue.

(** ** Health only goes down, the dead stay dead *)

Lemma ages_refl (u : Unit) : ages u u.
Proof. unfold ages. repeat split; auto. lia. Qed.

Lemma ages_trans (u v w : Unit) : ages u v -> ages v w -> ages u w.
Proof.
  unfold ages. intros (A1 & A2 & A3 & A4 & A5 & A6) (B1 & B2 & B3 & B4 & B5 & B6).
  repeat split; try congruence; try lia; auto.
  intros Hw. destruct (B6 Hw) as [Hv|Hv]; [|now right].
  destruct (A6 Hv) as [Hu|Hu]; [now left|right; lia].
Qed.

Lemma aged_refl (us : list Unit) : aged us us.
Proof. intros u Hu. exists u. split; [exact Hu|apply ages_refl]. Qed.

Lemma aged_trans (us vs ws : list Unit) : aged us vs -> aged vs ws -> aged us ws.
Proof.
  intros H1 H2 w Hw. destruct (H2 w Hw) as (v & Hv & Hvw).
  destruct (H1 v Hv) as (u & Hu & Huv).
  exists u. split; [exact Hu|]. eapply ages_trans; eauto.
Qed.

Lemma aged_map (f : Unit -> Unit) (us : list Unit) :
  (forall v, In v us -> ages v (f v)) -> aged us (map f us).
Proof.
  intros Hf u' Hu'. apply in_map_iff in Hu'. destruct Hu' as (v & <- & Hv).
  exists v. split; [exact Hv|]. now apply Hf.
Qed.

Lemma aged_assign (u v : Unit) (us : list Unit) :
  In u us -> ages u v -> aged us (assign v us).
Proof.
  intros Hu Huv. unfold assign. intros w Hw.
  apply in_map_iff in Hw. destruct Hw as (x & <- & Hx).
  destruct (Nat.eqb (uid x) (uid v)).
  - exists u. split; assumption.
  - exists x. split; [exact Hx|apply ages_refl].
Qed.

Lemma aged_erase (p : Ptr) (us : list Unit) : aged us (erase p us).
Proof.
  intros u Hu. unfold erase in Hu. apply filter_In in Hu.
  exists u. split; [tauto|apply ages_refl].
Qed.

Lemma aged_nonneg (us us' : list Unit) :
  aged us us' -> nonneg_damage us -> nonneg_damage us'.
Proof.
  intros Ha Hn u' Hu'. destruct (Ha u' Hu') as (u & Hu & (_ & _ & E & _)).
  rewrite E. now apply Hn.
Qed.

Lemma Attack_aged (self : Ptr) (tg : option Ptr) (us us' : list Unit) :
  nonneg_damage us -> Attack self tg us = Some us' -> aged us us'.
Proof.
  intros Hn. unfold Attack. destruct tg as [tp|]; [|intros E; inversion E; apply aged_refl].
  destruct (deref us tp) as [t|] eqn:Ht; [|discriminate]. cbn [bind].
  destruct (isAlive t) eqn:Hat; cbn [negb]; [|intros E; inversion E; apply aged_refl].
  destruct (deref us self) as [me|] eqn:Hme; [|discriminate]. cbn [bind].
  set (t0 := set_currentHP (currentHP t - damage me) t).
  assert (H1 : aged us (assign t0 us)).
  { apply (aged_assign t); [eapply deref_In; eauto|].
    pose proof (Hn me (deref_In _ _ _ Hme)).
    unfold ages, t0. simpl. repeat split; auto; lia. }
  destruct (deref (assign t0 us) self) as [me1|] eqn:Hme1; [|discriminate]. cbn [bind].
  destruct (deref (assign t0 us) tp) as [t1|] eqn:Ht1; [|discriminate]. cbn [bind].
  set (us2 := if UnitType_eqb (type me1) WIZARD then _ else _).
  assert (H2 : aged (assign t0 us) us2).
  { subst us2. destruct (UnitType_eqb (type me1) WIZARD); [|apply aged_refl].
    apply aged_map. intros v Hv.
    destruct (_ && _); [|apply ages_refl].
    destruct (Qlt_bool _ _); [|apply ages_refl].
    assert (0 <= damage me1)
      by (apply (aged_nonneg _ _ H1 Hn), (deref_In _ _ _ Hme1)).
    assert (0 <= Z.quot (damage me1) 2) by (apply Z.quot_pos; lia).
    unfold ages. simpl. repeat split; auto; lia. }
  destruct (deref us2 tp) as [t2|] eqn:Ht2; [|discriminate]. cbn [bind].
  destruct (currentHP t2 <=? 0) eqn:Hhp.
  - set (us3 := assign (set_isAlive false t2) us2).
    assert (H3 : aged us2 us3).
    { apply (aged_assign t2); [eapply deref_In; eauto|].
      apply Z.leb_le in Hhp. unfold ages. simpl. repeat split; auto; lia. }
    destruct (deref us3 self) as [me3|] eqn:Hme3; [|discriminate]. cbn [bind].
    intros E; inversion E; subst us'; clear E.
    eapply aged_trans; [exact H1|]. eapply aged_trans; [exact H2|].
    eapply aged_trans; [exact H3|].
    apply (aged_assign me3); [eapply deref_In; eauto|].
    unfold ages. simpl. repeat split; auto; lia.
  - intros E; inversion E; subst us'.
    eapply aged_trans; eauto.
Qed.

Lemma FollowPath_ages (dt : Q) (u : Unit) : ages u (FollowPath dt u).
Proof.
  unfold FollowPath. destruct (path u) as [|w rest]; [apply ages_refl|].
  destruct (Qlt_bool _ _).
  - destruct rest; unfold ages; simpl; repeat split; auto; lia.
  - unfold ages; simpl; repeat split; auto; lia.
Qed.

Section Ageing.
Context {L : StdLib}.

Lemma FindTargetWithPriority_ages (u : Unit) (us : list Unit) :
  ages u (FindTargetWithPriority u us).
Proof.
  unfold FindTargetWithPriority.
  destruct (potentialTargets u us); unfold ages; simpl; repeat split; auto; lia.
Qed.

Lemma Unit_Update_aged (dt : Q) (self : Ptr) (us us' : list Unit) :
  nonneg_damage us -> Unit_Update dt self us = Some us' -> aged us us'.
Proof.
  intros Hn. unfold Unit_Update.
  destruct (deref us self) as [u|] eqn:Hu; [|discriminate]. cbn [bind].
  pose proof (deref_In _ _ _ Hu) as Hin.
  destruct (isAlive u); cbn [negb]; [|intros E; inversion E; apply aged_refl].
  destruct (isFrozen u).
  - intros E; inversion E; subst us'; clear E.
    apply (aged_assign u); [exact Hin|].
    cbn [freezeTimer set_freezeTimer].
    destruct (Qle_bool _ _); unfold ages; simpl; repeat split; auto; lia.
  - destruct (target_lost us u) as [lost|]; [|discriminate]. cbn [bind].
    set (u1 := if lost then FindTargetWithPriority u us else u).
    assert (Hu1 : ages u u1)
      by (subst u1; destruct lost; [apply FindTargetWithPriority_ages|apply ages_refl]).
    assert (H1 : aged us (assign u1 us)) by (apply (aged_assign u); assumption).
    assert (Hd1 : deref (assign u1 us) self = Some u1).
    { pose proof (deref_uid _ _ _ Hu) as Eu. destruct Hu1 as (Eid & _).
      rewrite <- Eu, <- Eid. eapply deref_assign_same. rewrite Eid, Eu. exact Hu. }
    destruct (target_lost (assign u1 us) u1) as [lost1|]; [|discriminate]. cbn [bind].
    assert (HF : forall v, ages u1 v -> aged us (assign v (assign u1 us))).
    { intros v Hv. eapply aged_trans; [exact H1|].
      apply (aged_assign u1); [eapply deref_In; eauto|exact Hv]. }
    destruct lost1; cbn [negb].
    + intros E; inversion E. apply HF, FollowPath_ages.
    + destruct (target u1) as [tp|]; [|discriminate]. cbn [bind].
      destruct (deref (assign u1 us) tp) as [t|]; [|discriminate]. cbn [bind].
      destruct (Qle_bool _ _).
      * set (u2 := set_attackTimer (attackTimer u1 + dt)%Q u1).
        assert (H2 : aged us (assign u2 (assign u1 us)))
          by (apply HF; unfold ages; simpl; repeat split; auto; lia).
        destruct (Qle_bool (attackRate u2) (attackTimer u2)).
        -- destruct (Attack self (target u2) _) as [us3|] eqn:EA; [|discriminate].
           cbn [bind].
           apply Attack_aged in EA; [|eapply aged_nonneg; eauto].
           destruct (deref us3 self) as [u3|] eqn:Hu3; [|discriminate]. cbn [bind].
           intros E; inversion E; subst us'; clear E.
           eapply aged_trans; [exact H2|]. eapply aged_trans; [exact EA|].
           apply (aged_assign u3); [eapply deref_In; eauto|].
           unfold ages; simpl; repeat split; auto; lia.
        -- intros E; inversion E. exact H2.
      * intros E; inversion E. apply HF.
        eapply ages_trans; [apply FollowPath_ages|].
        unfold ages; simpl; repeat split; auto; lia.
Qed.

End Ageing.

Lemma ages_healthy (u u' : Unit) : healthy u -> ages u u' -> healthy u'.
Proof.
  unfold healthy, ages. intros (H1 & H2) (_ & E & _ & Hle & _ & Hd).
  split; [lia|]. intros Ha. destruct (Hd Ha) as [Hu|Hu]; [|exact Hu].
  specialize (H2 Hu). lia.
Qed.

Lemma Unit_new_healthy (p : Ptr) (t : UnitType) (player : bool) :
  healthy (Unit_new p t player) /\ isAlive (Unit_new p t player) = true /\
  0 <= damage (Unit_new p t player).
Proof.
  destruct t, player; unfold healthy; repeat split; simpl; try lia; discriminate.
Qed.

Lemma tower_strike_aged (t t' : Tower) (g g' : Game) :
  0 <= t_damage t -> tower_strike t g = Some (t', g') -> aged (units g) (units g').
Proof.
  intros Hd. unfold tower_strike.
  destruct (CanAttack t); [|intros E; inversion E; apply aged_refl].
  destruct (GetBestTarget t) as [p|]; [|intros E; inversion E; apply aged_refl].
  destruct (deref (units g) p) as [b|] eqn:Hb; [|discriminate].
  cbn [bind]. intros E; inversion E; subst; clear E. cbn.
  apply (aged_assign b); [eapply deref_In; eauto|].
  unfold ages; simpl; repeat split; auto; lia.
Qed.

Lemma HandleTowerAttacks_aged (g g' : Game) :
  0 <= t_damage (playerTower g) -> 0 <= t_damage (enemyTower g) ->
  HandleTowerAttacks g = Some g' -> aged (units g) (units g').
Proof.
  intros Hp He. unfold HandleTowerAttacks.
  destruct (tower_strike (playerTower g) g) as [[t1 g1]|] eqn:E1; [|discriminate].
  cbn [bind fst snd].
  destruct (tower_strike (enemyTower (set_playerTower t1 g1)) (set_playerTower t1 g1))
    as [[t2 g2]|] eqn:E2; [|discriminate].
  cbn [bind fst snd]. intros E; inversion E; subst g'; clear E. cbn.
  pose proof (tower_strike_fixed _ _ _ _ E1) as (F1 & _).
  apply tower_strike_aged in E1; [|exact Hp].
  apply tower_strike_aged in E2.
  - cbn in E2. eapply aged_trans; eauto.
  - cbn [enemyTower set_playerTower]. apply fixed_damage in F1.
    destruct F1 as [_ ->]. exact He.
Qed.

Lemma HandleWaveProgression_units (dt : Q) (g : Game) :
  units (HandleWaveProgression dt g) = units g \/
  exists t, units (HandleWaveProgression dt g) = units g ++ [Unit_new (next_ptr g) t false].
Proof.
  unfold HandleWaveProgression.
  destruct (nth_error (waveList g) (currentWave g)) as [cw|]; [|now left].
  destruct (gameOver g); [now left|].
  destruct (isBetweenWaves g).
  - left. cbn -[Qminus Qle_bool]. destruct (Qle_bool _ _); reflexivity.
  - cbn -[Qplus Qle_bool nth_error Nat.ltb speed_up].
    destruct (nth_error (waveUnits cw) (currentUnitTypeIndex g)) as [wu|].
    + destruct (_ && _); [|now left]. right. exists (wu_type wu).
      cbn -[Qplus Qle_bool Z.geb Z.add]. destruct (_ >=? _); reflexivity.
    + left. cbn -[Qplus Nat.ltb speed_up]. destruct (Nat.ltb _ _); reflexivity.
Qed.

Section TickHealth.
Context {L : StdLib}.

Lemma Tower_Update_damage (dt : Q) (us : list Unit) (tw : Tower) :
  t_damage (Tower_Update dt us tw) = t_damage tw.
Proof.
  unfold Tower_Update. destruct (negb (t_isAlive tw)); reflexivity.
Qed.

Lemma visit_unit_aged (dt : Q) (p : Ptr) (g g' : Game) :
  nonneg_damage (units g) -> visit_unit dt p g = Some g' -> aged (units g) (units g').
Proof.
  intros Hn. unfold visit_unit.
  destruct (deref (units g) p) as [u|]; [|discriminate]. cbn [bind].
  destruct (isAlive u).
  - destruct (Unit_Update dt p (units g)) as [us|] eqn:EU; [|discriminate].
    cbn [bind]. intros E. apply lane_end_units in E. rewrite E. cbn.
    eapply Unit_Update_aged; eauto.
  - intros E; inversion E. cbn. apply aged_erase.
Qed.

Lemma units_loop_aged (dt : Q) (its : list Ptr) (g g' : Game) :
  nonneg_damage (units g) -> units_loop dt its g = Some g' -> aged (units g) (units g').
Proof.
  revert g. induction its as [|p its IH]; intros g Hn; simpl.
  - intros E; inversion E; apply aged_refl.
  - destruct (visit_unit dt p g) as [g1|] eqn:E1; [|discriminate].
    cbn [bind]. intros E. apply visit_unit_aged in E1; [|exact Hn].
    eapply aged_trans; [exact E1|]. apply IH; [|exact E].
    eapply aged_nonneg; eauto.
Qed.

(** Over a tick every unit still in the list is a later state of a unit
    the tick started with, or a unit spawned by the wave at full health. *)
Lemma tick_aged (dt : Q) (keys : Input) (g g' : Game) :
  currentState g = PLAYING -> nonneg_damage (units g) ->
  0 <= t_damage (playerTower g) -> 0 <= t_damage (enemyTower g) ->
  Game_Update dt keys g = Some g' ->
  forall u', In u' (units g') ->
    (exists u, In u (units g) /\ ages u u') \/
    (exists p t, u' = Unit_new p t false).
Proof.
  intros Hs Hn Hp He HU u' Hu'.
  destruct (gameOver g) eqn:Hg.
  - rewrite (Game_Update_over dt keys g Hs Hg) in HU. inversion HU; subst g'.
    left. exists u'. split; [exact Hu'|apply ages_refl].
  - rewrite (Game_Update_playing dt keys g Hs Hg) in HU. cbv zeta in HU.
    destruct (clocks_keeps dt g) as (Eu & Ep & Ee & _).
    set (g5 := clocks dt g) in *.
    set (g6 := set_playerTower (Tower_Update dt (units g5) (playerTower g5)) g5) in *.
    set (g7 := set_enemyTower (Tower_Update dt (units g6) (enemyTower g6)) g6) in *.
    assert (E7 : units g7 = units g) by exact Eu.
    destruct (units_loop dt (map uid (units g7)) g7) as [g8|] eqn:E8; [|discriminate].
    cbn [bind] in HU.
    destruct (HandleTowerAttacks _) as [g10|] eqn:E10; [|discriminate].
    cbn [bind] in HU. inversion HU; subst g'; clear HU.
    pose proof (units_loop_fixed _ _ _ _ E8) as F8.
    apply units_loop_aged in E8; [|rewrite E7; exact Hn].
    apply HandleTowerAttacks_aged in E10.
    + cbn in E10. rewrite E7 in E8.
      assert (Hag : aged (units g) (units g10)) by (eapply aged_trans; eauto).
      destruct (HandleWaveProgression_units dt g10) as [E|(t & E)]; rewrite E in Hu'.
      * left. now apply Hag.
      * apply in_app_or in Hu'. destruct Hu' as [Hu'|[<-|[]]].
        -- left. now apply Hag.
        -- right. eauto.
    + cbn [playerTower enemyTower set_projectiles].
      apply fixed_damage in F8. destruct F8 as [-> _].
      subst g7 g6. cbn [playerTower set_enemyTower set_playerTower].
      rewrite Tower_Update_damage, Ep. exact Hp.
    + cbn [playerTower enemyTower set_projectiles].
      apply fixed_damage in F8. destruct F8 as [_ ->].
      subst g7 g6. cbn [enemyTower set_enemyTower set_playerTower].
      rewrite Tower_Update_damage, Ee. exact He.
Qed.

(** Health within the maximum, dead only at non-positive health: kept by
    a tick; what a tick does not keep is that non-positive health means
    dead. *)
Lemma tick_healthy (dt : Q) (keys : Input) (g g' : Game) :
  currentState g = PLAYING -> nonneg_damage (units g) ->
  0 <= t_damage (playerTower g) -> 0 <= t_damage (enemyTower g) ->
  Forall healthy (units g) ->
  Game_Update dt keys g = Some g' ->
  Forall healthy (units g') /\ nonneg_damage (units g').
Proof.
  intros Hs Hn Hp He Hh HU. rewrite Forall_forall in Hh.
  pose proof (tick_aged dt keys g g' Hs Hn Hp He HU) as Hag.
  split; [rewrite Forall_forall|]; intros u' Hu'.
  - destruct (Hag u' Hu') as [(u & Hu & Ha)|(p & t & ->)].
    + eapply ages_healthy; eauto.
    + apply Unit_new_healthy.
  - destruct (Hag u' Hu') as [(u & Hu & (_ & _ & E & _))|(p & t & ->)].
    + rewrite E. now apply Hn.
    + apply Unit_new_healthy.
Qed.

End TickHealth.

(** ** The outcome of the match agrees with the towers *)

Lemma HandleWaveProgression_unsequenced (dt : Q) (g : Game) :
  unsequenced (HandleWaveProgression dt g) = unsequenced g.
Proof.
  unfold HandleWaveProgression.
  destruct (nth_error (waveList g) (currentWave g)) as [cw|]; [|reflexivity].
  destruct (gameOver g) eqn:Hg; [reflexivity|].
  destruct (isBetweenWaves g).
  - cbn -[Qminus Qle_bool]. destruct (Qle_bool _ _); reflexivity.
  - cbn -[Qplus Qle_bool nth_error Nat.ltb speed_up].
    destruct (nth_error (waveUnits cw) (currentUnitTypeIndex g)) as [wu|].
    + destruct (_ && _); [|reflexivity].
      cbn -[Qplus Qle_bool Z.geb Z.add]. destruct (_ >=? _); reflexivity.
    + cbn -[Qplus Nat.ltb speed_up]. destruct (Nat.ltb _ _); reflexivity.
Qed.

Lemma tower_ok_scratch (dmg : Z) (tw : Tower) :
  0 <= dmg -> tower_ok tw ->
  (t_currentHP tw - dmg <=? 0) = false ->
  tower_ok (set_t_currentHP (t_currentHP tw - dmg) tw).
Proof.
  intros Hd [(Ha & Hh)|(Ha & Hh)] E; apply Z.leb_gt in E; cbn.
  - left. cbn. split; [exact Ha|lia].
  - lia.
Qed.

(** The lane-end check keeps the outcome in line with the towers. *)
Lemma lane_end_outcome (p : Ptr) (g g' : Game) :
  nonneg_damage (units g) -> outcome_ok g ->
  lane_end p g = Some g' -> outcome_ok g' /\ (gameOver g = true -> gameOver g' = true).
Proof.
  intros Hn (Hp & He & Hon & Hover). unfold lane_end.
  destruct (deref (units g) p) as [u|] eqn:Hu; [|discriminate].
  cbn [bind]. pose proof (Hn u (deref_In _ _ _ Hu)) as Hd.
  destruct (isPlayer u && Qle_bool _ _).
  - cbn -[Z.sub Z.leb].
    destruct (t_currentHP (enemyTower g) - damage u <=? 0) eqn:E;
      intros X; inversion X; subst g'; clear X; cbn -[Z.sub].
    + split; [|reflexivity]. unfold outcome_ok. cbn -[Z.sub].
      split; [exact Hp|]. split; [right; split; reflexivity|].
      split; [discriminate|]. intros _. right. left. split; reflexivity.
    + split; [|auto]. unfold outcome_ok. cbn -[Z.sub].
      split; [exact Hp|]. split; [now apply tower_ok_scratch|].
      split; [exact Hon|].
      intros Hg. destruct (Hover Hg) as [H|[H|H]]; auto.
  - destruct (negb (isPlayer u) && Qle_bool _ _).
    + cbn -[Z.sub Z.leb].
      destruct (t_currentHP (playerTower g) - damage u <=? 0) eqn:E;
        intros X; inversion X; subst g'; clear X; cbn -[Z.sub].
      * split; [|reflexivity]. unfold outcome_ok. cbn -[Z.sub].
        split; [right; split; reflexivity|]. split; [exact He|].
        split; [discriminate|]. intros _. right. right. split; reflexivity.
      * split; [|auto]. unfold outcome_ok. cbn -[Z.sub].
        split; [now apply tower_ok_scratch|]. split; [exact He|].
        split; [exact Hon|].
        intros Hg. destruct (Hover Hg) as [H|[H|H]]; auto.
    + intros X; inversion X; subst g'. split; [|auto].
      unfold outcome_ok. auto.
Qed.

Lemma tower_strike_keeps (t t' : Tower) (g g' : Game) :
  tower_strike t g = Some (t', g') ->
  gameOver g' = gameOver g /\ winner g' = winner g /\
  playerTower g' = playerTower g /\ enemyTower g' = enemyTower g /\
  (projectiles g' = projectiles g \/
   exists a b, projectiles g' = projectiles g ++ [Projectile_new a b]).
Proof.
  unfold tower_strike.
  destruct (CanAttack t); [|intros E; inversion E; subst; repeat split; left; reflexivity].
  destruct (GetBestTarget t) as [p|];
    [|intros E; inversion E; subst; repeat split; left; reflexivity].
  destruct (deref (units g) p) as [b|]; [|discriminate].
  cbn [bind]. intros E; inversion E; repeat split. right.
  exists (t_position t), (position b). reflexivity.
Qed.

Lemma tower_ok_same (tw tw' : Tower) :
  t_currentHP tw' = t_currentHP tw -> t_isAlive tw' = t_isAlive tw ->
  t_maxHP tw' = t_maxHP tw -> tower_ok tw -> tower_ok tw'.
Proof. unfold tower_ok. intros -> -> ->. auto. Qed.

Lemma HandleTowerAttacks_outcome (g g' : Game) :
  outcome_ok g -> HandleTowerAttacks g = Some g' ->
  outcome_ok g' /\ gameOver g' = gameOver g.
Proof.
  intros (Hp & He & Hon & Hover). unfold HandleTowerAttacks.
  destruct (tower_strike (playerTower g) g) as [[t1 g1]|] eqn:E1; [|discriminate].
  cbn [bind fst snd].
  destruct (tower_strike (enemyTower (set_playerTower t1 g1)) (set_playerTower t1 g1))
    as [[t2 g2]|] eqn:E2; [|discriminate].
  cbn [bind fst snd]. intros E; inversion E; subst g'; clear E.
  destruct (tower_strike_fixed _ _ _ _ E1) as (_ & _ & _ & _ & _ & M1 & H1 & A1).
  destruct (tower_strike_fixed _ _ _ _ E2) as (_ & _ & _ & _ & _ & M2 & H2 & A2).
  destruct (tower_strike_keeps _ _ _ _ E1) as (G1 & W1 & P1 & Q1 & _).
  destruct (tower_strike_keeps _ _ _ _ E2) as (G2 & W2 & P2 & Q2 & _).
  cbn in *. unfold outcome_ok. cbn.
  rewrite G2, W2, P2, G1, W1, A1, A2, Q1.
  split; [|reflexivity].
  split; [eapply tower_ok_same; [exact H1|exact A1|exact M1|exact Hp]|].
  split; [eapply tower_ok_same; [rewrite H2, Q1; reflexivity|rewrite A2, Q1; reflexivity
                                 |rewrite M2, Q1; reflexivity|exact He]|].
  split; assumption.
Qed.

Lemma clocks_outcome (dt : Q) (g : Game) :
  outcome_ok g -> outcome_ok (clocks dt g) /\
  (gameOver g = true -> gameOver (clocks dt g) = true).
Proof.
  intros (Hp & He & Hon & Hover). unfold clocks, outcome_ok.
  destruct (negb (freezeAvailable g)); cbn -[Qminus Qplus Qle_bool Z.ltb];
    repeat match goal with
           | |- context [if ?b then _ else _] =>
               destruct b; cbn -[Qminus Qplus Qle_bool Z.ltb]
           end;
    repeat split; auto; try discriminate; intros; try (apply Hon; assumption).
Qed.

Section TickOutcome.
Context {L : StdLib}.

Lemma Tower_Update_ok (dt : Q) (us : list Unit) (tw : Tower) :
  t_currentHP (Tower_Update dt us tw) = t_currentHP tw /\
  t_isAlive (Tower_Update dt us tw) = t_isAlive tw /\
  t_maxHP (Tower_Update dt us tw) = t_maxHP tw.
Proof.
  unfold Tower_Update. destruct (negb (t_isAlive tw)); repeat split.
Qed.

Lemma visit_unit_outcome (dt : Q) (p : Ptr) (g g' : Game) :
  nonneg_damage (units g) -> outcome_ok g -> visit_unit dt p g = Some g' ->
  outcome_ok g' /\ (gameOver g = true -> gameOver g' = true).
Proof.
  intros Hn Ho. unfold visit_unit.
  destruct (deref (units g) p) as [u|]; [|discriminate]. cbn [bind].
  destruct (isAlive u).
  - destruct (Unit_Update dt p (units g)) as [us|] eqn:EU; [|discriminate].
    cbn [bind]. intros E. apply lane_end_outcome in E; [exact E| |exact Ho].
    cbn [units set_units]. eapply aged_nonneg; [|exact Hn].
    eapply Unit_Update_aged; eauto.
  - intros E; inversion E. split; [exact Ho|auto].
Qed.

Lemma units_loop_outcome (dt : Q) (its : list Ptr) (g g' : Game) :
  nonneg_damage (units g) -> outcome_ok g -> units_loop dt its g = Some g' ->
  outcome_ok g' /\ (gameOver g = true -> gameOver g' = true).
Proof.
  revert g. induction its as [|p its IH]; intros g Hn Ho; simpl.
  - intros E; inversion E; subst. split; [exact Ho|auto].
  - destruct (visit_unit dt p g) as [g1|] eqn:E1; [|discriminate].
    cbn [bind]. intros E.
    pose proof (visit_unit_aged _ _ _ _ Hn E1) as Ha.
    destruct (visit_unit_outcome _ _ _ _ Hn Ho E1) as (Ho1 & Hg1).
    destruct (IH g1 (aged_nonneg _ _ Ha Hn) Ho1 E) as (Ho' & Hg').
    split; [exact Ho'|auto].
Qed.

Lemma outcome_ok_towers (g g' : Game) :
  gameOver g' = gameOver g -> winner g' = winner g ->
  t_currentHP (playerTower g') = t_currentHP (playerTower g) ->
  t_isAlive (playerTower g') = t_isAlive (playerTower g) ->
  t_maxHP (playerTower g') = t_maxHP (playerTower g) ->
  t_currentHP (enemyTower g') = t_currentHP (enemyTower g) ->
  t_isAlive (enemyTower g') = t_isAlive (enemyTower g) ->
  t_maxHP (enemyTower g') = t_maxHP (enemyTower g) ->
  outcome_ok g -> outcome_ok g'.
Proof.
  unfold outcome_ok, tower_ok. intros -> -> -> -> -> -> -> ->. auto.
Qed.

Lemma unsequenced_outcome (a b : Game) :
  unsequenced a = unsequenced b -> outcome_ok b -> outcome_ok a.
Proof.
  unfold unsequenced. intros E. injection E as ?.
  unfold outcome_ok. congruence.
Qed.

Lemma Tower_Updates_outcome (dt : Q) (us1 us2 : list Unit) (g : Game) :
  outcome_ok g ->
  outcome_ok (set_enemyTower (Tower_Update dt us2 (enemyTower g))
                (set_playerTower (Tower_Update dt us1 (playerTower g)) g)).
Proof.
  intros Ho.
  destruct (Tower_Update_ok dt us1 (playerTower g)) as (A1 & A2 & A3).
  destruct (Tower_Update_ok dt us2 (enemyTower g)) as (B1 & B2 & B3).
  apply (outcome_ok_towers g); cbn [gameOver winner playerTower enemyTower set_enemyTower set_playerTower];
    try reflexivity; assumption.
Qed.

Lemma tick_outcome (dt : Q) (keys : Input) (g g' : Game) :
  nonneg_damage (units g) -> outcome_ok g -> Game_Update dt keys g = Some g' ->
  outcome_ok g' /\
  (currentState g = PLAYING -> gameOver g = true -> gameOver g' = true).
Proof.
  intros Hn Ho HU. destruct (currentState g) eqn:Hs.
  - unfold Game_Update in HU. rewrite Hs in HU. inversion HU; subst g'.
    split; [|discriminate]. destruct (KEY_ENTER keys); exact Ho.
  - destruct (gameOver g) eqn:Hg.
    + rewrite (Game_Update_over dt keys g Hs Hg) in HU. inversion HU; subst g'.
      split; [|intros _ _; exact Hg]. exact Ho.
    + split; [|discriminate].
      rewrite (Game_Update_playing dt keys g Hs Hg) in HU. cbv zeta in HU.
      destruct (clocks_keeps dt g) as (Eu & Ep & Ee & _).
      destruct (clocks_outcome dt g Ho) as (Ho5 & _).
      set (g5 := clocks dt g) in *.
      set (g6 := set_playerTower (Tower_Update dt (units g5) (playerTower g5)) g5) in *.
      set (g7 := set_enemyTower (Tower_Update dt (units g6) (enemyTower g6)) g6) in *.
      assert (Ho7 : outcome_ok g7) by exact (Tower_Updates_outcome dt (units g5) (units g5) g5 Ho5).
      destruct (units_loop dt (map uid (units g7)) g7) as [g8|] eqn:E8; [|discriminate].
      cbn [bind] in HU.
      destruct (HandleTowerAttacks _) as [g10|] eqn:E10; [|discriminate].
      cbn [bind] in HU. inversion HU; subst g'; clear HU.
      assert (Hn7 : nonneg_damage (units g7)) by (change (units g7) with (units g5); rewrite Eu; exact Hn).
      destruct (units_loop_outcome _ _ _ _ Hn7 Ho7 E8) as (Ho8 & _).
      apply HandleTowerAttacks_outcome in E10; [|exact Ho8].
      destruct E10 as (Ho10 & _).
      eapply unsequenced_outcome; [apply HandleWaveProgression_unsequenced|exact Ho10].
  - unfold Game_Update in HU. rewrite Hs in HU. inversion HU; subst g'.
    split; [|discriminate]. destruct (KEY_R keys); [|exact Ho].
    unfold outcome_ok, tower_ok, Reset, Tower_new. cbn.
    repeat split; try (left; split; [reflexivity|vm_compute; split; [reflexivity|discriminate]]);
      discriminate.
Qed.

End TickOutcome.

(** ** Elixir, projectiles and the countdown *)

Lemma fixed_scalars (a b : Game) :
  fixed a = fixed b ->
  currentState a = currentState b /\ freezeAvailable a = freezeAvailable b /\
  freezeCooldown a = freezeCooldown b /\ playerElixir a = playerElixir b /\
  enemyElixir a = enemyElixir b /\ elixirTimer a = elixirTimer b /\
  gameTimer a = gameTimer b /\ next_ptr a = next_ptr b.
Proof.
  unfold fixed. intros E. injection E as ?. repeat split; assumption.
Qed.

Lemma fixed_waves (a b : Game) :
  fixed a = fixed b ->
  waveList a = waveList b /\ currentWave a = currentWave b /\
  waveSpawnTimer a = waveSpawnTimer b /\
  currentUnitTypeIndex a = currentUnitTypeIndex b /\
  unitsSpawnedForCurrentType a = unitsSpawnedForCurrentType b /\
  isBetweenWaves a = isBetweenWaves b /\ betweenWavesTimer a = betweenWavesTimer b.
Proof.
  unfold fixed. intros E. injection E as ?. repeat split; assumption.
Qed.

Lemma unsequenced_scalars (a b : Game) :
  unsequenced a = unsequenced b ->
  currentState a = currentState b /\ freezeAvailable a = freezeAvailable b /\
  freezeCooldown a = freezeCooldown b /\ playerElixir a = playerElixir b /\
  enemyElixir a = enemyElixir b /\ elixirTimer a = elixirTimer b /\
  gameTimer a = gameTimer b /\ gameOver a = gameOver b /\ winner a = winner b /\
  projectiles a = projectiles b.
Proof.
  unfold unsequenced. intros E. injection E as ?. repeat split; assumption.
Qed.

Lemma HandleTowerAttacks_keeps (g g' : Game) :
  HandleTowerAttacks g = Some g' ->
  gameOver g' = gameOver g /\ winner g' = winner g /\
  exists ps, projectiles g' = projectiles g ++ ps /\ Forall in_flight ps.
Proof.
  unfold HandleTowerAttacks.
  destruct (tower_strike (playerTower g) g) as [[t1 g1]|] eqn:E1; [|discriminate].
  cbn [bind fst snd].
  destruct (tower_strike (enemyTower (set_playerTower t1 g1)) (set_playerTower t1 g1))
    as [[t2 g2]|] eqn:E2; [|discriminate].
  cbn [bind fst snd]. intros E; inversion E; subst g'; clear E.
  destruct (tower_strike_keeps _ _ _ _ E1) as (G1 & W1 & _ & _ & P1).
  destruct (tower_strike_keeps _ _ _ _ E2) as (G2 & W2 & _ & _ & P2).
  cbn in *. rewrite G2, W2. repeat split; try assumption.
  assert (Hnew : forall a b, in_flight (Projectile_new a b))
    by (intros; split; [reflexivity|cbn; lra]).
  destruct P1 as [P1|(a1 & b1 & P1)], P2 as [P2|(a2 & b2 & P2)]; rewrite P2, P1.
  - exists []. split; [now rewrite app_nil_r|constructor].
  - exists [Projectile_new a2 b2]. split; [reflexivity|]. repeat constructor; apply Hnew.
  - exists [Projectile_new a1 b1]. split; [reflexivity|]. repeat constructor; apply Hnew.
  - exists [Projectile_new a1 b1; Projectile_new a2 b2].
    split; [now rewrite <- app_assoc|]. repeat constructor; apply Hnew.
Qed.

(** The projectiles that survive their update are in flight. *)
Lemma projectiles_survive (dt : Q) (ps : list Projectile) :
  Forall in_flight (filter active (map (Projectile_Update dt) ps)).
Proof.
  apply Forall_forall. intros p Hp. apply filter_In in Hp. destruct Hp as (Hp & Ha).
  apply in_map_iff in Hp. destruct Hp as (q & <- & _).
  unfold Projectile_Update in *. cbn -[Qplus Qmult Qle_bool] in *.
  destruct (Qle_bool 1 (progress q + dt * 3)) eqn:E; [discriminate|].
  apply Qle_bool_false_iff in E. split; [exact Ha|exact E].
Qed.

(** What the clocks do to the elixir: nothing, or one more below the cap. *)
Lemma clocks_elixir (dt : Q) (g : Game) :
  (playerElixir (clocks dt g) = playerElixir g \/
   (playerElixir g < MAX_ELIXIR /\ playerElixir (clocks dt g) = playerElixir g + 1)) /\
  (enemyElixir (clocks dt g) = enemyElixir g \/
   (enemyElixir g < MAX_ELIXIR /\ enemyElixir (clocks dt g) = enemyElixir g + 1)).
Proof.
  unfold clocks.
  destruct (negb (freezeAvailable g)); cbn -[Qminus Qplus Qle_bool Z.ltb Z.add];
    repeat match goal with
           | |- context [if Qle_bool ?a ?b then _ else _] =>
               destruct (Qle_bool a b); cbn -[Qminus Qplus Qle_bool Z.ltb Z.add]
           end;
    try (split; left; reflexivity);
    destruct (playerElixir g <? MAX_ELIXIR) eqn:E1; cbn -[Z.ltb Z.add];
    destruct (enemyElixir g <? MAX_ELIXIR) eqn:E2; cbn -[Z.ltb Z.add];
    try apply Z.ltb_lt in E1; try apply Z.ltb_lt in E2; split; auto.
Qed.

Lemma HandleWaveProgression_over (dt : Q) (g : Game) :
  gameOver g = true -> HandleWaveProgression dt g = g.
Proof.
  intros Hg. unfold HandleWaveProgression. rewrite Hg.
  destruct (nth_error _ _); reflexivity.
Qed.

Lemma clocks_projectiles (dt : Q) (g : Game) :
  projectiles (clocks dt g) = projectiles g.
Proof.
  unfold clocks.
  destruct (negb (freezeAvailable g)); cbn -[Qminus Qplus Qle_bool Z.ltb];
    repeat match goal with
           | |- context [if ?b then _ else _] =>
               destruct b; cbn -[Qminus Qplus Qle_bool Z.ltb]
           end; reflexivity.
Qed.

Section Anatomy.
Context {L : StdLib}.

(** The stages of a tick of a match being played. *)
Lemma tick_anatomy (dt : Q) (keys : Input) (g g' : Game) :
  currentState g = PLAYING -> gameOver g = false ->
  Game_Update dt keys g = Some g' ->
  exists g8 g10,
    units_loop dt (map uid (units g)) (retargeted dt g) = Some g8 /\
    HandleTowerAttacks
      (set_projectiles (filter active (map (Projectile_Update dt) (projectiles g8))) g8)
      = Some g10 /\
    g' = HandleWaveProgression dt g10.
Proof.
  intros Hs Hg HU. rewrite (Game_Update_playing dt keys g Hs Hg) in HU.
  cbv zeta in HU. cbn [units set_playerTower set_enemyTower enemyTower] in HU.
  destruct (clocks_keeps dt g) as (Eu & Ep & Ee & _).
  rewrite Eu, Ep, Ee in HU. fold (retargeted dt g) in HU.
  destruct (units_loop dt (map uid (units g)) (retargeted dt g)) as [g8|] eqn:E8;
    [|discriminate].
  cbn [bind] in HU.
  destruct (HandleTowerAttacks _) as [g10|] eqn:E10; [|discriminate].
  cbn [bind] in HU. inversion HU; subst g'; clear HU.
  exists g8, g10. repeat split; assumption.
Qed.

Lemma retargeted_keeps (dt : Q) (g : Game) :
  fixed_scalars_of (retargeted dt g) = fixed_scalars_of (clocks dt g) /\
  units (retargeted dt g) = units g /\
  projectiles (retargeted dt g) = projectiles g /\
  gameOver (retargeted dt g) = gameOver (clocks dt g) /\
  winner (retargeted dt g) = winner (clocks dt g) /\
  t_damage (playerTower (retargeted dt g)) = t_damage (playerTower g) /\
  t_damage (enemyTower (retargeted dt g)) = t_damage (enemyTower g).
Proof.
  destruct (clocks_keeps dt g) as (Eu & _).
  pose proof (clocks_projectiles dt g) as Epr.
  unfold retargeted. revert Eu Epr. generalize (clocks dt g). intros c Eu Epr.
  split; [reflexivity|]. split; [exact Eu|]. split; [exact Epr|].
  split; [reflexivity|]. split; [reflexivity|].
  cbn [playerTower enemyTower set_enemyTower set_playerTower].
  rewrite !Tower_Update_damage. split; reflexivity.
Qed.

End Anatomy.

Lemma fixed_fixed_scalars (a b : Game) :
  fixed a = fixed b -> fixed_scalars_of a = fixed_scalars_of b.
Proof.
  unfold fixed, fixed_scalars_of. intros E. injection E as ?. congruence.
Qed.

Lemma fixed_scalars_of_fields (a b : Game) :
  fixed_scalars_of a = fixed_scalars_of b ->
  currentState a = currentState b /\ freezeAvailable a = freezeAvailable b /\
  freezeCooldown a = freezeCooldown b /\ playerElixir a = playerElixir b /\
  enemyElixir a = enemyElixir b /\ elixirTimer a = elixirTimer b /\
  gameTimer a = gameTimer b /\ next_ptr a = next_ptr b /\
  waveList a = waveList b /\ currentWave a = currentWave b /\
  waveSpawnTimer a = waveSpawnTimer b /\
  currentUnitTypeIndex a = currentUnitTypeIndex b /\
  unitsSpawnedForCurrentType a = unitsSpawnedForCurrentType b /\
  isBetweenWaves a = isBetweenWaves b /\ betweenWavesTimer a = betweenWavesTimer b.
Proof.
  unfold fixed_scalars_of. intros E. injection E as ?. repeat split; assumption.
Qed.

Lemma lane_end_over (p : Ptr) (g g' : Game) :
  lane_end p g = Some g' -> gameOver g = true -> gameOver g' = true.
Proof.
  unfold lane_end. destruct (deref (units g) p) as [u|]; [|discriminate].
  cbn [bind].
  destruct (isPlayer u && Qle_bool _ _).
  - cbn -[Z.sub Z.leb]. destruct (_ <=? 0); intros E; inversion E; auto.
  - destruct (negb (isPlayer u) && Qle_bool _ _); [|intros E; inversion E; auto].
    cbn -[Z.sub Z.leb]. destruct (_ <=? 0); intros E; inversion E; auto.
Qed.

Section TickClocks.
Context {L : StdLib}.

Lemma units_loop_over (dt : Q) (its : list Ptr) (g g' : Game) :
  units_loop dt its g = Some g' -> gameOver g = true -> gameOver g' = true.
Proof.
  revert g. induction its as [|p its IH]; intros g; simpl.
  - intros E; inversion E; auto.
  - destruct (visit_unit dt p g) as [g1|] eqn:E1; [|discriminate].
    cbn [bind]. intros E Hg. apply (IH _ E).
    unfold visit_unit in E1. destruct (deref (units g) p) as [u|]; [|discriminate].
    cbn [bind] in E1. destruct (isAlive u).
    + destruct (Unit_Update dt p (units g)) as [us|]; [|discriminate].
      cbn [bind] in E1. apply (lane_end_over _ _ _ E1). exact Hg.
    + inversion E1. exact Hg.
Qed.

(** A tick of a match being played, up to the wave sequencer: the clocks'
    fields are as the clocks set them, a match the clocks ended stays
    ended, and every projectile is in flight. *)
Lemma tick_clocks (dt : Q) (keys : Input) (g g' : Game) :
  currentState g = PLAYING -> gameOver g = false ->
  Game_Update dt keys g = Some g' ->
  exists g10,
    g' = HandleWaveProgression dt g10 /\
    fixed_scalars_of g10 = fixed_scalars_of (clocks dt g) /\
    (gameOver (clocks dt g) = true -> gameOver g10 = true) /\
    Forall in_flight (projectiles g10).
Proof.
  intros Hs Hg HU.
  destruct (tick_anatomy dt keys g g' Hs Hg HU) as (g8 & g10 & E8 & E10 & ->).
  destruct (retargeted_keeps dt g) as (F7 & _ & _ & G7 & _).
  exists g10. split; [reflexivity|].
  pose proof (fixed_fixed_scalars _ _ (units_loop_fixed _ _ _ _ E8)) as F8.
  pose proof (fixed_fixed_scalars _ _ (HandleTowerAttacks_fixed _ _ E10)) as F10.
  destruct (HandleTowerAttacks_keeps _ _ E10) as (G10 & _ & ps & P10 & Hps).
  split; [|split].
  - rewrite F10. transitivity (fixed_scalars_of g8); [reflexivity|].
    rewrite F8. exact F7.
  - intros Hover. rewrite G10. cbn [gameOver set_projectiles].
    apply (units_loop_over _ _ _ _ E8). rewrite G7. exact Hover.
  - rewrite P10. cbn [projectiles set_projectiles].
    apply Forall_app. split; [apply projectiles_survive|exact Hps].
Qed.

End TickClocks.

Lemma clocks_countdown (dt : Q) (g : Game) :
  (Qle_bool (gameTimer g - dt) 0 = true ->
   gameTimer (clocks dt g) = 0%Q /\ gameOver (clocks dt g) = true) /\
  (Qle_bool (gameTimer g - dt) 0 = false ->
   gameTimer (clocks dt g) = (gameTimer g - dt)%Q /\
   gameOver (clocks dt g) = gameOver g).
Proof.
  unfold clocks.
  destruct (negb (freezeAvailable g)); cbn -[Qminus Qplus Qle_bool Z.ltb];
    [destruct (Qle_bool (freezeCooldown g - dt) 0); cbn -[Qminus Qplus Qle_bool Z.ltb]|];
    destruct (Qle_bool (gameTimer g - dt) 0); cbn -[Qminus Qplus Qle_bool Z.ltb];
    repeat match goal with
           | |- context [if ?b then _ else _] =>
               destruct b; cbn -[Qminus Qplus Qle_bool Z.ltb]
           end; split; intros; try discriminate; split; reflexivity.
Qed.

(** ** The pace of the wave sequencer *)

Lemma time_before_S (ws : list GameWave) (i : nat) (w : GameWave) :
  nth_error ws i = Some w ->
  (time_before ws (S i) == time_before ws i + wave_time w)%Q.
Proof.
  revert i. induction ws as [|a ws IH]; intros [|i] H; try discriminate.
  - inversion H; subst. unfold time_before. cbn -[Qplus wave_time]. lra.
  - cbn [nth_error] in H. specialize (IH i H).
    unfold time_before in *. cbn -[Qplus wave_time] in *. lra.
Qed.

Lemma entry_units_S (es : list WaveUnit) (i : nat) (e : WaveUnit) :
  nth_error es i = Some e ->
  entry_units (firstn (S i) es) = entry_units (firstn i es) + wu_count e.
Proof.
  revert i. induction es as [|a es IH]; intros [|i] H; try discriminate.
  - inversion H; subst. cbn. lia.
  - cbn [nth_error] in H. specialize (IH i H).
    cbn [firstn entry_units fold_right] in *. fold (entry_units (firstn (S i) es)).
    fold (entry_units (firstn i es)). fold (entry_units (firstn (S i) es)) in IH.
    lia.
Qed.

Lemma entry_units_all (es : list WaveUnit) (i : nat) :
  nth_error es i = None -> firstn i es = es.
Proof. intros H. apply firstn_all2. now apply nth_error_None. Qed.

(** One step of the sequencer takes the sequencer no further than the time
    handed to it, as long as it does not wrap around the chain. *)
Lemma HandleWaveProgression_step_time (dt : Q) (g : Game) (w : GameWave) :
  nth_error (waveList g) (currentWave g) = Some w ->
  (0 <= spawnRate w)%Q -> (0 <= waveSpawnTimer g)%Q ->
  0 <= unitsSpawnedForCurrentType g -> (0 <= dt)%Q -> gameOver g = false ->
  (isBetweenWaves g = false ->
   nth_error (waveUnits w) (currentUnitTypeIndex g) = None ->
   (S (currentWave g) < List.length (waveList g))%nat) ->
  waveList (HandleWaveProgression dt g) = waveList g /\
  (currentWave (HandleWaveProgression dt g) < List.length (waveList g))%nat /\
  (0 <= waveSpawnTimer (HandleWaveProgression dt g))%Q /\
  0 <= unitsSpawnedForCurrentType (HandleWaveProgression dt g) /\
  (time_needed (HandleWaveProgression dt g) <= time_needed g + dt)%Q.
Proof.
  intros Hw Hr Ht Hs Hdt Hg Hnw.
  assert (Hlen : (currentWave g < List.length (waveList g))%nat)
    by (apply nth_error_Some; congruence).
  destruct g as [cs pt et us pr fa fc pe ee el wl cw t idx s bw bt gt go wi np].
  cbn [waveList currentWave gameOver isBetweenWaves waveSpawnTimer
       unitsSpawnedForCurrentType currentUnitTypeIndex] in *. subst go.
  unfold HandleWaveProgression, time_needed.
  cbn [waveList currentWave gameOver isBetweenWaves betweenWavesTimer].
  rewrite Hw. destruct bw.
  - cbn -[Qminus Qle_bool Qplus Qmult time_before entry_units nth_error firstn].
    destruct (Qle_bool (bt - dt) 0) eqn:E.
    + apply Qle_bool_iff in E.
      cbn -[Qminus Qle_bool Qplus Qmult time_before entry_units nth_error].
      rewrite Hw. cbn [firstn entry_units fold_right].
      repeat split; try assumption; try lia; try lra.
      change (inject_Z 0) with 0%Q. lra.
    + cbn -[Qminus Qle_bool Qplus Qmult time_before entry_units nth_error].
      repeat split; try assumption; try lia; lra.
  - specialize (Hnw eq_refl).
    cbn -[Qminus Qle_bool Qplus Qmult time_before entry_units nth_error firstn
          Nat.ltb speed_up Z.ltb Z.geb Z.add List.length].
    destruct (nth_error (waveUnits w) idx) as [e|] eqn:He.
    + destruct (Qle_bool (spawnRate w) (t + dt) && (s <? wu_count e)) eqn:E.
      * apply andb_true_iff in E. destruct E as [E1 E2].
        apply Qle_bool_iff in E1. apply Z.ltb_lt in E2.
        cbn -[Qminus Qle_bool Qplus Qmult time_before entry_units nth_error firstn
              Z.geb Z.add].
        destruct (s + 1 >=? wu_count e) eqn:E3.
        -- cbn -[Qminus Qle_bool Qplus Qmult time_before entry_units nth_error firstn].
           rewrite Hw. rewrite (entry_units_S _ _ _ He).
           assert (wu_count e = s + 1) by (apply Z.geb_le in E3; lia).
           repeat split; try assumption; try lia; try lra.
           rewrite H, !inject_Z_plus. change (inject_Z 0) with 0%Q.
           change (inject_Z 1) with 1%Q. lra.
        -- cbn -[Qminus Qle_bool Qplus Qmult time_before entry_units nth_error firstn Z.add].
           rewrite Hw.
           repeat split; try assumption; try lia; try lra.
           rewrite !inject_Z_plus. change (inject_Z 1) with 1%Q. lra.
      * cbn -[Qminus Qle_bool Qplus Qmult time_before entry_units nth_error firstn].
        rewrite Hw. repeat split; try assumption; try lia; lra.
    + specialize (Hnw eq_refl). apply Nat.ltb_lt in Hnw. rewrite Hnw.
      apply Nat.ltb_lt in Hnw.
      cbn -[Qminus Qle_bool Qplus Qmult time_before entry_units nth_error firstn].
      rewrite (entry_units_all _ _ He).
      pose proof (time_before_S _ _ _ Hw) as HS.
      assert (Hsr : (0 <= inject_Z s * spawnRate w)%Q).
      { apply Qmult_le_0_compat; [|exact Hr].
        change 0%Q with (inject_Z 0). rewrite <- Zle_Qle. exact Hs. }
      repeat split; try assumption; try lia; try lra.
      unfold wave_time in HS. lra.
Qed.

Lemma time_needed_ext (a b : Game) :
  waveList a = waveList b -> currentWave a = currentWave b ->
  waveSpawnTimer a = waveSpawnTimer b ->
  currentUnitTypeIndex a = currentUnitTypeIndex b ->
  unitsSpawnedForCurrentType a = unitsSpawnedForCurrentType b ->
  isBetweenWaves a = isBetweenWaves b -> betweenWavesTimer a = betweenWavesTimer b ->
  time_needed a = time_needed b.
Proof. unfold time_needed. intros -> -> -> -> -> -> ->. reflexivity. Qed.

Lemma InitializeWaves_rates (i : nat) (w : GameWave) :
  nth_error InitializeWaves i = Some w -> (0 <= spawnRate w)%Q.
Proof.
  intros H. apply nth_error_In in H.
  repeat (destruct H as [<-|H]; [cbn; lra|]). destruct H.
Qed.

(** With the chain of the program and within the time of a match the
    sequencer cannot have finished the last wave: 157.5 seconds is the
    least it takes. *)
Lemma last_wave_out_of_reach (g : Game) (w : GameWave) :
  waveList g = InitializeWaves -> (currentWave g < 8)%nat ->
  nth_error (waveList g) (currentWave g) = Some w ->
  (0 <= waveSpawnTimer g)%Q -> 0 <= unitsSpawnedForCurrentType g ->
  (time_needed g <= GAME_TIME_LIMIT)%Q ->
  isBetweenWaves g = false ->
  nth_error (waveUnits w) (currentUnitTypeIndex g) = None ->
  (S (currentWave g) < List.length (waveList g))%nat.
Proof.
  intros HW Hc Hw Ht Hs Hn Hb He. rewrite HW. cbn [List.length InitializeWaves].
  destruct (Nat.eq_dec (currentWave g) 7) as [E|]; [exfalso|lia].
  unfold time_needed in Hn. rewrite Hb, Hw, (entry_units_all _ _ He) in Hn.
  rewrite HW, E in Hn, Hw. cbn [nth_error InitializeWaves] in Hw. inversion Hw; subst w.
  cbn [waveUnits spawnRate] in Hn.
  assert (Hsr : (0 <= inject_Z (unitsSpawnedForCurrentType g) * (25#10))%Q).
  { apply Qmult_le_0_compat; [|lra].
    change 0%Q with (inject_Z 0). rewrite <- Zle_Qle. exact Hs. }
  assert (HT : (time_before InitializeWaves 7 == 1475#10)%Q) by (vm_compute; reflexivity).
  change (inject_Z (entry_units _)) with 4%Q in Hn.
  unfold GAME_TIME_LIMIT in Hn. lra.
Qed.

Lemma Game_new_paced : paced Game_new.
Proof.
  unfold paced. cbn [waveList currentWave waveSpawnTimer unitsSpawnedForCurrentType
                     gameTimer Game_new].
  repeat split; try lia; try (vm_compute; discriminate).
Qed.

Lemma Reset_paced (g : Game) : paced g -> paced (Reset g).
Proof.
  intros (HW & Hc & _). unfold paced, Reset, time_needed.
  cbn [waveList currentWave waveSpawnTimer unitsSpawnedForCurrentType gameTimer
       isBetweenWaves currentUnitTypeIndex].
  rewrite HW. cbn [nth_error InitializeWaves firstn entry_units fold_right spawnRate].
  unfold time_before, GAME_TIME_LIMIT. cbn [firstn fold_right].
  repeat split; try lia; try lra. change (inject_Z 0) with 0%Q. lra.
Qed.

Section TickPace.
Context {L : StdLib}.

(** A tick keeps the sequencer behind the match clock. *)
Lemma tick_paced (dt : Q) (keys : Input) (g g' : Game) :
  (0 <= dt)%Q -> paced g -> Game_Update dt keys g = Some g' -> paced g'.
Proof.
  intros Hdt Hp HU. destruct (currentState g) eqn:Hs.
  - unfold Game_Update in HU. rewrite Hs in HU. inversion HU; subst g'.
    destruct (KEY_ENTER keys); exact Hp.
  - destruct (gameOver g) eqn:Hg.
    { rewrite (Game_Update_over dt keys g Hs Hg) in HU. inversion HU; subst g'.
      exact Hp. }
    destruct (tick_clocks dt keys g g' Hs Hg HU) as (g10 & -> & F & Hover & _).
    apply fixed_scalars_of_fields in F.
    destruct F as (_ & _ & _ & _ & _ & _ & F7 & _ & W1 & W2 & W3 & W4 & W5 & W6 & W7).
    destruct (clocks_keeps dt g) as (_ & _ & _ & _ & _ & EW).
    injection EW as V1 V2 V3 V4 V5 V6 V7.
    rewrite V1 in W1. rewrite V2 in W2. rewrite V3 in W3. rewrite V4 in W4.
    rewrite V5 in W5. rewrite V6 in W6. rewrite V7 in W7.
    clear V1 V2 V3 V4 V5 V6 V7.
    pose proof (time_needed_ext _ _ W1 W2 W3 W4 W5 W6 W7) as HT.
    destruct Hp as (HW & Hc & Ht & Hsp & Hgt & Hn).
    destruct (clocks_countdown dt g) as (Cexp & Crun).
    assert (Hp10 : waveList g10 = InitializeWaves /\ (currentWave g10 < 8)%nat /\
                   (0 <= waveSpawnTimer g10)%Q /\ 0 <= unitsSpawnedForCurrentType g10 /\
                   (0 <= gameTimer g10)%Q /\
                   (time_needed g10 <= GAME_TIME_LIMIT - gameTimer g10 - dt)%Q \/
                   (gameOver g10 = true /\ paced g10)).
    { destruct (Qle_bool (gameTimer g - dt) 0) eqn:E.
      - right. destruct (Cexp eq_refl) as (T0 & G0). split; [auto|].
        unfold paced. rewrite W1, W2, W3, W5, HT, F7, T0.
        repeat split; try assumption; lra.
      - left. destruct (Crun eq_refl) as (T0 & _).
        apply Qle_bool_false_iff in E.
        rewrite W1, W2, W3, W5, HT, F7, T0.
        repeat split; try assumption; try lra. }
    destruct Hp10 as [(HW' & Hc' & Ht' & Hsp' & Hgt' & Hn')|(Hov & Hp10)];
      [|rewrite (HandleWaveProgression_over _ _ Hov); exact Hp10].
    destruct (gameOver g10) eqn:Hg10.
    { rewrite (HandleWaveProgression_over _ _ Hg10).
      unfold paced. repeat split; try assumption. lra. }
    destruct (nth_error (waveList g10) (currentWave g10)) as [w|] eqn:Hw;
      [|apply nth_error_None in Hw; rewrite HW' in Hw; cbn in Hw; lia].
    assert (Hr : (0 <= spawnRate w)%Q)
      by (rewrite HW' in Hw; exact (InitializeWaves_rates _ _ Hw)).
    assert (Hn120 : (time_needed g10 <= GAME_TIME_LIMIT)%Q) by lra.
    destruct (HandleWaveProgression_step_time dt g10 w Hw Hr Ht' Hsp' Hdt Hg10)
      as (A1 & A2 & A3 & A4 & A5).
    { intros Hb He. eapply last_wave_out_of_reach; eauto. }
    destruct (unsequenced_scalars _ _ (HandleWaveProgression_unsequenced dt g10))
      as (_ & _ & _ & _ & _ & _ & B7 & _).
    unfold paced. rewrite A1, B7. rewrite HW' in A2. cbn [List.length InitializeWaves] in A2.
    repeat split; try assumption. lra.
  - unfold Game_Update in HU. rewrite Hs in HU. inversion HU; subst g'.
    destruct (KEY_R keys); [|exact Hp].
    destruct (Reset_paced g Hp) as (A & B & C & D & E & F).
    unfold paced. repeat split; assumption.
Qed.

End TickPace.

(** ** The player's commands *)

Lemma SpawnUnit_uncommanded (t : UnitType) (g : Game) :
  uncommanded (SpawnUnit t g) = uncommanded g.
Proof.
  unfold SpawnUnit. destruct (negb _); [reflexivity|].
  destruct (_ >=? _); reflexivity.
Qed.

Lemma ActivateFreeze_uncommanded (rnd : nat -> Vector2 * Vector2) (g : Game) :
  uncommanded (ActivateFreeze rnd g) = uncommanded g.
Proof.
  unfold ActivateFreeze. destruct (negb _); [reflexivity|].
  destruct (negb _); reflexivity.
Qed.

Lemma handle_input_uncommanded (f : Frame) (g : Game) :
  uncommanded (handle_input f g) = uncommanded g.
Proof.
  unfold handle_input. destruct (GameState_eqb _ _); [|reflexivity].
  cbv zeta.
  destruct (KEY_F f); [rewrite ActivateFreeze_uncommanded|];
    (destruct (KEY_FOUR f); [rewrite SpawnUnit_uncommanded|]);
    (destruct (KEY_THREE f); [rewrite SpawnUnit_uncommanded|]);
    (destruct (KEY_TWO f); [rewrite SpawnUnit_uncommanded|]);
    (destruct (KEY_ONE f); [rewrite SpawnUnit_uncommanded|]); reflexivity.
Qed.

Lemma uncommanded_fields (a b : Game) :
  uncommanded a = uncommanded b ->
  currentState a = currentState b /\ playerTower a = playerTower b /\
  enemyTower a = enemyTower b /\ enemyElixir a = enemyElixir b /\
  elixirTimer a = elixirTimer b /\
  (waveList a = waveList b /\ currentWave a = currentWave b /\
   waveSpawnTimer a = waveSpawnTimer b /\
   currentUnitTypeIndex a = currentUnitTypeIndex b /\
   unitsSpawnedForCurrentType a = unitsSpawnedForCurrentType b /\
   isBetweenWaves a = isBetweenWaves b /\ betweenWavesTimer a = betweenWavesTimer b) /\
  gameTimer a = gameTimer b /\ gameOver a = gameOver b /\ winner a = winner b.
Proof.
  unfold uncommanded. intros E. injection E as ?. repeat split; assumption.
Qed.

(** A property of the game kept by the commands and by the ticks holds in
    every state the frame loop passes through. *)
Lemma main_loop_invariant {L : StdLib} (P : Game -> Prop) (Q : Frame -> Prop) :
  (forall f g, P g -> P (handle_input f g)) ->
  (forall f g g', Q f -> P g ->
     Game_Update (GetFrameTime f) (pressed f) g = Some g' -> P g') ->
  forall frames g g',
    Forall Q frames -> P g -> main_loop frames g = Some g' -> P g'.
Proof.
  intros Hin Hup frames. induction frames as [|f frames IH]; intros g g' HQ Hg; simpl.
  - intros E; inversion E; subst; exact Hg.
  - inversion HQ as [|? ? Hf HQ']; subst.
    destruct (KEY_ESCAPE f); [intros E; inversion E; subst; now apply Hin|].
    destruct (Game_Update _ _ _) as [g2|] eqn:E2; [|discriminate].
    cbn [bind]. intros E. apply (IH g2 g' HQ'); [|exact E].
    apply (Hup f (handle_input f g) g2 Hf); [now apply Hin|exact E2].
Qed.

Lemma handle_input_paced (f : Frame) (g : Game) : paced g -> paced (handle_input f g).
Proof.
  intros Hp.
  destruct (uncommanded_fields _ _ (handle_input_uncommanded f g))
    as (_ & _ & _ & _ & _ & (W1 & W2 & W3 & W4 & W5 & W6 & W7) & T & _).
  unfold paced in *. rewrite (time_needed_ext _ _ W1 W2 W3 W4 W5 W6 W7).
  rewrite W1, W2, W3, W5, T. exact Hp.
Qed.

Lemma handle_input_outcome (f : Frame) (g : Game) :
  outcome_ok g -> outcome_ok (handle_input f g).
Proof.
  intros Ho.
  destruct (uncommanded_fields _ _ (handle_input_uncommanded f g))
    as (_ & P & E & _ & _ & _ & _ & G & W).
  unfold outcome_ok in *. rewrite P, E, G, W. exact Ho.
Qed.

(** ** Elixir and unit health under the commands and the ticks *)

Lemma SpawnUnit_elixir (t : UnitType) (g : Game) :
  elixir_ok g -> elixir_ok (SpawnUnit t g).
Proof.
  unfold SpawnUnit, elixir_ok. intros H. destruct (negb _); [exact H|].
  destruct (playerElixir g >=? st_cost (Game_GetUnitStats t)) eqn:E; [|exact H].
  apply Z.geb_le in E. cbn -[Z.sub]. unfold MAX_ELIXIR in *.
  destruct t; cbn in *; lia.
Qed.

Lemma ActivateFreeze_elixir (rnd : nat -> Vector2 * Vector2) (g : Game) :
  elixir_ok g -> elixir_ok (ActivateFreeze rnd g).
Proof.
  unfold ActivateFreeze. intros H. destruct (negb _); [exact H|].
  destruct (negb _); exact H.
Qed.

Lemma handle_input_elixir (f : Frame) (g : Game) :
  elixir_ok g -> elixir_ok (handle_input f g).
Proof.
  intros H. unfold handle_input. destruct (GameState_eqb _ _); [|exact H].
  cbv zeta.
  destruct (KEY_F f); [apply ActivateFreeze_elixir|];
    (destruct (KEY_FOUR f); [apply SpawnUnit_elixir|]);
    (destruct (KEY_THREE f); [apply SpawnUnit_elixir|]);
    (destruct (KEY_TWO f); [apply SpawnUnit_elixir|]);
    (destruct (KEY_ONE f); [apply SpawnUnit_elixir|]); exact H.
Qed.

Lemma grown_refl (us : list Unit) : grown us us.
Proof. intros u Hu. left. exists u. split; [exact Hu|apply ages_refl]. Qed.

Lemma grown_trans (us vs ws : list Unit) : grown us vs -> grown vs ws -> grown us ws.
Proof.
  intros H1 H2 w Hw. destruct (H2 w Hw) as [(v & Hv & Hvw)|N]; [|now right].
  destruct (H1 v Hv) as [(u & Hu & Huv)|(p & t & pl & Hn)].
  - left. exists u. split; [exact Hu|]. eapply ages_trans; eauto.
  - right. exists p, t, pl. eapply ages_trans; eauto.
Qed.

Lemma aged_grown (us us' : list Unit) : aged us us' -> grown us us'.
Proof. intros H u' Hu'. left. now apply H. Qed.

Lemma grown_app_new (us : list Unit) (p : Ptr) (t : UnitType) (player : bool) :
  grown us (us ++ [Unit_new p t player]).
Proof.
  intros u' Hu'. apply in_app_or in Hu'. destruct Hu' as [Hu'|[<-|[]]].
  - left. exists u'. split; [exact Hu'|apply ages_refl].
  - right. exists p, t, player. apply ages_refl.
Qed.

Lemma grown_sound (us us' : list Unit) :
  grown us us' -> Forall healthy us -> nonneg_damage us ->
  Forall healthy us' /\ nonneg_damage us'.
Proof.
  intros Hg Hh Hn. rewrite Forall_forall in Hh.
  split; [rewrite Forall_forall|]; intros u' Hu'.
  - destruct (Hg u' Hu') as [(u & Hu & Ha)|(p & t & pl & Ha)].
    + eapply ages_healthy; eauto.
    + eapply ages_healthy; [|exact Ha]. apply Unit_new_healthy.
  - destruct (Hg u' Hu') as [(u & Hu & (_ & _ & E & _))|(p & t & pl & (_ & _ & E & _))];
      rewrite E; [now apply Hn|apply Unit_new_healthy].
Qed.

Lemma SpawnUnit_grown (t : UnitType) (g : Game) : grown (units g) (units (SpawnUnit t g)).
Proof.
  unfold SpawnUnit. destruct (negb _); [apply grown_refl|].
  destruct (_ >=? _); [|apply grown_refl].
  cbn [units set_playerElixir set_next_ptr set_units]. apply grown_app_new.
Qed.

Lemma ActivateFreeze_grown (rnd : nat -> Vector2 * Vector2) (g : Game) :
  grown (units g) (units (ActivateFreeze rnd g)).
Proof.
  unfold ActivateFreeze. destruct (negb _); [apply grown_refl|].
  destruct (negb _); [apply grown_refl|].
  cbn [units CreateFreezeEffect set_projectiles set_freezeCooldown set_freezeAvailable
       set_units].
  apply aged_grown, aged_map. intros v _.
  destruct (_ && _); [|apply ages_refl].
  unfold ages; simpl; repeat split; auto; lia.
Qed.

Lemma handle_input_grown (f : Frame) (g : Game) :
  grown (units g) (units (handle_input f g)).
Proof.
  unfold handle_input. destruct (GameState_eqb _ _); [|apply grown_refl].
  cbv zeta.
  repeat match goal with
         | |- grown _ (units (if ?b then _ else _)) => destruct b
         | |- grown _ (units (SpawnUnit _ _)) =>
             eapply grown_trans; [|apply SpawnUnit_grown]
         | |- grown _ (units (ActivateFreeze _ _)) =>
             eapply grown_trans; [|apply ActivateFreeze_grown]
         end; apply grown_refl.
Qed.

Lemma handle_input_units_sound (f : Frame) (g : Game) :
  units_sound g -> units_sound (handle_input f g).
Proof.
  intros (Hh & Hn & Ht).
  destruct (grown_sound _ _ (handle_input_grown f g) Hh Hn) as (Hh' & Hn').
  destruct (uncommanded_fields _ _ (handle_input_uncommanded f g))
    as (_ & P & E & _).
  unfold units_sound, towers_armed in *. rewrite P, E. tauto.
Qed.

Section TickSound.
Context {L : StdLib}.

Lemma tick_elixir (dt : Q) (keys : Input) (g g' : Game) :
  elixir_ok g -> Game_Update dt keys g = Some g' -> elixir_ok g'.
Proof.
  intros He HU. destruct (currentState g) eqn:Hs.
  - unfold Game_Update in HU. rewrite Hs in HU. inversion HU; subst g'.
    destruct (KEY_ENTER keys); exact He.
  - destruct (gameOver g) eqn:Hg.
    { rewrite (Game_Update_over dt keys g Hs Hg) in HU. inversion HU; subst g'.
      exact He. }
    destruct (tick_clocks dt keys g g' Hs Hg HU) as (g10 & -> & F & _).
    apply fixed_scalars_of_fields in F. destruct F as (_ & _ & _ & F4 & F5 & _).
    destruct (unsequenced_scalars _ _ (HandleWaveProgression_unsequenced dt g10))
      as (_ & _ & _ & B4 & B5 & _).
    destruct (clocks_elixir dt g) as (Cp & Ce).
    unfold elixir_ok in *. rewrite B4, B5, F4, F5. unfold MAX_ELIXIR in *. lia.
  - unfold Game_Update in HU. rewrite Hs in HU. inversion HU; subst g'.
    destruct (KEY_R keys); [|exact He].
    unfold elixir_ok, MAX_ELIXIR. cbn. lia.
Qed.

Lemma tick_towers_armed (dt : Q) (keys : Input) (g g' : Game) :
  towers_armed g -> Game_Update dt keys g = Some g' -> towers_armed g'.
Proof.
  intros Ht HU. destruct (currentState g) eqn:Hs.
  - unfold Game_Update in HU. rewrite Hs in HU. inversion HU; subst g'.
    destruct (KEY_ENTER keys); exact Ht.
  - destruct (gameOver g) eqn:Hg.
    { rewrite (Game_Update_over dt keys g Hs Hg) in HU. inversion HU; subst g'.
      exact Ht. }
    destruct (tick_anatomy dt keys g g' Hs Hg HU) as (g8 & g10 & E8 & E10 & ->).
    destruct (retargeted_keeps dt g) as (_ & _ & _ & _ & _ & D1 & D2).
    destruct (fixed_damage _ _ (units_loop_fixed _ _ _ _ E8)) as (A1 & A2).
    destruct (fixed_damage _ _ (HandleTowerAttacks_fixed _ _ E10)) as (B1 & B2).
    destruct (HandleWaveProgression_towers dt g10) as (C1 & C2).
    unfold towers_armed in *. rewrite C1, C2, B1, B2.
    cbn [playerTower enemyTower set_projectiles]. rewrite A1, A2, D1, D2. exact Ht.
  - unfold Game_Update in HU. rewrite Hs in HU. inversion HU; subst g'.
    destruct (KEY_R keys); [|exact Ht].
    unfold towers_armed. cbn. unfold TOWER_DAMAGE. lia.
Qed.

Lemma tick_units_sound (dt : Q) (keys : Input) (g g' : Game) :
  units_sound g -> Game_Update dt keys g = Some g' -> units_sound g'.
Proof.
  intros (Hh & Hn & Ht) HU.
  pose proof (tick_towers_armed dt keys g g' Ht HU) as Ht'.
  destruct Ht as (Hp & He).
  destruct (currentState g) eqn:Hs.
  - unfold Game_Update in HU. rewrite Hs in HU. inversion HU; subst g'.
    destruct (KEY_ENTER keys); exact (conj Hh (conj Hn Ht')).
  - destruct (tick_healthy dt keys g g' Hs Hn Hp He Hh HU) as (A & B).
    exact (conj A (conj B Ht')).
  - unfold Game_Update in HU. rewrite Hs in HU. inversion HU; subst g'.
    destruct (KEY_R keys); [|exact (conj Hh (conj Hn Ht'))].
    split; [constructor|]. split; [intros u []|exact Ht'].
Qed.

End TickSound.

(** ** The tick on which the countdown runs out *)

Section Countdown.
Context {L : StdLib}.

Lemma tick_countdown (dt : Q) (keys : Input) (g g' : Game) :
  currentState g = PLAYING -> gameOver g = false ->
  Game_Update dt keys g = Some g' ->
  (Qle_bool (gameTimer g - dt) 0 = true ->
   gameOver g' = true /\ gameTimer g' = 0%Q /\ currentState g' = PLAYING /\
   fixed_scalars_of g' = fixed_scalars_of (clocks dt g)) /\
  (Qle_bool (gameTimer g - dt) 0 = false ->
   gameTimer g' = (gameTimer g - dt)%Q).
Proof.
  intros Hs Hg HU.
  destruct (tick_clocks dt keys g g' Hs Hg HU) as (g10 & -> & F & Hover & _).
  destruct (clocks_countdown dt g) as (Cexp & Crun).
  destruct (clocks_keeps dt g) as (_ & _ & _ & Ec & _).
  pose proof (fixed_scalars_of_fields _ _ F) as (F1 & _ & _ & _ & _ & _ & F7 & _).
  split; intros E.
  - destruct (Cexp E) as (T0 & G0).
    rewrite (HandleWaveProgression_over _ _ (Hover G0)).
    split; [exact (Hover G0)|]. split; [congruence|]. split; [congruence|exact F].
  - destruct (Crun E) as (T0 & _).
    destruct (unsequenced_scalars _ _ (HandleWaveProgression_unsequenced dt g10))
      as (_ & _ & _ & _ & _ & _ & B7 & _).
    congruence.
Qed.

End Countdown.

(** ** The waypoints of generatePath *)

Lemma steps_right_S (x : Z) :
  x < SCREEN_WIDTH - 50 -> steps_right x = S (steps_right (x + 50)).
Proof.
  unfold steps_right, SCREEN_WIDTH. intros H.
  replace (1200 - 50 - x + 49) with ((1200 - 50 - (x + 50) + 49) + 1 * 50) by lia.
  rewrite Z.div_add by lia.
  rewrite Z.add_1_r, Z2Nat.inj_succ; [reflexivity|].
  apply Z.div_pos; lia.
Qed.

Lemma steps_right_0 (x : Z) : SCREEN_WIDTH - 50 <= x -> steps_right x = 0%nat.
Proof.
  unfold steps_right, SCREEN_WIDTH. intros H.
  assert ((1200 - 50 - x + 49) / 50 <= 0).
  { apply Z.lt_succ_r. apply Z.div_lt_upper_bound; lia. }
  lia.
Qed.

Lemma steps_left_S (x : Z) : 50 < x -> steps_left x = S (steps_left (x - 50)).
Proof.
  unfold steps_left. intros H.
  replace (x - 50 + 49) with ((x - 50 - 50 + 49) + 1 * 50) by lia.
  rewrite Z.div_add by lia.
  rewrite Z.add_1_r, Z2Nat.inj_succ; [reflexivity|].
  apply Z.div_pos; lia.
Qed.

Lemma steps_left_0 (x : Z) : x <= 50 -> steps_left x = 0%nat.
Proof.
  unfold steps_left. intros H.
  assert ((x - 50 + 49) / 50 <= 0).
  { apply Z.lt_succ_r. apply Z.div_lt_upper_bound; lia. }
  lia.
Qed.

(** The loop for a player's unit makes [steps_right x] iterations and
    leaves the waypoints [x], [x + 50], ... *)
Lemma path_right_closed (n : nat) (x : Z) :
  (steps_right x <= n)%nat ->
  path_right n x =
  map (fun i => lane_point (x + 50 * Z.of_nat i)) (seq 0 (steps_right x)).
Proof.
  revert x. induction n as [|n IH]; intros x Hn.
  - replace (steps_right x) with 0%nat by lia. reflexivity.
  - cbn [path_right]. destruct (x <? SCREEN_WIDTH - 50) eqn:E.
    + apply Z.ltb_lt in E. rewrite (steps_right_S x E) in *.
      rewrite IH by lia. cbn [seq map]. f_equal; [f_equal; lia|].
      rewrite <- seq_shift, map_map. apply map_ext. intros i. f_equal. lia.
    + apply Z.ltb_ge in E. rewrite (steps_right_0 x E). reflexivity.
Qed.

Lemma path_left_closed (n : nat) (x : Z) :
  (steps_left x <= n)%nat ->
  path_left n x =
  map (fun i => lane_point (x - 50 * Z.of_nat i)) (seq 0 (steps_left x)).
Proof.
  revert x. induction n as [|n IH]; intros x Hn.
  - replace (steps_left x) with 0%nat by lia. reflexivity.
  - cbn [path_left]. destruct (x >? 50) eqn:E.
    + apply Z.gtb_lt in E. rewrite (steps_left_S x E) in *.
      rewrite IH by lia. cbn [seq map]. f_equal; [f_equal; lia|].
      rewrite <- seq_shift, map_map. apply map_ext. intros i. f_equal. lia.
    + rewrite Z.gtb_ltb in E. apply Z.ltb_ge in E.
      rewrite (steps_left_0 x E). reflexivity.
Qed.

Lemma steps_right_spec (x : Z) (i : nat) :
  (i < steps_right x)%nat <-> x + 50 * Z.of_nat i < SCREEN_WIDTH - 50.
Proof.
  revert x. induction i as [|i IH]; intros x.
  - destruct (Z_lt_ge_dec x (SCREEN_WIDTH - 50)) as [H|H].
    + rewrite (steps_right_S x H). split; lia.
    + rewrite (steps_right_0 x); [|lia]. split; lia.
  - destruct (Z_lt_ge_dec x (SCREEN_WIDTH - 50)) as [H|H].
    + rewrite (steps_right_S x H). specialize (IH (x + 50)). split; intros H1.
      * assert (H2 : (i < steps_right (x + 50))%nat) by lia. apply IH in H2. lia.
      * assert (H2 : x + 50 + 50 * Z.of_nat i < SCREEN_WIDTH - 50) by lia.
        apply IH in H2. lia.
    + rewrite (steps_right_0 x); [|lia]. split; lia.
Qed.

Lemma steps_left_spec (x : Z) (i : nat) :
  (i < steps_left x)%nat <-> 50 < x - 50 * Z.of_nat i.
Proof.
  revert x. induction i as [|i IH]; intros x.
  - destruct (Z_lt_ge_dec 50 x) as [H|H].
    + rewrite (steps_left_S x H). split; lia.
    + rewrite (steps_left_0 x); [|lia]. split; lia.
  - destruct (Z_lt_ge_dec 50 x) as [H|H].
    + rewrite (steps_left_S x H). specialize (IH (x - 50)). split; intros H1.
      * assert (H2 : (i < steps_left (x - 50))%nat) by lia. apply IH in H2. lia.
      * assert (H2 : 50 < x - 50 - 50 * Z.of_nat i) by lia.
        apply IH in H2. lia.
    + rewrite (steps_left_0 x); [|lia]. split; lia.
Qed.

(** ** Lane-end damage over a whole tick (C10) *)

Lemma lane_end_towers_le (p : Ptr) (g g' : Game) :
  nonneg_damage (units g) ->
  0 <= t_currentHP (playerTower g) -> 0 <= t_currentHP (enemyTower g) ->
  lane_end p g = Some g' ->
  0 <= t_currentHP (playerTower g') <= t_currentHP (playerTower g) /\
  0 <= t_currentHP (enemyTower g') <= t_currentHP (enemyTower g).
Proof.
  intros Hn Hp He. unfold lane_end.
  destruct (deref (units g) p) as [u|] eqn:Hu; [|discriminate].
  cbn [bind]. pose proof (Hn u (deref_In _ _ _ Hu)) as Hd.
  destruct (isPlayer u && Qle_bool _ _).
  - cbn -[Z.sub Z.leb].
    destruct (t_currentHP (enemyTower g) - damage u <=? 0) eqn:E;
      intros X; inversion X; subst g'; clear X; cbn -[Z.sub];
      [apply Z.leb_le in E|apply Z.leb_gt in E]; lia.
  - destruct (negb (isPlayer u) && Qle_bool _ _).
    + cbn -[Z.sub Z.leb].
      destruct (t_currentHP (playerTower g) - damage u <=? 0) eqn:E;
        intros X; inversion X; subst g'; clear X; cbn -[Z.sub];
        [apply Z.leb_le in E|apply Z.leb_gt in E]; lia.
    + intros X; inversion X; subst g'. lia.
Qed.

Lemma fixed_positions (a b : Game) :
  fixed a = fixed b ->
  t_position (playerTower a) = t_position (playerTower b) /\
  t_position (enemyTower a) = t_position (enemyTower b).
Proof.
  unfold fixed. intros E. injection E as ?. now split.
Qed.

Section TurnInLoop.
Context {L : StdLib}.

Lemma units_loop_app (dt : Q) (pre post : list Ptr) (g : Game) :
  units_loop dt (pre ++ post) g =
  (g1 <- units_loop dt pre g ;; units_loop dt post g1).
Proof.
  revert g. induction pre as [|p pre IH]; intros g; cbn [app units_loop bind].
  - reflexivity.
  - destruct (visit_unit dt p g) as [g1|]; cbn [bind]; [apply IH|reflexivity].
Qed.

Lemma visit_unit_towers_le (dt : Q) (p : Ptr) (g g' : Game) :
  nonneg_damage (units g) ->
  0 <= t_currentHP (playerTower g) -> 0 <= t_currentHP (enemyTower g) ->
  visit_unit dt p g = Some g' ->
  0 <= t_currentHP (playerTower g') <= t_currentHP (playerTower g) /\
  0 <= t_currentHP (enemyTower g') <= t_currentHP (enemyTower g).
Proof.
  intros Hn Hp He. unfold visit_unit.
  destruct (deref (units g) p) as [u|]; [|discriminate]. cbn [bind].
  destruct (isAlive u).
  - destruct (Unit_Update dt p (units g)) as [us|] eqn:EU; [|discriminate].
    cbn [bind]. intros E. apply lane_end_towers_le in E; try assumption.
    cbn [units set_units]. eapply aged_nonneg; [|exact Hn].
    eapply Unit_Update_aged; eauto.
  - intros E; inversion E; subst g'. cbn. lia.
Qed.

Lemma units_loop_towers_le (dt : Q) (its : list Ptr) (g g' : Game) :
  nonneg_damage (units g) ->
  0 <= t_currentHP (playerTower g) -> 0 <= t_currentHP (enemyTower g) ->
  units_loop dt its g = Some g' ->
  0 <= t_currentHP (playerTower g') <= t_currentHP (playerTower g) /\
  0 <= t_currentHP (enemyTower g') <= t_currentHP (enemyTower g).
Proof.
  revert g. induction its as [|p its IH]; intros g Hn Hp He; simpl.
  - intros E; inversion E; subst. lia.
  - destruct (visit_unit dt p g) as [g1|] eqn:E1; [|discriminate].
    cbn [bind]. intros E.
    pose proof (visit_unit_aged _ _ _ _ Hn E1) as Ha.
    destruct (visit_unit_towers_le _ _ _ _ Hn Hp He E1) as (A & B).
    destruct (IH g1 (aged_nonneg _ _ Ha Hn) (proj1 A) (proj1 B) E) as (C & D).
    lia.
Qed.

Lemma retargeted_towers (dt : Q) (g : Game) :
  t_currentHP (playerTower (retargeted dt g)) = t_currentHP (playerTower g) /\
  t_currentHP (enemyTower (retargeted dt g)) = t_currentHP (enemyTower g) /\
  t_position (playerTower (retargeted dt g)) = t_position (playerTower g) /\
  t_position (enemyTower (retargeted dt g)) = t_position (enemyTower g).
Proof.
  unfold retargeted. cbn [playerTower enemyTower set_enemyTower set_playerTower].
  unfold Tower_Update.
  destruct (negb (t_isAlive (playerTower g))), (negb (t_isAlive (enemyTower g)));
    repeat split.
Qed.

(** The towers after the unit loop of a tick are the towers at its end but
    for the attack timers. *)
Lemma after_loop_towers (dt : Q) (g8 g10 : Game) :
  HandleTowerAttacks
    (set_projectiles (filter active (map (Projectile_Update dt) (projectiles g8))) g8)
    = Some g10 ->
  t_currentHP (playerTower (HandleWaveProgression dt g10)) = t_currentHP (playerTower g8) /\
  t_currentHP (enemyTower (HandleWaveProgression dt g10)) = t_currentHP (enemyTower g8).
Proof.
  unfold HandleTowerAttacks.
  set (g9 := set_projectiles _ g8).
  destruct (tower_strike (playerTower g9) g9) as [[t1 g1]|] eqn:E1; [|discriminate].
  cbn [bind fst snd].
  destruct (tower_strike (enemyTower (set_playerTower t1 g1)) (set_playerTower t1 g1))
    as [[t2 g2]|] eqn:E2; [|discriminate].
  cbn [bind fst snd]. intros E; inversion E; subst g10; clear E.
  destruct (tower_strike_fixed _ _ _ _ E1) as (_ & _ & _ & _ & _ & _ & H1 & _).
  destruct (tower_strike_fixed _ _ _ _ E2) as (_ & _ & _ & _ & _ & _ & H2 & _).
  destruct (tower_strike_keeps _ _ _ _ E1) as (_ & _ & _ & Q1 & _).
  destruct (tower_strike_keeps _ _ _ _ E2) as (_ & _ & P2 & _ & _).
  destruct (HandleWaveProgression_towers dt (set_enemyTower t2 g2)) as (-> & ->).
  cbn [playerTower enemyTower set_enemyTower set_playerTower] in *.
  rewrite P2, H1, H2, Q1. split; reflexivity.
Qed.

(** The turn of the unit at [p] in the unit loop of a tick: the loop has
    brought the game to [g1], the unit is visited there, and the rest of
    the tick does not raise a tower's health. *)
Lemma tick_turn (dt : Q) (keys : Input) (g g' g1 : Game) (pre post : list Ptr) (p : Ptr) :
  currentState g = PLAYING -> gameOver g = false ->
  nonneg_damage (units g) ->
  0 <= t_currentHP (playerTower g) -> 0 <= t_currentHP (enemyTower g) ->
  Game_Update dt keys g = Some g' ->
  map uid (units g) = pre ++ p :: post ->
  units_loop dt pre (retargeted dt g) = Some g1 ->
  (t_currentHP (playerTower g1) <= t_currentHP (playerTower g) /\
   t_currentHP (enemyTower g1) <= t_currentHP (enemyTower g) /\
   t_position (playerTower g1) = t_position (playerTower g) /\
   t_position (enemyTower g1) = t_position (enemyTower g)) /\
  exists g2, visit_unit dt p g1 = Some g2 /\
    t_currentHP (playerTower g') <= t_currentHP (playerTower g2) /\
    t_currentHP (enemyTower g') <= t_currentHP (enemyTower g2).
Proof.
  intros Hs Hg Hn Hp He HU Hmap Hpre.
  destruct (tick_anatomy dt keys g g' Hs Hg HU) as (g8 & g10 & E8 & E10 & ->).
  destruct (retargeted_keeps dt g) as (_ & U7 & _).
  destruct (retargeted_towers dt g) as (T1 & T2 & T3 & T4).
  rewrite Hmap in E8. rewrite units_loop_app, Hpre in E8. cbn [bind units_loop] in E8.
  destruct (visit_unit dt p g1) as [g2|] eqn:E2; [|discriminate]. cbn [bind] in E8.
  assert (Hn7 : nonneg_damage (units (retargeted dt g))) by (rewrite U7; exact Hn).
  destruct (units_loop_towers_le _ _ _ _ Hn7 ltac:(rewrite T1; exact Hp)
              ltac:(rewrite T2; exact He) Hpre) as (A & B).
  pose proof (units_loop_aged _ _ _ _ Hn7 Hpre) as Ha1.
  pose proof (aged_nonneg _ _ Ha1 Hn7) as Hn1.
  destruct (visit_unit_towers_le _ _ _ _ Hn1 (proj1 A) (proj1 B) E2) as (C & D).
  pose proof (visit_unit_aged _ _ _ _ Hn1 E2) as Ha2.
  destruct (units_loop_towers_le _ _ _ _ (aged_nonneg _ _ Ha2 Hn1) (proj1 C) (proj1 D) E8)
    as (E & F).
  destruct (after_loop_towers dt g8 g10 E10) as (-> & ->).
  destruct (fixed_positions _ _ (units_loop_fixed _ _ _ _ Hpre)) as (P1 & P2).
  split.
  - rewrite T1 in A. rewrite T2 in B. rewrite P1, P2, T3, T4. repeat split; lia.
  - exists g2. split; [reflexivity|]. lia.
Qed.

End TurnInLoop.

(** ** Properties of single units kept by the program *)

Section UnitInvariant.
Variable P : Unit -> Prop.
Hypothesis P_currentHP : forall h u, P u -> P (set_currentHP h u).
Hypothesis P_isAlive : forall b u, P u -> P (set_isAlive b u).
Hypothesis P_target : forall t u, P u -> P (set_target t u).
Hypothesis P_attackTimer : forall t u, P u -> P (set_attackTimer t u).
Hypothesis P_freezeTimer : forall t u, P u -> P (set_freezeTimer t u).
Hypothesis P_isFrozen : forall b u, P u -> P (set_isFrozen b u).
Hypothesis P_FollowPath : forall dt u, P u -> P (FollowPath dt u).
Hypothesis P_new : forall p t player, P (Unit_new p t player).

Lemma kept_deref (us : list Unit) (p : Ptr) (u : Unit) :
  Forall P us -> deref us p = Some u -> P u.
Proof.
  intros H Hd. rewrite Forall_forall in H. apply H. eapply deref_In; eauto.
Qed.

Lemma kept_assign (v : Unit) (us : list Unit) :
  P v -> Forall P us -> Forall P (assign v us).
Proof.
  intros Hv H. unfold assign. rewrite Forall_forall in *. intros w Hw.
  apply in_map_iff in Hw. destruct Hw as (x & <- & Hx).
  destruct (Nat.eqb _ _); auto.
Qed.

Lemma kept_splash (me t : Unit) (tp : Ptr) (us : list Unit) :
  Forall P us -> Forall P (splash me t tp us).
Proof.
  intros H. unfold splash. rewrite Forall_forall in *. intros w Hw.
  apply in_map_iff in Hw. destruct Hw as (x & <- & Hx).
  destruct (_ && _); auto. destruct (Qlt_bool _ _); auto.
Qed.

Lemma Attack_kept (self : Ptr) (tg : option Ptr) (us us' : list Unit) :
  Forall P us -> Attack self tg us = Some us' -> Forall P us'.
Proof.
  intros H. unfold Attack. destruct tg as [tp|]; [|intros E; inversion E; subst; exact H].
  destruct (deref us tp) as [t|] eqn:Ht; [|discriminate]. cbn [bind].
  destruct (isAlive t); cbn [negb]; [|intros E; inversion E; subst; exact H].
  destruct (deref us self) as [me|] eqn:Hme; [|discriminate]. cbn [bind].
  set (us1 := assign _ us).
  assert (H1 : Forall P us1)
    by (apply kept_assign; [apply P_currentHP; eapply kept_deref; eauto|exact H]).
  destruct (deref us1 self) as [me1|]; [|discriminate]. cbn [bind].
  destruct (deref us1 tp) as [t1|]; [|discriminate]. cbn [bind].
  set (us2 := if UnitType_eqb (type me1) WIZARD then _ else _).
  assert (H2 : Forall P us2)
    by (subst us2; destruct (UnitType_eqb _ _); [apply kept_splash|]; exact H1).
  destruct (deref us2 tp) as [t2|] eqn:Ht2; [|discriminate]. cbn [bind].
  destruct (currentHP t2 <=? 0); [|intros E; inversion E; subst; exact H2].
  set (us3 := assign _ us2).
  assert (H3 : Forall P us3)
    by (apply kept_assign; [apply P_isAlive; eapply kept_deref; eauto|exact H2]).
  destruct (deref us3 self) as [me3|] eqn:Hme3; [|discriminate]. cbn [bind].
  intros E; inversion E; subst. apply kept_assign; [|exact H3].
  apply P_target. eapply kept_deref; eauto.
Qed.

Section WithLibrary.
Context {L : StdLib}.

Lemma FindTargetWithPriority_kept (u : Unit) (us : list Unit) :
  P u -> P (FindTargetWithPriority u us).
Proof.
  intros H. unfold FindTargetWithPriority.
  destruct (potentialTargets u us); now apply P_target.
Qed.

Lemma Unit_Update_kept (dt : Q) (self : Ptr) (us us' : list Unit) :
  Forall P us -> Unit_Update dt self us = Some us' -> Forall P us'.
Proof.
  intros H. unfold Unit_Update.
  destruct (deref us self) as [u|] eqn:Hu; [|discriminate]. cbn [bind].
  pose proof (kept_deref _ _ _ H Hu) as HPu.
  destruct (isAlive u); cbn [negb]; [|intros E; inversion E; subst; exact H].
  destruct (isFrozen u).
  - intros E; inversion E; subst. apply kept_assign; [|exact H].
    destruct (Qle_bool _ _); [apply P_isFrozen|]; now apply P_freezeTimer.
  - destruct (target_lost us u) as [lost|]; [|discriminate]. cbn [bind].
    set (u1 := if lost then FindTargetWithPriority u us else u).
    assert (Hu1 : P u1)
      by (subst u1; destruct lost; [now apply FindTargetWithPriority_kept|exact HPu]).
    assert (H1 : Forall P (assign u1 us)) by (now apply kept_assign).
    destruct (target_lost (assign u1 us) u1) as [lost1|]; [|discriminate]. cbn [bind].
    destruct lost1; cbn [negb].
    + intros E; inversion E; subst. apply kept_assign; [now apply P_FollowPath|exact H1].
    + destruct (target u1) as [tp|]; [|discriminate]. cbn [bind].
      destruct (deref (assign u1 us) tp) as [t|]; [|discriminate]. cbn [bind].
      destruct (Qle_bool _ _).
      * set (u2 := set_attackTimer _ u1).
        assert (H2 : Forall P (assign u2 (assign u1 us)))
          by (apply kept_assign; [now apply P_attackTimer|exact H1]).
        destruct (Qle_bool (attackRate u2) (attackTimer u2)).
        -- destruct (Attack self (target u2) _) as [us3|] eqn:EA; [|discriminate].
           cbn [bind]. apply Attack_kept in EA; [|exact H2].
           destruct (deref us3 self) as [u3|] eqn:Hu3; [|discriminate]. cbn [bind].
           intros E; inversion E; subst. apply kept_assign; [|exact EA].
           apply P_attackTimer. eapply kept_deref; eauto.
        -- intros E; inversion E; subst. exact H2.
      * intros E; inversion E; subst. apply kept_assign; [|exact H1].
        now apply P_attackTimer, P_FollowPath.
Qed.

Lemma units_loop_kept (dt : Q) (its : list Ptr) (g g' : Game) :
  Forall P (units g) -> units_loop dt its g = Some g' -> Forall P (units g').
Proof.
  revert g. induction its as [|p its IH]; intros g H; simpl.
  - intros E; inversion E; subst; exact H.
  - destruct (visit_unit dt p g) as [g1|] eqn:E1; [|discriminate].
    cbn [bind]. apply IH. unfold visit_unit in E1.
    destruct (deref (units g) p) as [u|]; [|discriminate]. cbn [bind] in E1.
    destruct (isAlive u).
    + destruct (Unit_Update dt p (units g)) as [us|] eqn:EU; [|discriminate].
      cbn [bind] in E1. apply lane_end_units in E1. rewrite E1. cbn [units set_units].
      eapply Unit_Update_kept; eauto.
    + inversion E1; subst. cbn [units set_units]. unfold erase.
      rewrite Forall_forall in *. intros w Hw. apply filter_In in Hw. now apply H.
Qed.

Lemma HandleTowerAttacks_kept (g g' : Game) :
  Forall P (units g) -> HandleTowerAttacks g = Some g' -> Forall P (units g').
Proof.
  assert (Hs : forall t t' a b, Forall P (units a) -> tower_strike t a = Some (t', b) ->
                 Forall P (units b)).
  { intros t t' a b H. unfold tower_strike.
    destruct (CanAttack t); [|intros E; inversion E; subst; exact H].
    destruct (GetBestTarget t) as [p|]; [|intros E; inversion E; subst; exact H].
    destruct (deref (units a) p) as [v|] eqn:Hv; [|discriminate].
    cbn [bind]. intros E; inversion E; subst. cbn.
    apply kept_assign; [|exact H]. apply P_currentHP. eapply kept_deref; eauto. }
  intros H. unfold HandleTowerAttacks.
  destruct (tower_strike (playerTower g) g) as [[t1 g1]|] eqn:E1; [|discriminate].
  cbn [bind fst snd].
  destruct (tower_strike (enemyTower (set_playerTower t1 g1)) (set_playerTower t1 g1))
    as [[t2 g2]|] eqn:E2; [|discriminate].
  cbn [bind fst snd]. intros E; inversion E; subst g'; clear E. cbn.
  apply (Hs _ _ (set_playerTower t1 g1) _ (Hs _ _ _ _ H E1) E2).
Qed.

Lemma tick_kept (dt : Q) (keys : Input) (g g' : Game) :
  Forall P (units g) -> Game_Update dt keys g = Some g' -> Forall P (units g').
Proof.
  intros H HU. destruct (currentState g) eqn:Hs.
  - unfold Game_Update in HU. rewrite Hs in HU. inversion HU; subst g'.
    destruct (KEY_ENTER keys); exact H.
  - destruct (gameOver g) eqn:Hg.
    { rewrite (Game_Update_over dt keys g Hs Hg) in HU. inversion HU; subst g'.
      exact H. }
    destruct (tick_anatomy dt keys g g' Hs Hg HU) as (g8 & g10 & E8 & E10 & ->).
    destruct (retargeted_keeps dt g) as (_ & U7 & _).
    apply units_loop_kept in E8; [|rewrite U7; exact H].
    apply HandleTowerAttacks_kept in E10; [|exact E8].
    destruct (HandleWaveProgression_units dt g10) as [->|(t & ->)]; [exact E10|].
    apply Forall_app. split; [exact E10|]. constructor; [apply P_new|constructor].
  - unfold Game_Update in HU. rewrite Hs in HU. inversion HU; subst g'.
    destruct (KEY_R keys); [constructor|exact H].
Qed.

End WithLibrary.

Lemma handle_input_kept (f : Frame) (g : Game) :
  Forall P (units g) -> Forall P (units (handle_input f g)).
Proof.
  assert (HS : forall t a, Forall P (units a) -> Forall P (units (SpawnUnit t a))).
  { intros t a H. unfold SpawnUnit. destruct (negb _); [exact H|].
    destruct (_ >=? _); [|exact H].
    cbn [units set_playerElixir set_next_ptr set_units].
    apply Forall_app. split; [exact H|]. constructor; [apply P_new|constructor]. }
  assert (HF : forall r a, Forall P (units a) -> Forall P (units (ActivateFreeze r a))).
  { intros r a H. unfold ActivateFreeze. destruct (negb _); [exact H|].
    destruct (negb _); [exact H|].
    cbn [units CreateFreezeEffect set_projectiles set_freezeCooldown
         set_freezeAvailable set_units].
    rewrite Forall_forall in *. intros w Hw.
    apply in_map_iff in Hw. destruct Hw as (x & <- & Hx).
    destruct (_ && _); auto. }
  intros H. unfold handle_input. destruct (GameState_eqb _ _); [|exact H].
  cbv zeta.
  repeat match goal with
         | |- Forall P (units (if ?b then _ else _)) => destruct b
         | |- Forall P (units (SpawnUnit _ _)) => apply HS
         | |- Forall P (units (ActivateFreeze _ _)) => apply HF
         end; exact H.
Qed.

Lemma main_kept {L : StdLib} (frames : list Frame) (g : Game) :
  main frames = Some g -> Forall P (units g).
Proof.
  intros Hm.
  apply (main_loop_invariant (fun g => Forall P (units g)) (fun _ => True))
    with (frames := frames) (g := Game_new); try assumption.
  - apply handle_input_kept.
  - intros f a b _ Ha HU. exact (tick_kept _ _ _ _ Ha HU).
  - apply Forall_forall. intros; exact I.
  - constructor.
Qed.

End UnitInvariant.

(** ** Movement along the lane *)

(** On the lane the distance to the waypoint is the difference of the
    abscissas. *)
Lemma Qsqrt_lane (dx dy : Q) :
  (dy == 0)%Q -> (Qsqrt (dx * dx + dy * dy) == Qabs dx)%Q.
Proof.
  destruct dx as [n d], dy as [m e]. unfold Qeq. cbn [Qnum Qden]. intros Hm.
  assert (m = 0) by lia. subst m.
  unfold Qsqrt, Qabs, Qeq.
  cbn [Qnum Qden Qplus Qmult].
  replace ((n * n * Z.pos (e * e) + 0 * 0 * Z.pos (d * d)) * Z.pos (d * d * (e * e)))
    with ((Z.abs n * Z.pos e * Z.pos d * Z.pos e) * (Z.abs n * Z.pos e * Z.pos d * Z.pos e)).
  - rewrite Z.sqrt_square by (pose proof (Z.abs_nonneg n); nia).
    rewrite !Pos2Z.inj_mul. ring.
  - rewrite !Pos2Z.inj_mul.
    replace (n * n) with (Z.abs n * Z.abs n) by apply Z.abs_square.
    ring.
Qed.

Lemma path_right_lane (n : nat) (x : Z) :
  Forall (fun w => (vy w == inject_Z LANE_Y)%Q) (path_right n x).
Proof.
  revert x. induction n as [|n IH]; intros x; cbn [path_right]; [constructor|].
  destruct (x <? _); constructor; [reflexivity|apply IH].
Qed.

Lemma path_left_lane (n : nat) (x : Z) :
  Forall (fun w => (vy w == inject_Z LANE_Y)%Q) (path_left n x).
Proof.
  revert x. induction n as [|n IH]; intros x; cbn [path_left]; [constructor|].
  destruct (x >? _); constructor; [reflexivity|apply IH].
Qed.

Lemma Unit_new_on_lane (p : Ptr) (t : UnitType) (player : bool) :
  on_lane (Unit_new p t player).
Proof.
  unfold Unit_new, generatePath.
  cbn [isPlayer position path set_path vx].
  set (ps := if player then path_right _ _ else path_left _ _).
  assert (Hps : Forall (fun w => (vy w == inject_Z LANE_Y)%Q) ps)
    by (subst ps; destruct player; [apply path_right_lane|apply path_left_lane]).
  destruct ps as [|w ps]; unfold on_lane;
    cbn [position currentTargetPos path set_attackTimer set_currentTargetPos set_path];
    (split; [destruct player; reflexivity|]); (split; [|exact Hps]).
  - destruct player; reflexivity.
  - now inversion Hps.
Qed.

(** [FollowPath] on the lane: within 5 of the waypoint the unit stays and
    turns to the next waypoint; otherwise it keeps its path and moves by
    [speed * deltaTime] along the lane, towards the waypoint. *)
Lemma FollowPath_lane (dt : Q) (u : Unit) (w : Vector2) (rest : list Vector2) :
  (vy (position u) == inject_Z LANE_Y)%Q ->
  (vy (currentTargetPos u) == inject_Z LANE_Y)%Q ->
  path u = w :: rest ->
  let dx := (vx (currentTargetPos u) - vx (position u))%Q in
  ((Qabs dx < 5)%Q ->
   FollowPath dt u =
     match rest with
     | [] => set_path [] u
     | w' :: _ => set_currentTargetPos w' (set_path rest u)
     end) /\
  ((5 <= Qabs dx)%Q ->
   path (FollowPath dt u) = path u /\
   currentTargetPos (FollowPath dt u) = currentTargetPos u /\
   (vy (position (FollowPath dt u)) == vy (position u))%Q /\
   ((0 < dx)%Q -> (vx (position (FollowPath dt u)) == vx (position u) + speed u * dt)%Q) /\
   ((dx < 0)%Q -> (vx (position (FollowPath dt u)) == vx (position u) - speed u * dt)%Q)).
Proof.
  intros Hy Hc Hpath dx.
  assert (Hdy : (vy (currentTargetPos u) - vy (position u) == 0)%Q) by lra.
  pose proof (Qsqrt_lane dx _ Hdy) as Hd.
  unfold FollowPath. rewrite Hpath. fold dx.
  set (dy := (vy (currentTargetPos u) - vy (position u))%Q) in *.
  set (distance := Qsqrt (dx * dx + dy * dy)) in *.
  split; intros Hcase.
  - assert (E : Qlt_bool distance 5 = true) by (apply Qlt_bool_iff; rewrite Hd; exact Hcase).
    rewrite E. destruct rest; reflexivity.
  - assert (E : Qlt_bool distance 5 = false)
      by (apply Qlt_bool_false_iff; rewrite Hd; exact Hcase).
    rewrite E. cbn [path currentTargetPos position set_position vx vy].
    split; [exact Hpath|]. split; [reflexivity|].
    assert (Hpos : (0 < distance)%Q) by (rewrite Hd; lra).
    split; [|split].
    + rewrite Hdy. unfold Qdiv. lra.
    + intros Hx. assert (E1 : (dx / distance == 1)%Q).
      { rewrite Hd, Qabs_pos by lra. field. lra. }
      rewrite E1. lra.
    + intros Hx. assert (E1 : (dx / distance == -1)%Q).
      { rewrite Hd, Qabs_neg by lra. field. lra. }
      rewrite E1. lra.
Qed.

Lemma FollowPath_on_lane (dt : Q) (u : Unit) : on_lane u -> on_lane (FollowPath dt u).
Proof.
  intros H. destruct (path u) as [|w rest] eqn:Hpath.
  - unfold FollowPath. rewrite Hpath. exact H.
  - destruct H as (Hy & Hc & Hp).
    destruct (FollowPath_lane dt u w rest Hy Hc Hpath) as (Hnear & Hfar). rewrite Hpath in Hp. inversion Hp as [|? ? Hw Hr]; subst.
    destruct (Qlt_le_dec (Qabs (vx (currentTargetPos u) - vx (position u))) 5) as [Hlt|Hge].
    + rewrite (Hnear Hlt). destruct rest as [|w' rest'];
        unfold on_lane; cbn [position currentTargetPos path set_path set_currentTargetPos].
      * repeat split; assumption.
      * inversion Hr; subst. repeat split; assumption.
    + destruct (Hfar Hge) as (E1 & E2 & E3 & _).
      unfold on_lane. rewrite E1, E2, E3, Hpath. repeat split; assumption.
Qed.

Lemma FollowPath_by_the_table (dt : Q) (u : Unit) :
  by_the_table u -> by_the_table (FollowPath dt u).
Proof.
  unfold FollowPath. destruct (path u) as [|w rest]; [auto|].
  destruct (Qlt_bool _ _); [|auto]. destruct rest; auto.
Qed.

Lemma Unit_new_by_the_table (p : Ptr) (t : UnitType) (player : bool) :
  by_the_table (Unit_new p t player).
Proof.
  unfold Unit_new, generatePath. cbn [isPlayer position set_path].
  match goal with |- context [match ?ps with [] => _ | _ => _ end] => destruct ps end;
    unfold by_the_table; cbn; repeat split.
Qed.

(** ** The screens, the freeze cooldown and the spawning step *)

Lemma handle_input_outside_match (f : Frame) (g : Game) :
  currentState g <> PLAYING -> handle_input f g = g.
Proof.
  intros H. unfold handle_input. destruct (currentState g); try reflexivity.
  now contradiction H.
Qed.

Lemma clocks_freeze (dt : Q) (g : Game) :
  (freezeAvailable g = true ->
   freezeAvailable (clocks dt g) = true /\
   freezeCooldown (clocks dt g) = freezeCooldown g) /\
  (freezeAvailable g = false ->
   if Qle_bool (freezeCooldown g - dt) 0
   then freezeAvailable (clocks dt g) = true /\ freezeCooldown (clocks dt g) = 0%Q
   else freezeAvailable (clocks dt g) = false /\
        freezeCooldown (clocks dt g) = (freezeCooldown g - dt)%Q).
Proof.
  unfold clocks. split; intros Hf; rewrite Hf; cbn -[Qminus Qplus Qle_bool Z.ltb].
  - repeat match goal with
           | |- context [if ?b then _ else _] =>
               destruct b; cbn -[Qminus Qplus Qle_bool Z.ltb]
           end; split; solve [reflexivity|exact Hf].
  - destruct (Qle_bool (freezeCooldown g - dt) 0); cbn -[Qminus Qplus Qle_bool Z.ltb];
      repeat match goal with
             | |- context [if ?b then _ else _] =>
                 destruct b; cbn -[Qminus Qplus Qle_bool Z.ltb]
             end; split; solve [reflexivity|exact Hf].
Qed.

Section Phases.
Context {L : StdLib}.

Lemma tick_phase (dt : Q) (keys : Input) (g g' : Game) :
  Game_Update dt keys g = Some g' ->
  (currentState g' = START_SCREEN -> currentState g = START_SCREEN /\ g' = g) /\
  (currentState g' = GAME_OVER ->
   (currentState g = GAME_OVER /\ g' = g) \/
   (currentState g = PLAYING /\ gameOver g = true /\ g' = set_currentState GAME_OVER g)).
Proof.
  intros HU. destruct (currentState g) eqn:Hs.
  - unfold Game_Update in HU. rewrite Hs in HU. inversion HU; subst g'.
    destruct (KEY_ENTER keys); cbn [currentState set_currentState]; rewrite ?Hs;
      split; intros H; try discriminate; auto.
  - destruct (gameOver g) eqn:Hg.
    + rewrite (Game_Update_over dt keys g Hs Hg) in HU. inversion HU; subst g'.
      cbn [currentState set_currentState].
      split; intros H; [discriminate|]. right. auto.
    + destruct (tick_clocks dt keys g g' Hs Hg HU) as (g10 & -> & F & _).
      apply fixed_scalars_of_fields in F. destruct F as (F1 & _).
      destruct (unsequenced_scalars _ _ (HandleWaveProgression_unsequenced dt g10))
        as (B1 & _).
      destruct (clocks_keeps dt g) as (_ & _ & _ & Ec & _).
      rewrite B1, F1, Ec, Hs. split; discriminate.
  - unfold Game_Update in HU. rewrite Hs in HU. inversion HU; subst g'.
    destruct (KEY_R keys); cbn [currentState set_currentState]; rewrite ?Hs;
      split; intros H; try discriminate; auto.
Qed.

End Phases.

(** * Whole runs and whole ticks *)

(** ** Restart (C9) *)

(** C9. In every state the program reaches (the frame times being
    non-negative) the wave chain still has the spawn intervals it was built
    with, so [Reset] there - and with it the restart by R from the
    game-over screen - gives the initial state, the match being played
    again: no units or effects, both towers at full health and alive,
    elixir, timers and freeze availability at their starting values, and
    the wave state, every wave's spawn interval included, as at the start
    (up to the address the next unit will get). *)
Theorem restart_restores_initial_state (L : StdLib) (frames : list Frame) (g : Game) :
  forward frames -> main frames = Some g ->
  set_next_ptr 0%nat (set_currentState PLAYING (Reset g)) = initial_playing /\
  restart_restores g /\
  units (Reset g) = [] /\ projectiles (Reset g) = [] /\
  playerTower (Reset g) = Tower_new true /\ enemyTower (Reset g) = Tower_new false /\
  playerElixir (Reset g) = 5 /\ enemyElixir (Reset g) = 5 /\
  elixirTimer (Reset g) = 0%Q /\ gameTimer (Reset g) = GAME_TIME_LIMIT /\
  freezeAvailable (Reset g) = true /\ freezeCooldown (Reset g) = 0%Q /\
  gameOver (Reset g) = false /\ winner (Reset g) = EmptyString /\
  waveList (Reset g) = InitializeWaves /\ currentWave (Reset g) = 0%nat /\
  waveSpawnTimer (Reset g) = 0%Q /\ currentUnitTypeIndex (Reset g) = 0%nat /\
  unitsSpawnedForCurrentType (Reset g) = 0 /\ isBetweenWaves (Reset g) = false /\
  betweenWavesTimer (Reset g) = 0%Q.
Proof.
  intros Hf Hm.
  assert (Hp : paced g).
  { apply (main_loop_invariant paced (fun f => (0 <= GetFrameTime f)%Q))
      with (frames := frames) (g := Game_new); try assumption.
    - apply handle_input_paced.
    - intros f a b Hq Ha HU. exact (tick_paced _ _ _ _ Hq Ha HU).
    - apply Game_new_paced. }
  destruct Hp as (HW & _).
  assert (HR : set_next_ptr 0%nat (set_currentState PLAYING (Reset g)) = initial_playing)
    by (unfold Reset; rewrite HW; reflexivity).
  split; [exact HR|]. split.
  - intros dt keys Hs Hk. exists (set_currentState PLAYING (Reset g)).
    split; [|exact HR]. unfold Game_Update. rewrite Hs, Hk. reflexivity.
  - unfold Reset. cbn. rewrite HW. repeat split.
Qed.

Lemma restart_restores_initial_state_witness :
  exists g g', @main reference_lib over_frames = Some g /\
    currentState g = GAME_OVER /\ winner g = "Draw"%string /\
    List.length (units g) = 1%nat /\ next_ptr g = 1%nat /\
    @Game_Update reference_lib (1#60) (mkInput false true) g = Some g' /\
    set_next_ptr 0%nat g' = initial_playing.
Proof.
  eexists. eexists. split; [vm_compute; reflexivity|].
  split; [reflexivity|]. split; [reflexivity|]. split; [reflexivity|].
  split; [reflexivity|].
  destruct (restart_restores_initial_state reference_lib over_frames _
              ltac:(repeat constructor; cbn; discriminate)
              ltac:(vm_compute; reflexivity)) as (HR & _).
  split; [vm_compute; reflexivity|]. exact HR.
Defined.

(** ** Lane-end damage (C10) *)

(** C10 as stated fails on the ambush: the frozen knight is alive and 55
    from the player tower when the tick begins, the archer listed before it
    kills it in the same unit loop, the knight is erased at its turn, and
    the tower keeps its 3500 health. *)
Lemma killed_before_turn_deals_no_damage :
  ~ @damage_on_every_tick reference_lib (1#60) no_keys ambush_game.
Proof.
  intros H.
  destruct (H eq_refl eq_refl ambush_knight) as (g' & HU & Hle).
  - right. left. reflexivity.
  - reflexivity.
  - reflexivity.
  - vm_compute. discriminate.
  - vm_compute in HU. inversion HU; subst g'; clear HU.
    vm_compute in Hle. apply Hle. reflexivity.
Qed.

(** C10 (as amended). On a tick of a match being played, a unit that is
    still alive when the unit loop reaches it - the loop over the units
    listed before it having brought the game to [g1] - is updated and then
    put to the lane-end check, frozen or not.  A frozen unit's update only
    runs its freeze timer (position, attack timer and target stay), so a
    frozen player unit at or beyond 60 before the enemy tower, or a frozen
    enemy unit at or within 60 of the player tower, takes its damage off
    that tower's health in this visit (clamped at 0, the tower marked not
    alive when the hit is lethal); an unfrozen unit does the same from the
    position its update leaves it at.  No later step of the tick raises a
    tower's health, so at the end of the tick the tower has at most its
    health from the start of the tick less that damage.  (A unit alive when
    the tick begins but killed earlier in the loop is erased at its turn
    and deals nothing.) *)
Theorem lane_end_damage_at_turn (L : StdLib) (dt : Q) (keys : Input)
        (g g' g1 : Game) (pre post : list Ptr) (p : Ptr) (u : Unit) :
  currentState g = PLAYING -> gameOver g = false ->
  (forall v, In v (units g) -> 0 <= damage v) ->
  0 <= t_currentHP (playerTower g) -> 0 <= t_currentHP (enemyTower g) ->
  Game_Update dt keys g = Some g' ->
  map uid (units g) = pre ++ p :: post ->
  units_loop dt pre (retargeted dt g) = Some g1 ->
  deref (units g1) p = Some u -> isAlive u = true ->
  (isFrozen u = true ->
   (isPlayer u = true ->
    (vx (t_position (enemyTower g)) - 60 <= vx (position u))%Q ->
    exists g2 u', visit_unit dt p g1 = Some g2 /\
      hit_by (damage u) (enemyTower g1) (enemyTower g2) /\
      deref (units g2) p = Some u' /\ position u' = position u /\
      attackTimer u' = attackTimer u /\ target u' = target u /\
      t_currentHP (enemyTower g')
        <= Z.max 0 (t_currentHP (enemyTower g) - damage u)) /\
   (isPlayer u = false ->
    (vx (position u) <= vx (t_position (playerTower g)) + 60)%Q ->
    exists g2 u', visit_unit dt p g1 = Some g2 /\
      hit_by (damage u) (playerTower g1) (playerTower g2) /\
      deref (units g2) p = Some u' /\ position u' = position u /\
      attackTimer u' = attackTimer u /\ target u' = target u /\
      t_currentHP (playerTower g')
        <= Z.max 0 (t_currentHP (playerTower g) - damage u))) /\
  (forall us' u',
     Unit_Update dt p (units g1) = Some us' -> deref us' p = Some u' ->
     (isPlayer u' = true ->
      (vx (t_position (enemyTower g)) - 60 <= vx (position u'))%Q ->
      exists g2, visit_unit dt p g1 = Some g2 /\
        hit_by (damage u') (enemyTower g1) (enemyTower g2) /\ units g2 = us' /\
        t_currentHP (enemyTower g')
          <= Z.max 0 (t_currentHP (enemyTower g) - damage u')) /\
     (isPlayer u' = false ->
      (vx (position u') <= vx (t_position (playerTower g)) + 60)%Q ->
      exists g2, visit_unit dt p g1 = Some g2 /\
        hit_by (damage u') (playerTower g1) (playerTower g2) /\ units g2 = us' /\
        t_currentHP (playerTower g')
          <= Z.max 0 (t_currentHP (playerTower g) - damage u'))).
Proof.
  intros Hs Hg Hn Hp He HU Hmap Hpre Hu Ha.
  destruct (tick_turn dt keys g g' g1 pre post p Hs Hg Hn Hp He HU Hmap Hpre)
    as ((A1 & A2 & P1 & P2) & g2 & E2 & B1 & B2).
  assert (Hgen : forall us' u',
     Unit_Update dt p (units g1) = Some us' -> deref us' p = Some u' ->
     (isPlayer u' = true ->
      (vx (t_position (enemyTower g)) - 60 <= vx (position u'))%Q ->
      hit_by (damage u') (enemyTower g1) (enemyTower g2) /\ units g2 = us' /\
      t_currentHP (enemyTower g')
        <= Z.max 0 (t_currentHP (enemyTower g) - damage u')) /\
     (isPlayer u' = false ->
      (vx (position u') <= vx (t_position (playerTower g)) + 60)%Q ->
      hit_by (damage u') (playerTower g1) (playerTower g2) /\ units g2 = us' /\
      t_currentHP (playerTower g')
        <= Z.max 0 (t_currentHP (playerTower g) - damage u'))).
  { intros us' u' HUU Hd.
    destruct (visit_unit_lane_end dt p u u' us' g1 Hu Ha HUU Hd) as (Hpl & Hen).
    rewrite P2 in Hpl. rewrite P1 in Hen. split; intros Hside Hband.
    - destruct (Hpl Hside Hband) as (g2' & E2' & Hh & _ & Hus).
      rewrite E2 in E2'. inversion E2'; subst g2'.
      split; [exact Hh|]. split; [exact Hus|]. destruct Hh as (-> & _) in B2. lia.
    - destruct (Hen Hside Hband) as (g2' & E2' & Hh & _ & Hus).
      rewrite E2 in E2'. inversion E2'; subst g2'.
      split; [exact Hh|]. split; [exact Hus|]. destruct Hh as (-> & _) in B1. lia. }
  split.
  - intros Hf.
    pose proof (Unit_Update_frozen_eq dt p u (units g1) Hu Ha Hf) as HUU.
    destruct (frozen_tick_keeps dt u) as (Eid & Epos & Eat & Etg & _ & Epl & Edmg & _).
    assert (Hd : deref (assign (frozen_tick dt u) (units g1)) p = Some (frozen_tick dt u)).
    { pose proof (deref_uid _ _ _ Hu) as Eu. rewrite <- Eu, <- Eid.
      eapply deref_assign_same. rewrite Eid, Eu. exact Hu. }
    destruct (Hgen _ _ HUU Hd) as (Hpl & Hen).
    rewrite Epl, Epos, Edmg in Hpl, Hen.
    split; intros Hside Hband.
    + destruct (Hpl Hside Hband) as (Hh & Hus & Hle).
      exists g2, (frozen_tick dt u). rewrite Hus.
      split; [exact E2|]. split; [exact Hh|]. split; [exact Hd|].
      split; [exact Epos|]. split; [exact Eat|]. split; [exact Etg|exact Hle].
    + destruct (Hen Hside Hband) as (Hh & Hus & Hle).
      exists g2, (frozen_tick dt u). rewrite Hus.
      split; [exact E2|]. split; [exact Hh|]. split; [exact Hd|].
      split; [exact Epos|]. split; [exact Eat|]. split; [exact Etg|exact Hle].
  - intros us' u' HUU Hd. destruct (Hgen _ _ HUU Hd) as (Hpl & Hen).
    split; intros Hside Hband.
    + destruct (Hpl Hside Hband) as (Hh & Hus & Hle). exists g2. auto.
    + destruct (Hen Hside Hband) as (Hh & Hus & Hle). exists g2. auto.
Qed.

Lemma lane_end_damage_at_turn_witness :
  (exists g', @Game_Update reference_lib (1#60) no_keys ambush_game_knight_first = Some g' /\
     t_currentHP (playerTower g') = 3440 /\
     map (fun v => (uid v, currentHP v, isAlive v)) (units g')
       = [(1%nat, -10, false); (0%nat, 150, true)] /\
     t_currentHP (playerTower g') <= Z.max 0 (3500 - 60)) /\
  (exists g', @Game_Update reference_lib (1#60) no_keys frozen_game = Some g' /\
     t_currentHP (playerTower g') = 3460 /\
     t_currentHP (playerTower g') <= Z.max 0 (3500 - 40)).
Proof.
  split.
  - eexists. split; [vm_compute; reflexivity|].
    split; [vm_compute; reflexivity|]. split; [vm_compute; reflexivity|].
    lazymatch goal with
    | |- t_currentHP (playerTower ?x) <= _ =>
        destruct (lane_end_damage_at_turn reference_lib (1#60) no_keys
                    ambush_game_knight_first x
                    (@retargeted reference_lib (1#60) ambush_game_knight_first)
                    [] [0%nat] 1%nat ambush_knight eq_refl eq_refl) as (Hfz & _)
    end.
    + intros v [<-|[<-|[]]]; vm_compute; discriminate.
    + vm_compute; discriminate.
    + vm_compute; discriminate.
    + vm_compute; reflexivity.
    + reflexivity.
    + reflexivity.
    + vm_compute; reflexivity.
    + reflexivity.
    + destruct (Hfz eq_refl) as (_ & Hen).
      destruct Hen as (g2 & u' & _ & _ & _ & _ & _ & _ & Hle);
        [reflexivity|vm_compute; discriminate|].
      exact Hle.
  - eexists. split; [vm_compute; reflexivity|].
    split; [vm_compute; reflexivity|].
    lazymatch goal with
    | |- t_currentHP (playerTower ?x) <= _ =>
        let r := eval vm_compute in
                   (@units_loop reference_lib (1#60) [0%nat; 1%nat]
                      (@retargeted reference_lib (1#60) frozen_game)) in
        lazymatch r with
        | Some ?g1 =>
            destruct (lane_end_damage_at_turn reference_lib (1#60) no_keys
                        frozen_game x g1 [0%nat; 1%nat] [] 2%nat frozen_archer
                        eq_refl eq_refl) as (Hfz & _)
        end
    end.
    + intros v [<-|[<-|[<-|[]]]]; vm_compute; discriminate.
    + vm_compute; discriminate.
    + vm_compute; discriminate.
    + vm_compute; reflexivity.
    + reflexivity.
    + vm_compute; reflexivity.
    + vm_compute; reflexivity.
    + reflexivity.
    + destruct (Hfz eq_refl) as (_ & Hen).
      destruct Hen as (g2 & u' & _ & _ & _ & _ & _ & _ & Hle);
        [reflexivity|vm_compute; discriminate|].
      exact Hle.
Defined.

(** ** The states the frame loop reaches *)

Lemma Game_new_sound : outcome_ok Game_new /\ units_sound Game_new /\ elixir_ok Game_new.
Proof.
  unfold outcome_ok, units_sound, elixir_ok, towers_armed, tower_ok. cbn.
  unfold TOWER_HP, TOWER_DAMAGE, MAX_ELIXIR.
  repeat split; try lia; try discriminate; try constructor;
    try (left; repeat split; lia); try (intros u []).
Qed.

(** X1. Whatever is pressed and however long the program runs, as long as
    the frame times are not negative the wave chain keeps the spawn
    intervals it was built with: the sequencer is never ahead of the time
    played in the match, and the wrap that shortens the intervals lies
    157.5 seconds into a match of 120. *)
Theorem main_keeps_wave_chain (L : StdLib) (frames : list Frame) (g : Game) :
  forward frames -> main frames = Some g ->
  waveList g = InitializeWaves /\ (currentWave g < 8)%nat /\
  (time_needed g <= GAME_TIME_LIMIT - gameTimer g)%Q.
Proof.
  intros Hf Hm.
  assert (Hp : paced g).
  { apply (main_loop_invariant paced (fun f => (0 <= GetFrameTime f)%Q))
      with (frames := frames) (g := Game_new); try assumption.
    - apply handle_input_paced.
    - intros f a b Hq Ha HU. exact (tick_paced _ _ _ _ Hq Ha HU).
    - apply Game_new_paced. }
  destruct Hp as (A & B & _ & _ & _ & C). auto.
Qed.

Lemma main_keeps_wave_chain_witness :
  exists g, @main reference_lib demo_frames = Some g /\
            waveList g = InitializeWaves /\ (time_needed g == 9 # 2)%Q /\
            (gameTimer g == 13858 # 120)%Q.
Proof.
  eexists. split; [vm_compute; reflexivity|].
  split; [|split; vm_compute; reflexivity].
  apply (main_keeps_wave_chain reference_lib demo_frames).
  - repeat constructor; cbn; discriminate.
  - vm_compute; reflexivity.
Defined.

(** X2. In every state the frame loop reaches the outcome agrees with the
    towers: a standing tower has health above 0 and within its maximum, a
    fallen one has health exactly 0; while the match is on no winner is
    named and both towers stand; once it is over the winner is the draw of
    the countdown, or the side whose opponent's tower has fallen. *)
Theorem main_outcome_agrees_with_towers (L : StdLib) (frames : list Frame) (g : Game) :
  main frames = Some g -> outcome_ok g.
Proof.
  intros Hm.
  assert (Hp : outcome_ok g /\ units_sound g); [|exact (proj1 Hp)].
  apply (main_loop_invariant (fun g => outcome_ok g /\ units_sound g) (fun _ => True))
    with (frames := frames) (g := Game_new); try assumption.
  - intros f a (Ho & Hs). split; [now apply handle_input_outcome|].
    now apply handle_input_units_sound.
  - intros f a b _ (Ho & Hs) HU. split; [|exact (tick_units_sound _ _ _ _ Hs HU)].
    destruct Hs as (_ & Hn & _).
    exact (proj1 (tick_outcome _ _ _ _ Hn Ho HU)).
  - apply Forall_forall. intros; exact I.
  - split; apply Game_new_sound.
Qed.

Lemma main_outcome_agrees_with_towers_witness :
  exists g, @main reference_lib demo_frames = Some g /\ outcome_ok g /\
            gameOver g = false.
Proof.
  eexists. split; [vm_compute; reflexivity|].
  split; [|vm_compute; reflexivity].
  apply (main_outcome_agrees_with_towers reference_lib demo_frames).
  vm_compute; reflexivity.
Defined.

(** X3. In every state the frame loop reaches both elixir counts lie
    between 0 and [MAX_ELIXIR]: the clock adds one at a time below the cap
    and [SpawnUnit] never spends more than there is. *)
Theorem main_elixir_within_bar (L : StdLib) (frames : list Frame) (g : Game) :
  main frames = Some g ->
  0 <= playerElixir g <= MAX_ELIXIR /\ 0 <= enemyElixir g <= MAX_ELIXIR.
Proof.
  intros Hm.
  apply (main_loop_invariant elixir_ok (fun _ => True))
    with (frames := frames) (g := Game_new); try assumption.
  - apply handle_input_elixir.
  - intros f a b _ Ha HU. exact (tick_elixir _ _ _ _ Ha HU).
  - apply Forall_forall. intros; exact I.
  - apply Game_new_sound.
Qed.

Lemma main_elixir_within_bar_witness :
  exists g, @main reference_lib demo_frames = Some g /\
            (0 <= playerElixir g <= MAX_ELIXIR /\ 0 <= enemyElixir g <= MAX_ELIXIR) /\
            playerElixir g = 3 /\ enemyElixir g = 6.
Proof.
  eexists. split; [vm_compute; reflexivity|].
  split; [|vm_compute; split; reflexivity].
  apply (main_elixir_within_bar reference_lib demo_frames).
  vm_compute; reflexivity.
Defined.

(** X4. In every state the frame loop reaches every unit in the list has
    health within its maximum, is marked dead only at health 0 or below,
    and deals non-negative damage. *)
Theorem main_units_within_health (L : StdLib) (frames : list Frame) (g : Game) :
  main frames = Some g ->
  forall u, In u (units g) ->
    currentHP u <= maxHP u /\ (isAlive u = false -> currentHP u <= 0) /\
    0 <= damage u.
Proof.
  intros Hm.
  assert (Hp : units_sound g).
  { apply (main_loop_invariant units_sound (fun _ => True))
      with (frames := frames) (g := Game_new); try assumption.
    - apply handle_input_units_sound.
    - intros f a b _ Ha HU. exact (tick_units_sound _ _ _ _ Ha HU).
    - apply Forall_forall. intros; exact I.
    - apply Game_new_sound. }
  destruct Hp as (Hh & Hn & _). rewrite Forall_forall in Hh.
  intros u Hu. destruct (Hh u Hu) as (A & B). split; [exact A|]. split; [exact B|].
  now apply Hn.
Qed.

Lemma main_units_within_health_witness :
  exists g, @main reference_lib demo_frames = Some g /\
            map currentHP (units g) = [300; 300] /\
            forall u, In u (units g) ->
              currentHP u <= maxHP u /\ (isAlive u = false -> currentHP u <= 0) /\
              0 <= damage u.
Proof.
  eexists. split; [vm_compute; reflexivity|].
  split; [vm_compute; reflexivity|].
  apply (main_units_within_health reference_lib demo_frames).
  vm_compute; reflexivity.
Defined.

(** ** One tick of a match being played *)

(** X5. Over a tick of a match being played every unit still in the list
    is a later state of a unit the tick started with - the same object with
    the same maximum health and damage, health not higher, not brought back
    to life, and marked dead only at health 0 or below - or the unit the
    wave sequencer has just constructed. *)
Theorem tick_health_only_falls (L : StdLib) (dt : Q) (keys : Input) (g g' : Game) :
  currentState g = PLAYING ->
  (forall u, In u (units g) -> 0 <= damage u) ->
  0 <= t_damage (playerTower g) -> 0 <= t_damage (enemyTower g) ->
  Game_Update dt keys g = Some g' ->
  forall u', In u' (units g') ->
    (exists u, In u (units g) /\ ages u u') \/
    (exists p t, u' = Unit_new p t false).
Proof.
  intros Hs Hn Hp He HU. exact (tick_aged dt keys g g' Hs Hn Hp He HU).
Qed.

Lemma tick_health_only_falls_witness :
  exists g', @Game_Update reference_lib (1#60) no_keys splash_game = Some g' /\
    map currentHP (units g') = [180; 230; -5] /\
    forall u', In u' (units g') ->
      (exists u, In u (units splash_game) /\ ages u u') \/
      (exists p t, u' = Unit_new p t false).
Proof.
  eexists. split; [vm_compute; reflexivity|]. split; [vm_compute; reflexivity|].
  apply (tick_health_only_falls reference_lib (1#60) no_keys splash_game).
  - reflexivity.
  - intros u [<-|[<-|[<-|[]]]]; vm_compute; discriminate.
  - vm_compute; discriminate.
  - vm_compute; discriminate.
  - vm_compute; reflexivity.
Defined.

(** X6. After a tick of a match being played the target queue of a living
    tower holds exactly what the pushes of the living opposing units within
    [TOWER_RANGE] - as they stood when the tick began, in list order - build
    from an empty queue: nothing of the queue before, and nothing of what
    the unit loop, the tower attacks or the wave did later in the tick. *)
Theorem tick_rebuilds_tower_queues (L : StdLib) (dt : Q) (keys : Input) (g g' : Game) :
  currentState g = PLAYING -> gameOver g = false ->
  Game_Update dt keys g = Some g' ->
  (t_isAlive (playerTower g) = true ->
   targetQueue (playerTower g') =
   fold_left (push_heap TowerTargetPriority) (towerCandidates (playerTower g) (units g)) []) /\
  (t_isAlive (enemyTower g) = true ->
   targetQueue (enemyTower g') =
   fold_left (push_heap TowerTargetPriority) (towerCandidates (enemyTower g) (units g)) []).
Proof.
  intros Hs Hg HU. exact (tick_requeues dt keys g g' Hs Hg HU).
Qed.

Lemma tick_rebuilds_tower_queues_witness :
  exists g', @Game_Update reference_lib (1#60) no_keys siege_game = Some g' /\
    map (fun e => (uid (fst e), currentHP (fst e))) (targetQueue (playerTower g'))
      = [(0%nat, 50)] /\
    hp_of g' 0%nat = Some (-60) /\
    targetQueue (enemyTower g') = [].
Proof.
  eexists. split; [vm_compute; reflexivity|].
  destruct (tick_rebuilds_tower_queues reference_lib (1#60) no_keys siege_game _
              eq_refl eq_refl ltac:(vm_compute; reflexivity)) as (Hp & He).
  rewrite (Hp eq_refl), (He eq_refl). vm_compute. repeat split; reflexivity.
Defined.

(** X7. After a tick of a match being played every projectile in the list
    is in flight: active, with progress below 1.  The ones that reached
    their end in the tick are gone, and the ones the towers fired in the
    tick start at progress 0. *)
Theorem tick_projectiles_in_flight (L : StdLib) (dt : Q) (keys : Input) (g g' : Game) :
  currentState g = PLAYING -> gameOver g = false ->
  Game_Update dt keys g = Some g' ->
  forall p, In p (projectiles g') -> active p = true /\ (progress p < 1)%Q.
Proof.
  intros Hs Hg HU.
  destruct (tick_clocks dt keys g g' Hs Hg HU) as (g10 & -> & _ & _ & Hf).
  destruct (unsequenced_scalars _ _ (HandleWaveProgression_unsequenced dt g10))
    as (_ & _ & _ & _ & _ & _ & _ & _ & _ & ->).
  rewrite Forall_forall in Hf. exact Hf.
Qed.

Lemma tick_projectiles_in_flight_witness :
  exists g', @Game_Update reference_lib (1#60) no_keys siege_game = Some g' /\
    map progress (projectiles g') = [0%Q] /\
    forall p, In p (projectiles g') -> active p = true /\ (progress p < 1)%Q.
Proof.
  eexists. split; [vm_compute; reflexivity|]. split; [vm_compute; reflexivity|].
  apply (tick_projectiles_in_flight reference_lib (1#60) no_keys siege_game);
    vm_compute; reflexivity.
Defined.

(** X8. The tick on which the countdown reaches 0 ends the match: the timer
    is set to exactly 0 and [gameOver] is raised, the wave sequencer does
    not run any more, and the state stays [PLAYING] for this tick; the next
    call of [Game::Update] only moves the state to [GAME_OVER].  On any
    other tick the timer goes down by the frame time. *)
Theorem countdown_ends_match (L : StdLib) (dt : Q) (keys : Input) (g g' : Game) :
  currentState g = PLAYING -> gameOver g = false ->
  Game_Update dt keys g = Some g' ->
  ((gameTimer g - dt <= 0)%Q ->
   gameOver g' = true /\ gameTimer g' = 0%Q /\ currentState g' = PLAYING /\
   (waveList g', currentWave g', waveSpawnTimer g', currentUnitTypeIndex g',
    unitsSpawnedForCurrentType g', isBetweenWaves g', betweenWavesTimer g') =
   (waveList g, currentWave g, waveSpawnTimer g, currentUnitTypeIndex g,
    unitsSpawnedForCurrentType g, isBetweenWaves g, betweenWavesTimer g) /\
   forall dt2 keys2,
     Game_Update dt2 keys2 g' = Some (set_currentState GAME_OVER g')) /\
  (~ (gameTimer g - dt <= 0)%Q -> gameTimer g' = (gameTimer g - dt)%Q).
Proof.
  intros Hs Hg HU.
  destruct (tick_countdown dt keys g g' Hs Hg HU) as (Hexp & Hrun).
  split; intros E.
  - apply Qle_bool_iff in E. destruct (Hexp E) as (G & T & S & F).
    split; [exact G|]. split; [exact T|]. split; [exact S|].
    split; [|intros dt2 keys2; now apply Game_Update_over].
    apply fixed_scalars_of_fields in F.
    destruct F as (_ & _ & _ & _ & _ & _ & _ & _ & -> & -> & -> & -> & -> & -> & ->).
    apply (clocks_keeps dt g).
  - apply Hrun. destruct (Qle_bool (gameTimer g - dt) 0) eqn:E'; [|reflexivity].
    apply Qle_bool_iff in E'. contradiction.
Qed.

Lemma countdown_ends_match_witness :
  exists g', @Game_Update reference_lib (1#60) no_keys
               (set_gameTimer (1#100) splash_game) = Some g' /\
    gameOver g' = true /\ gameTimer g' = 0%Q /\ winner g' = "Draw"%string /\
    map currentHP (units g') = [180; 230; -5].
Proof.
  eexists. split; [vm_compute; reflexivity|].
  destruct (countdown_ends_match reference_lib (1#60) no_keys
              (set_gameTimer (1#100) splash_game) _ eq_refl eq_refl
              ltac:(vm_compute; reflexivity)) as (Hexp & _).
  destruct Hexp as (G & T & _); [vm_compute; discriminate|].
  split; [exact G|]. split; [exact T|]. vm_compute. split; reflexivity.
Defined.

(** ** Who can be chosen as a target *)

(** X9. Whatever order the sort and the queue produce, a target is always
    eligible.  After [FindTargetWithPriority] the unit's target is null
    exactly when no living unit of the other side stands within one and a
    half times its attack range, and otherwise points to such a unit of the
    list; the best target of a tower after [UpdateTargetQueue] is null
    exactly when no living unit of the other side stands closer than
    [TOWER_RANGE], and otherwise points to such a unit. *)
Theorem targets_are_eligible (L : StdLib) (LL : StdLibLaws L)
        (self : Unit) (tw : Tower) (us : list Unit) :
  (target (FindTargetWithPriority self us) = None <-> potentialTargets self us = []) /\
  (forall p, target (FindTargetWithPriority self us) = Some p ->
     exists t, In t us /\ uid t = p /\ isAlive t = true /\
               isPlayer t <> isPlayer self /\
               (CalculateDistance (position self) (position t)
                <= attackRange self * (15#10))%Q) /\
  (GetBestTarget (UpdateTargetQueue us tw) = None <-> towerCandidates tw us = []) /\
  (forall p, GetBestTarget (UpdateTargetQueue us tw) = Some p ->
     exists t, In t us /\ uid t = p /\ isAlive t = true /\
               isPlayer t <> t_isPlayer tw /\
               (CalculateDistance (t_position tw) (position t) < TOWER_RANGE)%Q).
Proof.
  assert (Hhd : forall A (l l' : list A), Permutation l' l ->
            (hd_error l' = None <-> l = []) /\
            (forall x, hd_error l' = Some x -> In x l)).
  { intros A l l' Hp. split.
    - split; intros H.
      + destruct l' as [|x l']; [|discriminate]. now apply Permutation_nil.
      + subst l. apply Permutation_sym, Permutation_nil in Hp. now subst l'.
    - intros x H. destruct l' as [|y l']; [discriminate|]. inversion H; subst.
      apply (Permutation_in _ Hp). now left. }
  split; [|split; [|split]].
  - unfold FindTargetWithPriority.
    destruct (potentialTargets self us) as [|c pts] eqn:E; [split; reflexivity|].
    cbn [target set_target].
    destruct (Hhd _ _ _ (std_sort_perm _ target_less (c :: pts))) as (H0 & _).
    destruct (hd_error (std_sort target_less (c :: pts))) eqn:Eh; cbn [option_map].
    + split; discriminate.
    + split; [intros _; now apply H0|discriminate].
  - intros p. unfold FindTargetWithPriority.
    destruct (potentialTargets self us) as [|c pts] eqn:E; [discriminate|].
    cbn [target set_target].
    destruct (Hhd _ _ _ (std_sort_perm _ target_less (c :: pts))) as (_ & H1).
    destruct (hd_error (std_sort target_less (c :: pts))) as [[t d]|];
      [|discriminate].
    cbn [option_map fst]. intros Hp. inversion Hp; subst p.
    specialize (H1 _ eq_refl). rewrite <- E in H1.
    apply potentialTargets_In in H1. destruct H1 as (A1 & A2 & A3 & A4 & A5).
    exists t. subst d. repeat split; assumption.
  - unfold GetBestTarget. rewrite UpdateTargetQueue_pushes.
    destruct (Hhd _ _ _ (pushes_perm TowerTargetPriority (towerCandidates tw us) []))
      as (H0 & _).
    cbn [app] in H0. rewrite <- H0.
    destruct (hd_error _); cbn [option_map]; split; try discriminate; reflexivity.
  - intros p. unfold GetBestTarget. rewrite UpdateTargetQueue_pushes.
    destruct (Hhd _ _ _ (pushes_perm TowerTargetPriority (towerCandidates tw us) []))
      as (_ & H1).
    cbn [app] in H1.
    destruct (hd_error _) as [[t d]|]; [|discriminate].
    cbn [option_map fst]. intros Hp. inversion Hp; subst p.
    specialize (H1 _ eq_refl).
    apply towerCandidates_In in H1. destruct H1 as (A1 & A2 & A3 & A4 & A5).
    exists t. subst d. repeat split; assumption.
Qed.

Lemma targets_are_eligible_witness :
  target (@FindTargetWithPriority reference_lib cyc_me cyc_units) = Some 3%nat /\
  (exists t, In t cyc_units /\ uid t = 3%nat /\ isAlive t = true /\
             isPlayer t <> isPlayer cyc_me /\
             (CalculateDistance (position cyc_me) (position t)
              <= attackRange cyc_me * (15#10))%Q) /\
  GetBestTarget (@UpdateTargetQueue reference_lib [] (Tower_new true)) = None.
Proof.
  destruct (targets_are_eligible reference_lib reference_laws cyc_me (Tower_new true)
              cyc_units) as (_ & Hu & _).
  destruct (targets_are_eligible reference_lib reference_laws cyc_me (Tower_new true) [])
    as (_ & _ & Ht & _).
  split; [vm_compute; reflexivity|]. split.
  - apply Hu. vm_compute; reflexivity.
  - apply Ht. reflexivity.
Defined.

(** ** The path of a unit *)

(** X10. The loops of [generatePath] end, and what they leave is the
    arithmetic progression along the lane: for a player's unit at integer
    position [x] the waypoints [x], [x + 50], [x + 100], ... for as long as
    they are below [SCREEN_WIDTH - 50], for an enemy unit [x], [x - 50], ...
    for as long as they are above 50, in this order and nothing else; more
    iterations change nothing.  The current waypoint becomes the first of
    them - the unit's own position - and is left as it was when there is
    none. *)
Theorem generatePath_waypoints (u : Unit) :
  let x := to_int (vx (position u)) in
  exists n : nat,
    path (generatePath u) =
      map (fun i => lane_point (if isPlayer u then x + 50 * Z.of_nat i
                                else x - 50 * Z.of_nat i)) (seq 0 n) /\
    (forall i : nat, (i < n)%nat <->
       if isPlayer u then x + 50 * Z.of_nat i < SCREEN_WIDTH - 50
       else 50 < x - 50 * Z.of_nat i) /\
    (forall k, if isPlayer u then path_right (n + k) x = path_right n x
               else path_left (n + k) x = path_left n x) /\
    currentTargetPos (generatePath u) =
      (if (0 <? Z.of_nat n) then lane_point x else currentTargetPos u).
Proof.
  intros x. unfold generatePath. fold x. destruct (isPlayer u) eqn:Hp.
  - exists (steps_right x). rewrite (path_right_closed _ x (le_n _)).
    split; [|split; [|split]].
    + destruct (steps_right x); reflexivity.
    + apply steps_right_spec.
    + intros k. rewrite !path_right_closed by lia. reflexivity.
    + destruct (steps_right x) as [|m]; [reflexivity|].
      cbn [seq map currentTargetPos set_currentTargetPos].
      replace (x + 50 * Z.of_nat 0) with x by lia. reflexivity.
  - exists (steps_left x). rewrite (path_left_closed _ x (le_n _)).
    split; [|split; [|split]].
    + destruct (steps_left x); reflexivity.
    + apply steps_left_spec.
    + intros k. rewrite !path_left_closed by lia. reflexivity.
    + destruct (steps_left x) as [|m]; [reflexivity|].
      cbn [seq map currentTargetPos set_currentTargetPos].
      replace (x - 50 * Z.of_nat 0) with x by lia. reflexivity.
Qed.

(** ** Units on the lane *)

(** X12. In every state the frame loop reaches every unit is on the lane:
    its position, its current waypoint and every waypoint of its path have
    the height [LANE_Y]; no step of the program moves a unit off the lane,
    so the distance between two units is the difference of their
    abscissas. *)
Theorem main_units_stay_on_lane (L : StdLib) (frames : list Frame) (g : Game) :
  main frames = Some g ->
  forall u, In u (units g) ->
    (vy (position u) == inject_Z LANE_Y)%Q /\
    (vy (currentTargetPos u) == inject_Z LANE_Y)%Q /\
    Forall (fun w => (vy w == inject_Z LANE_Y)%Q) (path u).
Proof.
  intros Hm. apply Forall_forall. revert Hm.
  apply (main_kept on_lane); try (intros; assumption).
  - apply FollowPath_on_lane.
  - apply Unit_new_on_lane.
Qed.

Lemma main_units_stay_on_lane_witness :
  exists g, @main reference_lib demo_frames = Some g /\
    map (fun u => Qred (vx (position u))) (units g) = [430; 1050]%Q /\
    forall u, In u (units g) ->
      (vy (position u) == inject_Z LANE_Y)%Q /\
      (vy (currentTargetPos u) == inject_Z LANE_Y)%Q /\
      Forall (fun w => (vy w == inject_Z LANE_Y)%Q) (path u).
Proof.
  eexists. split; [vm_compute; reflexivity|]. split; [vm_compute; reflexivity|].
  apply (main_units_stay_on_lane reference_lib demo_frames).
  vm_compute; reflexivity.
Defined.

(** X13. [FollowPath] for a unit on the lane with a waypoint left: when the
    current waypoint is nearer than 5 the unit does not move, drops the
    first waypoint of its path and turns to the next one (keeping the
    current waypoint when none is left); otherwise it keeps path and
    waypoint, stays on the lane, and moves by exactly [speed * deltaTime]
    towards the waypoint, however far that carries it past the waypoint. *)
Theorem FollowPath_along_lane (dt : Q) (u : Unit) (w : Vector2) (rest : list Vector2) :
  (vy (position u) == inject_Z LANE_Y)%Q ->
  (vy (currentTargetPos u) == inject_Z LANE_Y)%Q ->
  path u = w :: rest ->
  let dx := (vx (currentTargetPos u) - vx (position u))%Q in
  ((Qabs dx < 5)%Q ->
   FollowPath dt u =
     match rest with
     | [] => set_path [] u
     | w' :: _ => set_currentTargetPos w' (set_path rest u)
     end) /\
  ((5 <= Qabs dx)%Q ->
   path (FollowPath dt u) = path u /\
   currentTargetPos (FollowPath dt u) = currentTargetPos u /\
   (vy (position (FollowPath dt u)) == vy (position u))%Q /\
   ((0 < dx)%Q -> (vx (position (FollowPath dt u)) == vx (position u) + speed u * dt)%Q) /\
   ((dx < 0)%Q -> (vx (position (FollowPath dt u)) == vx (position u) - speed u * dt)%Q)).
Proof.
  intros Hy Hc Hpath. exact (FollowPath_lane dt u w rest Hy Hc Hpath).
Qed.

Lemma FollowPath_along_lane_witness :
  path (FollowPath (1#60) (Unit_new 0%nat KNIGHT true)) = tl default_player_path /\
  position (FollowPath (1#60) (Unit_new 0%nat KNIGHT true)) = lane_point 150 /\
  (vx (position (FollowPath 4 (FollowPath (1#60) (Unit_new 0%nat KNIGHT true))))
   == 150 + 80 * 4)%Q /\
  (vx (position (FollowPath (1#2)
         (FollowPath 4 (FollowPath (1#60) (Unit_new 0%nat KNIGHT true)))))
   == 470 - 80 * (1#2))%Q.
Proof.
  pose (u0 := Unit_new 0%nat KNIGHT true).
  pose (u1 := FollowPath (1#60) u0).
  pose (u2 := FollowPath 4 u1).
  destruct (FollowPath_along_lane (1#60) u0 (lane_point 150) (tl default_player_path))
    as (Hnear & _); try reflexivity.
  destruct (FollowPath_along_lane 4 u1 (lane_point 200) (tl (tl default_player_path)))
    as (_ & Hfar1); try (vm_compute; reflexivity).
  destruct (FollowPath_along_lane (1#2) u2 (lane_point 200) (tl (tl default_player_path)))
    as (_ & Hfar2); try (vm_compute; reflexivity).
  fold u0. fold u1. fold u2.
  split; [unfold u1; rewrite Hnear by (vm_compute; reflexivity); reflexivity|].
  split; [unfold u1; rewrite Hnear by (vm_compute; reflexivity); reflexivity|].
  split.
  - destruct Hfar1 as (_ & _ & _ & Hr & _); [vm_compute; discriminate|].
    apply (Qeq_trans _ (vx (position u1) + speed u1 * 4));
      [apply Hr|]; vm_compute; reflexivity.
  - destruct Hfar2 as (_ & _ & _ & _ & Hl); [vm_compute; discriminate|].
    apply (Qeq_trans _ (vx (position u2) - speed u2 * (1#2)));
      [apply Hl|]; vm_compute; reflexivity.
Defined.

(** X14. In every state the frame loop reaches every unit still has the
    figures of its type in the table of [Unit::getUnitStats]: maximum
    health, damage, speed, attack rate, attack range, ranged flag and size
    are set by the constructor and written by nothing else. *)
Theorem main_units_keep_their_stats (L : StdLib) (frames : list Frame) (g : Game) :
  main frames = Some g ->
  forall u, In u (units g) ->
    let stats := Unit_getUnitStats (type u) in
    maxHP u = st_hp stats /\ damage u = st_damage stats /\ speed u = st_speed stats /\
    attackRate u = st_attackRate stats /\ attackRange u = st_range stats /\
    isRanged u = st_isRanged stats /\ size u = st_size stats.
Proof.
  intros Hm. apply Forall_forall. revert Hm.
  apply (main_kept by_the_table); try (intros; assumption).
  - apply FollowPath_by_the_table.
  - apply Unit_new_by_the_table.
Qed.

Lemma main_units_keep_their_stats_witness :
  exists g, @main reference_lib demo_frames = Some g /\
    map (fun u => (type u, isPlayer u, maxHP u, damage u)) (units g)
      = [(KNIGHT, true, 300, 60); (KNIGHT, false, 300, 60)] /\
    forall u, In u (units g) ->
      let stats := Unit_getUnitStats (type u) in
      maxHP u = st_hp stats /\ damage u = st_damage stats /\ speed u = st_speed stats /\
      attackRate u = st_attackRate stats /\ attackRange u = st_range stats /\
      isRanged u = st_isRanged stats /\ size u = st_size stats.
Proof.
  eexists. split; [vm_compute; reflexivity|]. split; [vm_compute; reflexivity|].
  apply (main_units_keep_their_stats reference_lib demo_frames).
  vm_compute; reflexivity.
Defined.


(** ** The screens *)

(** X15. The start screen is only ever shown before the first match: a
    state the frame loop reaches with [currentState = START_SCREEN] is the
    freshly constructed game, untouched by any key but Enter.  And the
    game-over screen is only shown for a match that is over: there
    [gameOver] is set. *)
Theorem main_screens (L : StdLib) (frames : list Frame) (g : Game) :
  main frames = Some g ->
  (currentState g = START_SCREEN -> g = Game_new) /\
  (currentState g = GAME_OVER -> gameOver g = true).
Proof.
  intros Hm.
  apply (main_loop_invariant
           (fun g => (currentState g = START_SCREEN -> g = Game_new) /\
                     (currentState g = GAME_OVER -> gameOver g = true))
           (fun _ => True))
    with (frames := frames) (g := Game_new); try assumption.
  - intros f a (H1 & H2).
    destruct (GameState_eqb (currentState a) PLAYING) eqn:E.
    + destruct (uncommanded_fields _ _ (handle_input_uncommanded f a)) as (Es & _).
      rewrite Es. destruct (currentState a); try discriminate.
      split; discriminate.
    + rewrite handle_input_outside_match; [auto|].
      intros Hs. rewrite Hs in E. discriminate.
  - intros f a b _ (H1 & H2) HU. destruct (tick_phase _ _ _ _ HU) as (T1 & T2).
    split; intros Hs.
    + destruct (T1 Hs) as (Ha & ->). auto.
    + destruct (T2 Hs) as [(Ha & ->)|(_ & Hg & ->)]; auto.
  - apply Forall_forall. intros; exact I.
  - split; [reflexivity|discriminate].
Qed.

Lemma main_screens_witness :
  (exists g, @main reference_lib over_frames = Some g /\
     currentState g = GAME_OVER /\ gameOver g = true) /\
  @main reference_lib
    [mkFrame true true true true true false no_keys (1#60) no_rnd; idle 4] = Some Game_new.
Proof.
  split.
  - eexists. split; [vm_compute; reflexivity|]. split; [reflexivity|].
    apply (main_screens reference_lib over_frames); [vm_compute|]; reflexivity.
  - destruct (@main reference_lib
                [mkFrame true true true true true false no_keys (1#60) no_rnd; idle 4])
      as [g|] eqn:E; [|vm_compute in E; discriminate].
    f_equal.
    apply (main_screens reference_lib
             [mkFrame true true true true true false no_keys (1#60) no_rnd; idle 4] g E).
    vm_compute in E. inversion E. reflexivity.
Defined.

(** ** The freeze cooldown *)

(** X16. A second [ActivateFreeze] does nothing: once activated the freeze
    is unavailable, whatever the state.  A tick of a match being played
    leaves an available freeze alone, and runs the cooldown of an
    unavailable one down by the frame time; on the tick on which the
    cooldown reaches 0 the freeze becomes available again, with the
    cooldown at exactly 0. *)
Theorem freeze_rearms (L : StdLib) (dt : Q) (keys : Input)
        (rnd rnd' : nat -> Vector2 * Vector2) (g g' : Game) :
  ActivateFreeze rnd' (ActivateFreeze rnd g) = ActivateFreeze rnd g /\
  (currentState g = PLAYING -> gameOver g = false ->
   Game_Update dt keys g = Some g' ->
   (freezeAvailable g = true ->
    freezeAvailable g' = true /\ freezeCooldown g' = freezeCooldown g) /\
   (freezeAvailable g = false -> (freezeCooldown g - dt <= 0)%Q ->
    freezeAvailable g' = true /\ freezeCooldown g' = 0%Q) /\
   (freezeAvailable g = false -> ~ (freezeCooldown g - dt <= 0)%Q ->
    freezeAvailable g' = false /\ freezeCooldown g' = (freezeCooldown g - dt)%Q)).
Proof.
  split.
  - assert (Hno : forall r a, negb (GameState_eqb (currentState a) PLAYING) = true \/
                              freezeAvailable a = false -> ActivateFreeze r a = a).
    { intros r a [H|H]; unfold ActivateFreeze; rewrite H; [reflexivity|].
      destruct (negb _); reflexivity. }
    destruct (negb (GameState_eqb (currentState g) PLAYING)) eqn:E1.
    + rewrite (Hno rnd g) by (now left). apply Hno. now left.
    + destruct (freezeAvailable g) eqn:E2.
      * apply Hno. right. unfold ActivateFreeze. rewrite E1, E2. reflexivity.
      * rewrite (Hno rnd g) by (now right). apply Hno. now right.
  - intros Hs Hg HU.
    destruct (tick_clocks dt keys g g' Hs Hg HU) as (g10 & -> & F & _).
    apply fixed_scalars_of_fields in F. destruct F as (_ & F2 & F3 & _).
    destruct (unsequenced_scalars _ _ (HandleWaveProgression_unsequenced dt g10))
      as (_ & B2 & B3 & _).
    rewrite B2, B3, F2, F3.
    destruct (clocks_freeze dt g) as (Hav & Hun).
    split; [exact Hav|]. split; intros Hf Hc; specialize (Hun Hf).
    + apply Qle_bool_iff in Hc. rewrite Hc in Hun. exact Hun.
    + destruct (Qle_bool (freezeCooldown g - dt) 0) eqn:E; [|exact Hun].
      apply Qle_bool_iff in E. contradiction.
Qed.

Lemma freeze_rearms_witness :
  exists g', @Game_Update reference_lib (1#60) no_keys frozen_game = Some g' /\
    freezeAvailable g' = false /\ freezeCooldown g' = (FREEZE_COOLDOWN - (1#60))%Q /\
    ActivateFreeze no_rnd frozen_game = frozen_game.
Proof.
  eexists. split; [vm_compute; reflexivity|].
  lazymatch goal with
  | |- freezeAvailable ?x = _ /\ _ =>
      destruct (freeze_rearms reference_lib (1#60) no_keys no_rnd no_rnd frozen_game x)
        as (_ & Ht);
      destruct (freeze_rearms reference_lib (1#60) no_keys no_rnd no_rnd freeze_game x)
        as (Hi & _)
  end.
  destruct (Ht eq_refl eq_refl ltac:(vm_compute; reflexivity)) as (_ & _ & Hrun).
  destruct (Hrun eq_refl ltac:(intros H; vm_compute in H; apply H; reflexivity)) as (A & B).
  split; [exact A|]. split; [exact B|exact Hi].
Defined.

(** ** The spawning step of the wave sequencer *)

(** X17. While the sequencer is spawning an entry of the current wave, one
    step adds the frame time to the spawn timer; when the timer has
    reached the wave's interval (and the entry is not exhausted) it
    appends one unit - an enemy unit of the entry's type, fresh from its
    constructor - at no elixir cost, resets the timer to 0 whatever it had
    run over, and counts the unit, moving on to the next entry when the
    count of the entry is reached; otherwise no unit is added.  The chain
    and the current wave are left alone. *)
Theorem wave_sends_one_unit (dt : Q) (g : Game) (w : GameWave) (e : WaveUnit) :
  nth_error (waveList g) (currentWave g) = Some w ->
  gameOver g = false -> isBetweenWaves g = false ->
  nth_error (waveUnits w) (currentUnitTypeIndex g) = Some e ->
  let g' := HandleWaveProgression dt g in
  waveList g' = waveList g /\ currentWave g' = currentWave g /\
  isBetweenWaves g' = false /\ enemyElixir g' = enemyElixir g /\
  ((spawnRate w <= waveSpawnTimer g + dt)%Q ->
   unitsSpawnedForCurrentType g < wu_count e ->
   units g' = units g ++ [Unit_new (next_ptr g) (wu_type e) false] /\
   next_ptr g' = S (next_ptr g) /\ waveSpawnTimer g' = 0%Q /\
   (unitsSpawnedForCurrentType g + 1 < wu_count e ->
    currentUnitTypeIndex g' = currentUnitTypeIndex g /\
    unitsSpawnedForCurrentType g' = unitsSpawnedForCurrentType g + 1) /\
   (wu_count e <= unitsSpawnedForCurrentType g + 1 ->
    currentUnitTypeIndex g' = S (currentUnitTypeIndex g) /\
    unitsSpawnedForCurrentType g' = 0)) /\
  (~ ((spawnRate w <= waveSpawnTimer g + dt)%Q /\
      unitsSpawnedForCurrentType g < wu_count e) ->
   units g' = units g /\ next_ptr g' = next_ptr g /\
   waveSpawnTimer g' = (waveSpawnTimer g + dt)%Q /\
   currentUnitTypeIndex g' = currentUnitTypeIndex g /\
   unitsSpawnedForCurrentType g' = unitsSpawnedForCurrentType g).
Proof.
  intros Hw Hg Hb He g'. subst g'. unfold HandleWaveProgression.
  rewrite Hw, Hg, Hb.
  cbn -[Qplus Qle_bool nth_error Z.ltb Z.geb Z.add].
  rewrite He.
  destruct (Qle_bool (spawnRate w) (waveSpawnTimer g + dt)) eqn:E1;
    destruct (unitsSpawnedForCurrentType g <? wu_count e) eqn:E2;
    cbn -[Qplus Qle_bool nth_error Z.ltb Z.geb Z.add].
  - apply Qle_bool_iff in E1. apply Z.ltb_lt in E2.
    destruct (unitsSpawnedForCurrentType g + 1 >=? wu_count e) eqn:E3;
      [apply Z.geb_le in E3|rewrite Z.geb_leb in E3; apply Z.leb_gt in E3];
      cbn -[Qplus Z.add];
      (split; [reflexivity|]); (split; [reflexivity|]); (split; [exact Hb|]);
      (split; [reflexivity|]);
      (split; [|intros Hn; exfalso; apply Hn; split; assumption]);
      intros _ _; (split; [reflexivity|]); (split; [reflexivity|]);
      (split; [reflexivity|]); split; intros Hc; try lia; split; reflexivity.
  - apply Z.ltb_ge in E2.
    (split; [reflexivity|]); (split; [reflexivity|]); (split; [exact Hb|]);
      (split; [reflexivity|]); split; [intros _ Hc; lia|].
    intros _. repeat split.
  - assert (Hno : ~ (spawnRate w <= waveSpawnTimer g + dt)%Q)
      by (intros Hc; apply Qle_bool_iff in Hc; congruence).
    (split; [reflexivity|]); (split; [reflexivity|]); (split; [exact Hb|]);
      (split; [reflexivity|]); split; [intros Hc; contradiction|].
    intros _. repeat split.
  - assert (Hno : ~ (spawnRate w <= waveSpawnTimer g + dt)%Q)
      by (intros Hc; apply Qle_bool_iff in Hc; congruence).
    (split; [reflexivity|]); (split; [reflexivity|]); (split; [exact Hb|]);
      (split; [reflexivity|]); split; [intros Hc; contradiction|].
    intros _. repeat split.
Qed.

Lemma wave_sends_one_unit_witness :
  units (HandleWaveProgression (1#60) (set_waveSpawnTimer 4 (playing [])))
    = [Unit_new 0%nat KNIGHT false] /\
  unitsSpawnedForCurrentType
    (HandleWaveProgression (1#60) (set_waveSpawnTimer 4 (playing []))) = 1 /\
  waveSpawnTimer (HandleWaveProgression (1#60) (set_waveSpawnTimer 4 (playing []))) = 0%Q /\
  units (HandleWaveProgression (1#60) (playing [])) = [].
Proof.
  destruct (wave_sends_one_unit (1#60) (set_waveSpawnTimer 4 (playing []))
              (mkGameWave 1 [mkWaveUnit KNIGHT 2; mkWaveUnit WIZARD 1] 4 10)
              (mkWaveUnit KNIGHT 2) eq_refl eq_refl eq_refl eq_refl)
    as (_ & _ & _ & _ & Hs & _).
  destruct (wave_sends_one_unit (1#60) (playing [])
              (mkGameWave 1 [mkWaveUnit KNIGHT 2; mkWaveUnit WIZARD 1] 4 10)
              (mkWaveUnit KNIGHT 2) eq_refl eq_refl eq_refl eq_refl)
    as (_ & _ & _ & _ & _ & Hn).
  destruct Hs as (A & _ & B & C & _); [vm_compute; discriminate|reflexivity|].
  destruct C as (_ & C); [reflexivity|].
  destruct Hn as (D & _).
  - intros (Hc & _). vm_compute in Hc. apply Hc. reflexivity.
  - split; [exact A|]. split; [exact C|]. split; [exact B|exact D].
Defined.
